(** * Antenna breakpad submission resource: model and properties

    A shallow embedding of [antenna/breakpad_resource.py] (the
    [BreakpadSubmitterResource] handler and its crashmover queue) and of the
    earlier handler of [antenna/app.py].

    Python dictionaries are finite maps, exceptions are the left summand of
    a result type, the deque is a list with its head at the left, and the
    collaborators that live outside the two modules (zlib, cgi, json,
    hashlib, the throttler, the crash-id helpers, the clock) are the fields
    of one environment record. *)

From Stdlib Require Import ZArith String Ascii List Lia Floats.
From stdpp Require Import base option list gmap strings pretty.

Local Open Scope string_scope.
Local Open Scope list_scope.

(** ** Python values *)

Definition bytes := list Byte.byte.

(** The values that show up in a raw crash: what [json.loads] can return,
    plus byte strings. A float is an IEEE binary64, as in CPython. *)
#[local] Unset Elimination Schemes.
Inductive pyval :=
  | VNone
  | VBool (b : bool)
  | VInt (z : Z)
  | VFloat (f : float)
  | VStr (s : string)
  | VBytes (b : bytes)
  | VList (l : list pyval)
  | VDict (m : gmap string pyval).
#[local] Set Elimination Schemes.

(** Exceptions that can leave the modelled code. *)
Inductive exn :=
  | TypeError
  | ValueError
  | JSONDecodeError
  | ZlibError
  | OtherError (what : string).

Definition result (A : Type) : Type := exn + A.

Definition ret {A} (a : A) : result A := inr a.
Definition raise {A} (e : exn) : result A := inl e.
Definition bind {A B} (k : A -> result B) (r : result A) : result B :=
  match r with
  | inl e => inl e
  | inr a => k a
  end.

(** [x ← r; k] runs [k] on the value of [r] and passes an exception on. *)
Global Instance result_mbind : MBind result := @bind.

Global Instance result_fmap : FMap result :=
  fun A B f r => match r with inl e => inl e | inr a => inr (f a) end.

(** Python truth value ([bool(v)], as used by [not v]). *)
Definition truthy (v : pyval) : bool :=
  match v with
  | VNone => false
  | VBool b => b
  | VInt z => negb (z =? 0)%Z
  | VFloat f => negb (PrimFloat.eqb f 0%float)
  | VStr s => negb (String.eqb s "")
  | VBytes b => match b with [] => false | _ => true end
  | VList l => match l with [] => false | _ => true end
  | VDict m => match map_to_list m with [] => false | _ => true end
  end.

(** [d[k] = v]: only a dict takes a string subscript for assignment. *)
Definition setitem (d : pyval) (k : string) (v : pyval) : result pyval :=
  match d with
  | VDict m => ret (VDict (<[k:=v]> m))
  | _ => raise TypeError
  end.

(** ** String helpers used by the handler *)

(** Characters that [str.strip()] removes (Python's [str.isspace] on the
    code points a one-byte character can hold). *)
Definition is_space (c : ascii) : bool :=
  let n := nat_of_ascii c in
  (((9 <=? n) && (n <=? 13)) || ((28 <=? n) && (n <=? 32))
   || (n =? 133) || (n =? 160))%nat.

Fixpoint lstrip_with (p : ascii -> bool) (s : string) : string :=
  match s with
  | String c s' => if p c then lstrip_with p s' else s
  | EmptyString => EmptyString
  end.

(** Drops the longest suffix whose characters all satisfy [p]. *)
Fixpoint rstrip_with (p : ascii -> bool) (s : string) : string :=
  match s with
  | String c s' =>
      match rstrip_with p s' with
      | EmptyString => if p c then EmptyString else String c EmptyString
      | r => String c r
      end
  | EmptyString => EmptyString
  end.

Definition strip_with (p : ascii -> bool) (s : string) : string :=
  rstrip_with p (lstrip_with p s).

(** [s.strip()] *)
Definition strip (s : string) : string := strip_with is_space s.

(** [s.strip('-')] *)
Definition strip_dash (s : string) : string :=
  strip_with (fun c => Ascii.eqb c "-"%char) s.

(** [s.split(sep, 1)]: one piece when [sep] does not occur, else the text
    before the first [sep] and the text after it. *)
Fixpoint split_once (sep : ascii) (s : string) : list string :=
  match s with
  | EmptyString => [EmptyString]
  | String c s' =>
      if Ascii.eqb c sep then [EmptyString; s']
      else match split_once sep s' with
           | h :: t => String c h :: t
           | [] => [String c EmptyString]
           end
  end.

(** [s.startswith(p)] *)
Definition startswith (s p : string) : bool := String.prefix p s.

(** ** Constants and the crash report *)

(** Maximum number of attempts to save a crash before giving up. *)
Definition MAX_ATTEMPTS : nat := 20.

(** SAVE and PUBLISH states of the crash mover (the strings ['save'] and
    ['publish'] in the source, used as an enumeration). *)
Inductive mover_state := STATE_SAVE | STATE_PUBLISH.

Global Instance mover_state_eq_dec : EqDecision mover_state.
Proof. solve_decision. Defined.

(** [CrashReport]. [state] is [None] until [set_state] runs. [ident] stands
    for the identity of the Python object: two reports built by two calls of
    the constructor are different objects even when all their fields
    agree. *)
Record CrashReport := mkCrashReport {
  raw_crash : pyval;
  dumps : gmap string pyval;
  crash_id : pyval;
  errors : nat;
  state : option mover_state;
  ident : nat
}.

(** [CrashReport.__init__] with the default [errors=0]. *)
Definition new_CrashReport (raw : pyval) (dmp : gmap string pyval)
    (cid : pyval) (obj : nat) : CrashReport :=
  {| raw_crash := raw; dumps := dmp; crash_id := cid; errors := 0;
     state := None; ident := obj |}.

(** [CrashReport.set_state]: set new state and reset errors. *)
Definition set_state (cr : CrashReport) (st : mover_state) : CrashReport :=
  {| raw_crash := raw_crash cr; dumps := dumps cr; crash_id := crash_id cr;
     errors := 0; state := Some st; ident := ident cr |}.

(** [crash_report.errors += 1] *)
Definition incr_errors (cr : CrashReport) : CrashReport :=
  {| raw_crash := raw_crash cr; dumps := dumps cr; crash_id := crash_id cr;
     errors := S (errors cr); state := state cr; ident := ident cr |}.

(** ** Requests, form parts, responses, configuration *)

(** What the handler reads of a [falcon.Request]. [content_length] is
    Falcon's parsed header: [None] when absent. [stream] is the body that
    [req.stream] yields. *)
Record request := mkRequest {
  content_type : option string;
  content_length : option nat;
  env : gmap string pyval;
  stream : bytes
}.

(** One item of [cgi.FieldStorage.list]. *)
Record fs_item := mkItem {
  fs_name : option string;
  fs_type : option string;
  fs_value : pyval
}.

Record response := mkResponse {
  status : string;
  resp_content_type : string;
  body : string
}.

Definition HTTP_200 : string := "200 OK".

(** The options of [required_config] that the modelled code can read. *)
Record Config := mkConfig {
  dump_field : string;
  dump_id_prefix : string;
  concurrent_crashmovers : positive
}.

Definition default_config : Config :=
  {| dump_field := "upload_file_minidump"; dump_id_prefix := "bp-";
     concurrent_crashmovers := 2%positive |}.

(** Modelled from the spec: the throttler's result constants, which
    [antenna.throttler] defines (glossary: the decision is one of ACCEPT,
    FAKEACCEPT, REJECT, DEFER). *)
Inductive throttle_result := ACCEPT | DEFER | REJECT | FAKEACCEPT.

Global Instance throttle_result_eq_dec : EqDecision throttle_result.
Proof. solve_decision. Defined.

(** ** The collaborators outside the two modules *)

Class Env := {
  (** [datetime.datetime], as returned by [utc_now()] *)
  datetime : Type;
  (** [dt.isoformat()] *)
  isoformat : datetime -> string;
  (** the moment of a datetime as seconds since the epoch
      ([dt.timestamp()]) *)
  posix_timestamp : datetime -> float;
  (** [zlib.decompress(data, 16 + zlib.MAX_WBITS)]; [None] is [zlib.error] *)
  zlib_decompress : bytes -> option bytes;
  (** [cgi.FieldStorage(fp=data, environ=env, keep_blank_values=1).list] *)
  FieldStorage : bytes -> gmap string pyval -> result (list fs_item);
  (** [json.loads] *)
  json_loads : pyval -> result pyval;
  (** [antenna.util.sanitize_dump_name] *)
  sanitize_dump_name : string -> string;
  (** [hashlib.sha256(b).hexdigest()] on a byte string *)
  sha256_hexdigest : bytes -> string;
  (** [Throttler.throttle]: result, rule name, throttle rate *)
  throttle : pyval -> throttle_result * string * pyval;
  (** the Python object that a result constant is *)
  result_value : throttle_result -> pyval;
  (** [antenna.util.validate_crash_id] *)
  validate_crash_id : pyval -> bool;
  (** [antenna.util.create_crash_id(timestamp, throttle_result)] *)
  create_crash_id : datetime -> throttle_result -> string;
  (** [str(v)] for a [v] that is not a [str] *)
  str_other : pyval -> string
}.

(** The resource's mutable part: the crashmover work queue (a deque, head
    first) and the count of [CrashReport] objects built so far, which names
    the next object. *)
Record resource := mkResource {
  crashmover_queue : list CrashReport;
  allocated : nat
}.

Definition newline : string := String (ascii_of_nat 10) EmptyString.

(** ** The handler of [breakpad_resource.py] *)

Section Handler.
Context `{E : Env}.
Variable config : Config.

(** What the loop over [fs.list] carries from one part to the next. *)
Record parts_acc := mkAcc {
  acc_raw : pyval;
  acc_dumps : gmap string pyval;
  has_json : bool;
  has_kvpairs : bool
}.

Definition acc_init : parts_acc :=
  {| acc_raw := VDict ∅; acc_dumps := ∅; has_json := false;
     has_kvpairs := false |}.

(** Truth value of an optional string ([None] and [''] are false). *)
Definition str_truthy (t : option string) : bool :=
  match t with
  | Some s => negb (String.eqb s "")
  | None => false
  end.

(** [t and t.startswith(p)] *)
Definition type_startswith (t : option string) (p : string) : bool :=
  str_truthy t && startswith (default "" t) p.

(** [isinstance(v, bytes)] *)
Definition is_bytes (v : pyval) : bool :=
  match v with
  | VBytes _ => true
  | _ => false
  end.

(** [fs_item.name or ''] *)
Definition item_name (it : fs_item) : string := default "" (fs_name it).

(** The body of the [for fs_item in fs.list] loop. *)
Definition walk_part (acc : parts_acc) (it : fs_item) : result parts_acc :=
  if String.eqb (item_name it) "dump_checksums" then ret acc
  else if type_startswith (fs_type it) "application/json" then
    v ← json_loads (fs_value it);
    ret {| acc_raw := v; acc_dumps := acc_dumps acc; has_json := true;
           has_kvpairs := has_kvpairs acc |}
  else if str_truthy (fs_type it)
          && (startswith (default "" (fs_type it)) "application/octet-stream"
              || is_bytes (fs_value it)) then
    ret {| acc_raw := acc_raw acc;
           acc_dumps :=
             <[sanitize_dump_name (item_name it) := fs_value it]>
               (acc_dumps acc);
           has_json := has_json acc; has_kvpairs := has_kvpairs acc |}
  else
    r ← setitem (acc_raw acc) (item_name it) (fs_value it);
    ret {| acc_raw := r; acc_dumps := acc_dumps acc;
           has_json := has_json acc; has_kvpairs := true |}.

Fixpoint walk_parts (acc : parts_acc) (items : list fs_item)
    : result parts_acc :=
  match items with
  | [] => ret acc
  | it :: rest => acc' ← walk_part acc it; walk_parts acc' rest
  end.

(** The pair [{}, {}] that signals a malformed request. *)
Definition empty_payload : pyval * gmap string pyval := (VDict ∅, ∅).

(** [req.env.get('HTTP_CONTENT_ENCODING') == 'gzip'] *)
Definition is_gzip (req : request) : bool :=
  match env req !! "HTTP_CONTENT_ENCODING" with
  | Some (VStr s) => String.eqb s "gzip"
  | _ => false
  end.

(** The three-way test on the split Content-Type header. *)
Definition bad_content_type (parts : list string) : bool :=
  negb (length parts =? 2)%nat
  || negb (String.eqb (nth 0 parts "") "multipart/form-data")
  || negb (startswith (nth 1 parts "") "boundary=").

(** The data and environ handed to [cgi.FieldStorage]; [None] when the
    gzip body does not decompress. In the gzip branch the source updates
    [req.env] in place; nothing reads it after the parse. *)
Definition payload_source (req : request) (len : nat)
    : option (bytes * gmap string pyval) :=
  if is_gzip req then
    match zlib_decompress (take len (stream req)) with
    | None => None
    | Some data =>
        Some (data,
              <["CONTENT_LENGTH" := VStr (pretty (length data))]>
                (<["ORIG_CONTENT_LENGTH" := VInt (Z.of_nat len)]> (env req)))
    end
  else Some (stream req, env req).

(** [extract_payload]: (raw_crash, dumps), or an exception. *)
Definition extract_payload (req : request)
    : result (pyval * gmap string pyval) :=
  if negb (str_truthy (content_type req)) then ret empty_payload
  else
    let parts := strip <$> split_once ";" (default "" (content_type req)) in
    if bad_content_type parts then ret empty_payload
    else
      let len := default 0%nat (content_length req) in
      if (len =? 0)%nat then ret empty_payload
      else
        match payload_source req len with
        | None => ret empty_payload
        | Some (data, environ) =>
            items ← FieldStorage data environ;
            acc ← walk_parts acc_init items;
            if has_json acc && has_kvpairs acc then ret empty_payload
            else ret (acc_raw acc, acc_dumps acc)
        end.

(** The guards that come before the body is read: a Content-Type that
    splits into [multipart/form-data] and a [boundary=] part, and a
    Content-Length that is not zero. *)
Definition header_ok (req : request) : bool :=
  str_truthy (content_type req)
  && negb (bad_content_type
             (strip <$> split_once ";" (default "" (content_type req))))
  && negb (default 0%nat (content_length req) =? 0)%nat.

(** The test of the loop's dump branch, with the tests before it. *)
Definition takes_dump_branch (it : fs_item) : bool :=
  negb (String.eqb (item_name it) "dump_checksums")
  && negb (type_startswith (fs_type it) "application/json")
  && str_truthy (fs_type it)
  && (startswith (default "" (fs_type it)) "application/octet-stream"
      || is_bytes (fs_value it)).

(** [get_throttle_result]: the raw crash is updated in place, so the
    updated dictionary is returned with the throttler's answer. *)
Definition get_throttle_result (raw : pyval)
    : result (throttle_result * string * pyval * pyval) :=
  let '(res, rule_name, throttle_rate) := throttle raw in
  raw ← setitem raw "legacy_processing" (result_value res);
  raw ← setitem raw "throttle_rate" throttle_rate;
  ret (res, rule_name, throttle_rate, raw).

(** [hashlib.sha256(dump).hexdigest()]: hashing a [str] is a TypeError. *)
Definition sha256_hex (dump : pyval) : result pyval :=
  match dump with
  | VBytes b => ret (VStr (sha256_hexdigest b))
  | _ => raise TypeError
  end.

(** The dict comprehension over [dumps.items()]. *)
Fixpoint checksums_of (items : list (string * pyval))
    : result (gmap string pyval) :=
  match items with
  | [] => ret ∅
  | (dump_name, dump) :: rest =>
      h ← sha256_hex dump;
      m ← checksums_of rest;
      ret (<[dump_name := h]> m)
  end.

(** ['%s' % v] *)
Definition format_s (v : pyval) : string :=
  match v with
  | VStr s => s
  | _ => str_other v
  end.

Definition discarded : response :=
  {| status := HTTP_200; resp_content_type := "text/plain";
     body := "Discarded=1" |}.

(** ['CrashID=%s%s\n' % (self.config('dump_id_prefix'), crash_id)] *)
Definition accepted (cid : pyval) : response :=
  {| status := HTTP_200; resp_content_type := "text/plain";
     body := "CrashID=" +:+ dump_id_prefix config +:+ format_s cid
             +:+ newline |}.

(** The crash id: the client's [uuid] when present and valid, else a new
    one, which is written back. At this point the raw crash is a dict. *)
Definition choose_crash_id (now : datetime) (res : throttle_result)
    (raw : pyval) : result (pyval * pyval) :=
  let existing := match raw with
                  | VDict m => m !! "uuid"
                  | _ => None
                  end in
  match existing with
  | Some u =>
      if validate_crash_id u then ret (u, raw)
      else
        let cid := VStr (create_crash_id now res) in
        raw ← setitem raw "uuid" cid; ret (cid, raw)
  | None =>
      let cid := VStr (create_crash_id now res) in
      raw ← setitem raw "uuid" cid; ret (cid, raw)
  end.

(** [on_post]. [start_time] is what [time.time()] returns on entry and
    [now] what [utc_now()] returns after the payload is parsed. The
    result is the response and the resource after the call, or the
    exception that leaves the handler. [hb_run_crashmover] only spawns a
    worker; what workers do is the step relation further down. *)
Definition on_post (start_time : float) (now : datetime) (req : request)
    (self : resource) : result (response * resource) :=
  '(raw, dmp) ← extract_payload req;
  if negb (truthy raw) then ret (discarded, self)
  else
    raw ← setitem raw "submitted_timestamp" (VStr (isoformat now));
    raw ← setitem raw "timestamp" (VFloat start_time);
    sums ← checksums_of (map_to_list dmp);
    raw ← setitem raw "dump_checksums" (VDict sums);
    raw ← setitem raw "MinidumpSha256Hash"
            (default (VStr "") (sums !! "upload_file_minidump"));
    '(res, rule_name, percentage, raw) ← get_throttle_result raw;
    '(cid, raw) ← choose_crash_id now res raw;
    raw ← setitem raw "type_tag" (VStr (strip_dash (dump_id_prefix config)));
    match res with
    | REJECT => ret (discarded, self)
    | FAKEACCEPT => ret (accepted cid, self)
    | _ =>
        let crash_report :=
          set_state (new_CrashReport raw dmp cid (allocated self))
                    STATE_SAVE in
        ret (accepted cid,
             {| crashmover_queue := crashmover_queue self ++ [crash_report];
                allocated := S (allocated self) |})
    end.

End Handler.

(** ** The crashmover *)

(** What a worker does that the outside can see: calls into the storage
    and publish backends, and the counters it increments. The number is the
    [ident] of the crash report. *)
Inductive event :=
  | Called (st : mover_state) (obj : nat)
      (** [save_crash] (for SAVE) or [publish_crash] (for PUBLISH) entered *)
  | Returned (st : mover_state) (obj : nat)
      (** that call returned without raising *)
  | Excepted (st : mover_state) (obj : nat)
      (** the [except] branch ran: ['%s_crash_exception.count'] *)
  | Dropped (st : mover_state) (obj : nat)
      (** ['%s_crash_dropped.count'] *)
  | Finished (obj : nat).
      (** ['save_crash.count'] in [crashmover_finish] *)

Global Instance event_eq_dec : EqDecision event.
Proof. solve_decision. Defined.

(** [crashmover_finish] subtracts [raw_crash['timestamp']] from a float:
    that works when the entry is there and is a number. *)
Definition finish_ok (cr : CrashReport) : bool :=
  match raw_crash cr with
  | VDict m =>
      match m !! "timestamp" with
      | Some (VFloat _) | Some (VInt _) | Some (VBool _) => true
      | _ => false
      end
  | _ => false
  end.

(** The [except Exception] branch for a report in state [st]: the report to
    append to the queue, if any, and the events. *)
Definition handle_exception (st : mover_state) (cr : CrashReport)
    : option CrashReport * list event :=
  let cr := incr_errors cr in
  if (errors cr <? MAX_ATTEMPTS)%nat then
    (Some cr, [Excepted st (ident cr)])
  else
    (None, [Excepted st (ident cr); Dropped st (ident cr)]).

(** One pass of the loop body once the backend call is over; [ok] tells
    whether the call returned ([true]) or raised ([false]). *)
Definition settle (cr : CrashReport) (ok : bool)
    : option CrashReport * list event :=
  match state cr with
  | Some STATE_SAVE =>
      if ok then
        (Some (set_state cr STATE_PUBLISH), [Returned STATE_SAVE (ident cr)])
      else handle_exception STATE_SAVE cr
  | Some STATE_PUBLISH =>
      if ok then
        if finish_ok cr then
          (None, [Returned STATE_PUBLISH (ident cr); Finished (ident cr)])
        else
          let '(again, evs) := handle_exception STATE_PUBLISH cr in
          (again, Returned STATE_PUBLISH (ident cr) :: evs)
      else handle_exception STATE_PUBLISH cr
  | None => (None, [])
  end.

(** The backend call a popped report leads to. *)
Definition call_event (cr : CrashReport) : list event :=
  match state cr with
  | Some st => [Called st (ident cr)]
  | None => []
  end.

(** *** One worker running alone *)

(** Storage and publish backends: each call returns or raises, and may
    change the backend's own state. *)
Class Backend := {
  bstate : Type;
  save_crash : CrashReport -> bstate -> bool * bstate;
  publish_crash : CrashReport -> bstate -> bool * bstate
}.

Section Worker.
Context `{B : Backend}.

(** The [try] block's backend call. *)
Definition run_call (cr : CrashReport) (bs : bstate) : bool * bstate :=
  match state cr with
  | Some STATE_SAVE => save_crash cr bs
  | Some STATE_PUBLISH => publish_crash cr bs
  | None => (true, bs)
  end.

(** One pass of [while self.crashmover_queue]; [None] when the queue is
    empty and the loop ends. *)
Definition crashmover_iteration (q : list CrashReport) (bs : bstate)
    : option (list CrashReport * bstate * list event) :=
  match q with
  | [] => None
  | cr :: rest =>
      let '(ok, bs') := run_call cr bs in
      let '(again, evs) := settle cr ok in
      Some (rest ++ option_list again, bs', call_event cr ++ evs)
  end.

(** [crashmover_process_queue], with a bound on the number of passes:
    the queue, backend state and events when the loop ends, or [None]
    when the bound is hit first. *)
Fixpoint crashmover_process_queue (fuel : nat) (q : list CrashReport)
    (bs : bstate) : option (list CrashReport * bstate * list event) :=
  match crashmover_iteration q bs with
  | None => Some (q, bs, [])
  | Some (q', bs', evs) =>
      match fuel with
      | O => None
      | S fuel' =>
          match crashmover_process_queue fuel' q' bs' with
          | Some (q'', bs'', evs') => Some (q'', bs'', evs ++ evs')
          | None => None
          end
      end
  end.

End Worker.

(** A backend that follows a script: each call takes the next entry
    ([true]: return, [false]: raise); past the end every call returns. *)
Definition scripted_call (cr : CrashReport) (script : list bool)
    : bool * list bool :=
  match script with
  | [] => (true, [])
  | ok :: rest => (ok, rest)
  end.

Definition scripted : Backend :=
  {| bstate := list bool; save_crash := scripted_call;
     publish_crash := scripted_call |}.

(** The number of backend calls of one kind among the events. *)
Definition count_calls (st : mover_state) (evs : list event) : nat :=
  length (List.filter (fun e => match e with
                                | Called st' _ => bool_decide (st' = st)
                                | _ => false
                                end) evs).

(** The storage raises on every call. *)
Definition save_always_fails : list bool := replicate 20 false.

(** The storage raises 19 times and then returns; the publisher raises on
    every call. *)
Definition save_late_publish_fails : list bool :=
  replicate 19 false ++ true :: replicate 20 false.

(** A bound on the passes of the loop that a report can still take: each
    pass on it lowers the bound. *)
Definition passes_left (cr : CrashReport) : nat :=
  match state cr with
  | Some STATE_SAVE => 22 + (MAX_ATTEMPTS - errors cr)
  | Some STATE_PUBLISH => 1 + (MAX_ATTEMPTS - errors cr)
  | None => 1
  end.

Definition queue_passes (q : list CrashReport) : nat :=
  sum_list_with passes_left q.


(** *** Handler and workers together *)

(** The queue with its object counter, the reports that workers have
    popped and are working on, and the events so far. *)
Record system := mkSystem {
  res : resource;
  held : list CrashReport;
  log : list event
}.

Definition init : system :=
  {| res := {| crashmover_queue := []; allocated := 0 |}; held := [];
     log := [] |}.

(** Every report the system still has. *)
Definition live (σ : system) : list CrashReport :=
  crashmover_queue (res σ) ++ held σ.

(** The report an event is about. *)
Definition event_obj (e : event) : nat :=
  match e with
  | Called _ i | Returned _ i | Excepted _ i | Dropped _ i | Finished i => i
  end.

Definition is_call (e : event) : bool :=
  match e with
  | Called _ _ => true
  | _ => false
  end.

(** What holds of every state that the handler and the workers can
    reach. *)
Record invariant (σ : system) : Prop := mkInvariant {
  inv_nodup : NoDup (ident <$> live σ);
  inv_alloc : forall cr, cr ∈ live σ -> ident cr < allocated (res σ);
  inv_errors : forall cr, cr ∈ live σ -> errors cr < MAX_ATTEMPTS;
  inv_state : forall cr, cr ∈ live σ -> is_Some (state cr);
  inv_log_alloc : forall e, e ∈ log σ -> event_obj e < allocated (res σ);
  inv_published :
    forall cr, cr ∈ live σ -> state cr = Some STATE_PUBLISH ->
               Returned STATE_SAVE (ident cr) ∈ log σ;
  inv_unsaved :
    forall cr, cr ∈ live σ -> state cr = Some STATE_SAVE ->
               Called STATE_PUBLISH (ident cr) ∉ log σ;
  inv_order :
    forall pre post i, log σ = pre ++ Called STATE_PUBLISH i :: post ->
                       Returned STATE_SAVE i ∈ pre;
  inv_dropped :
    forall st i, Dropped st i ∈ log σ -> i ∉ ident <$> live σ;
  inv_dropped_save :
    forall i, Dropped STATE_SAVE i ∈ log σ -> Called STATE_PUBLISH i ∉ log σ
}.

Section System.
Context `{E : Env}.
Variable config : Config.

(** A worker gives up control only while a backend call is in progress,
    so a pass of the loop is two steps: pop and call, then settle. A
    handler that raises leaves the queue as it was. At most
    [concurrent_crashmovers] workers exist, each with at most one
    report. *)
Inductive step : system -> system -> Prop :=
  | step_post σ start_time now req resp res' :
      on_post config start_time now req (res σ) = inr (resp, res') ->
      step σ {| res := res'; held := held σ; log := log σ |}
  | step_pop σ cr rest :
      crashmover_queue (res σ) = cr :: rest ->
      length (held σ) < Pos.to_nat (concurrent_crashmovers config) ->
      step σ {| res := {| crashmover_queue := rest;
                          allocated := allocated (res σ) |};
                held := held σ ++ [cr];
                log := log σ ++ call_event cr |}
  | step_settle σ h1 cr h2 ok :
      held σ = h1 ++ cr :: h2 ->
      step σ {| res := {| crashmover_queue :=
                            crashmover_queue (res σ)
                            ++ option_list (settle cr ok).1;
                          allocated := allocated (res σ) |};
                held := h1 ++ h2;
                log := log σ ++ (settle cr ok).2 |}.

Definition reachable (σ : system) : Prop := rtc step init σ.

End System.

(** ** The kinds of part *)

(** The four branches of the loop over the parts: a part is skipped, is a
    JSON blob, is a dump, or is a text key/value pair. *)
Inductive part_kind := Skipped | JsonBlob | Dump | KeyValue.

Global Instance part_kind_eq_dec : EqDecision part_kind.
Proof. solve_decision. Defined.

(** The branch of the loop body that a part takes, by the tests of
    [walk_part] in their order. *)
Definition walk_branch (it : fs_item) : part_kind :=
  if String.eqb (item_name it) "dump_checksums" then Skipped
  else if type_startswith (fs_type it) "application/json" then JsonBlob
  else if str_truthy (fs_type it)
          && (startswith (default "" (fs_type it)) "application/octet-stream"
              || is_bytes (fs_value it)) then Dump
  else KeyValue.

Definition has_branch (k : part_kind) (items : list fs_item) : bool :=
  existsb (fun it => bool_decide (walk_branch it = k)) items.

(** ** The parser's contract as the specification words it *)

Section Contract.
Context `{E : Env}.

(** A part named [dump_checksums] is skipped; a part whose media type
    begins with [application/json] is a JSON blob; a part whose media
    type begins with [application/octet-stream], or whose value is a raw
    byte sequence, is a dump; any other part is a text key/value pair. *)
Definition spec_part_kind (it : fs_item) : part_kind :=
  if String.eqb (default "" (fs_name it)) "dump_checksums" then Skipped
  else if startswith (default "" (fs_type it)) "application/json" then
    JsonBlob
  else if startswith (default "" (fs_type it)) "application/octet-stream"
          || is_bytes (fs_value it) then Dump
  else KeyValue.

Definition has_kind (k : part_kind) (items : list fs_item) : bool :=
  existsb (fun it => bool_decide (spec_part_kind it = k)) items.

(** No Content-Type header. *)
Definition spec_no_content_type (req : request) : bool :=
  negb (str_truthy (content_type req)).

(** The first [;]-separated part of Content-Type is not
    [multipart/form-data]. *)
Definition spec_wrong_content_type (req : request) : bool :=
  negb (String.eqb
          (strip (nth 0 (split_once ";" (default "" (content_type req))) ""))
          "multipart/form-data").

(** There is no second part, or it does not begin with [boundary=]. *)
Definition spec_no_boundary (req : request) : bool :=
  match split_once ";" (default "" (content_type req)) with
  | [_; p] => negb (startswith (strip p) "boundary=")
  | _ => true
  end.

(** Content-Length is absent or zero. *)
Definition spec_no_content_length (req : request) : bool :=
  match content_length req with
  | None | Some O => true
  | Some _ => false
  end.

(** The body is gzip-encoded and does not decompress. *)
Definition spec_bad_gzip (req : request) : bool :=
  is_gzip req
  && bool_decide
       (zlib_decompress
          (take (default 0%nat (content_length req)) (stream req)) = None).

Definition spec_bad_header (req : request) : bool :=
  spec_no_content_type req || spec_wrong_content_type req
  || spec_no_boundary req || spec_no_content_length req.

(** The parts of the (decompressed) body, when the header is in order. *)
Definition body_parts (req : request) : option (result (list fs_item)) :=
  '(data, environ) ← payload_source req (default 0%nat (content_length req));
  Some (FieldStorage data environ).

(** The body has both a JSON-blob part and a text key/value part. *)
Definition spec_json_and_kv (req : request) : bool :=
  match body_parts req with
  | Some (inr items) => has_kind JsonBlob items && has_kind KeyValue items
  | _ => false
  end.

(** Malformed in one of the ways the specification lists. *)
Definition spec_malformed (req : request) : bool :=
  spec_bad_header req || spec_bad_gzip req || spec_json_and_kv req.

End Contract.

(** ** The handler's straight-line part on a dictionary

    Once the raw crash is known to be a dict, every item assignment of
    [on_post] succeeds and the handler is a chain of insertions. The
    definitions below name the stages of that chain. *)

Section Stages.
Context `{E : Env}.
Variable config : Config.

(** After the timestamps and the checksums. *)
Definition stamp (start_time : float) (now : datetime)
    (m sums : gmap string pyval) : gmap string pyval :=
  <["MinidumpSha256Hash" :=
      default (VStr "") (sums !! "upload_file_minidump")]>
    (<["dump_checksums" := VDict sums]>
       (<["timestamp" := VFloat start_time]>
          (<["submitted_timestamp" := VStr (isoformat now)]> m))).

(** The throttler's answer on a stamped crash. *)
Definition throttle_of (m : gmap string pyval) : throttle_result :=
  (throttle (VDict m)).1.1.

(** After [get_throttle_result]. *)
Definition throttled (m : gmap string pyval) : gmap string pyval :=
  <["throttle_rate" := (throttle (VDict m)).2]>
    (<["legacy_processing" := result_value (throttle_of m)]> m).

(** Whether the client's uuid is kept. *)
Definition keeps_uuid (m : gmap string pyval) : bool :=
  match m !! "uuid" with
  | Some u => validate_crash_id u
  | None => false
  end.

Definition crash_id_of (now : datetime) (res : throttle_result)
    (m : gmap string pyval) : pyval :=
  if keeps_uuid m then default VNone (m !! "uuid")
  else VStr (create_crash_id now res).

(** After the crash id and the type tag. *)
Definition identified (now : datetime) (res : throttle_result)
    (m : gmap string pyval) : gmap string pyval :=
  <["type_tag" := VStr (strip_dash (dump_id_prefix config))]>
    (if keeps_uuid m then m
     else <["uuid" := VStr (create_crash_id now res)]> m).

(** The raw crash as it stands at the dispatch. *)
Definition annotated (start_time : float) (now : datetime)
    (m sums : gmap string pyval) : gmap string pyval :=
  let m1 := stamp start_time now m sums in
  identified now (throttle_of m1) (throttled m1).

(** The report that the handler enqueues. *)
Definition submission (start_time : float) (now : datetime)
    (m sums dmp : gmap string pyval) (obj : nat) : CrashReport :=
  let m1 := stamp start_time now m sums in
  set_state
    (new_CrashReport (VDict (annotated start_time now m sums)) dmp
       (crash_id_of now (throttle_of m1) (throttled m1)) obj)
    STATE_SAVE.

(** The dispatch on the throttle result. *)
Definition dispatch (res : throttle_result) (cid : pyval)
    (cr : CrashReport) (self : resource) : response * resource :=
  match res with
  | REJECT => (discarded, self)
  | FAKEACCEPT => (accepted config cid, self)
  | _ => (accepted config cid,
          {| crashmover_queue := crashmover_queue self ++ [cr];
             allocated := S (allocated self) |})
  end.

(** The checksums when every dump is a byte string. *)
Definition checksum_value (dump : pyval) : pyval :=
  match dump with
  | VBytes data => VStr (sha256_hexdigest data)
  | _ => VNone
  end.

(** Every dump is a byte string. *)
Definition dumps_are_bytes (dmp : gmap string pyval) : Prop :=
  map_Forall (fun _ v => is_bytes v = true) dmp.

(** The text [CrashID=<prefix><id>] followed by a newline. *)
Definition crash_id_body (cid : pyval) : string :=
  "CrashID=" +:+ dump_id_prefix config +:+ format_s cid +:+ newline.

(** The request is parsed into a non-empty mapping [m] with byte-string
    dumps [dmp], and the throttler neither rejects nor fake-accepts it. *)
Definition accepts (start_time : float) (now : datetime) (req : request)
    (m dmp : gmap string pyval) : Prop :=
  extract_payload req = inr (VDict m, dmp)
  /\ m <> ∅
  /\ dumps_are_bytes dmp
  /\ throttle_of (stamp start_time now m (checksum_value <$> dmp)) <> REJECT
  /\ throttle_of (stamp start_time now m (checksum_value <$> dmp))
     <> FAKEACCEPT.

(** [isinstance(v, str)] *)
Definition is_str (v : pyval) : bool :=
  match v with
  | VStr _ => true
  | _ => false
  end.

(** Every value of the mapping is a [str]. *)
Definition all_strings (m : gmap string pyval) : Prop :=
  map_Forall (fun _ v => is_str v = true) m.

(** The two timestamps denote one moment [t]: the text is [t] in ISO
    form and the float is [t] in seconds since the epoch. *)
Definition same_moment (submitted timestamp : pyval) : Prop :=
  exists t : datetime,
    submitted = VStr (isoformat t)
    /\ timestamp = VFloat (posix_timestamp t).

(** The entries of the annotations that the handler writes with a value
    that is not a string. *)
Definition handler_typed_key (k : string) : bool :=
  String.eqb k "timestamp" || String.eqb k "dump_checksums"
  || String.eqb k "legacy_processing" || String.eqb k "throttle_rate".

End Stages.

(** ** The handler of [app.py]

    The earlier form of the submission resource: it has no throttler and
    no queue, and saves the crash before it answers. *)

Module App.

(** The collaborators that only [app.py] uses. *)
Class Extras `{E : Env} := {
  (** [int(v)] *)
  py_int : pyval -> result Z;
  (** [process_fieldstorage(cgi.FieldStorage(fp=data, environ=env,
      keep_blank_values=1)).items()] *)
  form_payload : bytes -> gmap string pyval -> result (list (string * pyval));
  (** [antenna.util.de_null] *)
  de_null : string -> string;
  (** [hashlib.md5(b).hexdigest()] *)
  md5_hexdigest : bytes -> string;
  (** [antenna.lib.ooid.create_new_ooid] *)
  create_new_ooid : datetime -> string;
  (** [crashstorage.save_raw_crash(raw_crash, dumps, crash_id)]: returns
      or raises *)
  save_raw_crash : gmap string pyval -> gmap string pyval -> pyval ->
                   result unit
}.

Section Handler.
Context `{X : Extras}.
Variable config : Config.

(** [req.stream.read(n)]: a negative [n] reads everything. *)
Definition read (data : bytes) (n : Z) : bytes :=
  if (n <? 0)%Z then data else take (Z.to_nat n) data.

(** [raw_crash.setdefault('dump_checksums', {})[key] = checksum] *)
Definition add_checksum (raw : gmap string pyval) (key : string)
    (checksum : string) : result (gmap string pyval) :=
  match default (VDict ∅) (raw !! "dump_checksums") with
  | VDict sums =>
      ret (<["dump_checksums" := VDict (<[key := VStr checksum]> sums)]>
             raw)
  | _ => raise TypeError
  end.

(** The body of the loop over [payload.items()]. *)
Definition walk_item (acc : gmap string pyval * gmap string pyval)
    (kv : string * pyval)
    : result (gmap string pyval * gmap string pyval) :=
  let '(raw, dmp) := acc in
  let '(key, val) := kv in
  if String.eqb key "dump_checksums" then ret acc
  else match val with
       | VStr s => ret (<[key := VStr (de_null s)]> raw, dmp)
       | VBytes data =>
           raw' ← add_checksum raw key (md5_hexdigest data);
           ret (raw', <[key := val]> dmp)
       | _ => ret acc
       end.

Fixpoint walk_items (acc : gmap string pyval * gmap string pyval)
    (items : list (string * pyval))
    : result (gmap string pyval * gmap string pyval) :=
  match items with
  | [] => ret acc
  | kv :: rest => acc' ← walk_item acc kv; walk_items acc' rest
  end.

(** [extract_payload] of [app.py]: the call of [zlib.decompress] has no
    handler around it. *)
Definition extract_payload (req : request)
    : result (gmap string pyval * gmap string pyval) :=
  '(data, environ) ←
    (if is_gzip req then
       len ← py_int (default (VInt 0) (env req !! "CONTENT_LENGTH"));
       match zlib_decompress (read (stream req) len) with
       | None => raise ZlibError
       | Some data =>
           ret (data,
                <["CONTENT_LENGTH" := VInt (Z.of_nat (length data))]>
                  (<["ORIG_CONTENT_LENGTH" := VInt len]> (env req)))
       end
     else ret (stream req, env req));
  items ← form_payload data environ;
  walk_items (∅, ∅) items.

(** [on_post] of [app.py]; [now] is [utc_now()] and [timestamp] is
    [time.time()]. *)
Definition on_post (now : datetime) (timestamp : float) (req : request)
    : result response :=
  '(raw, dmp) ← extract_payload req;
  let raw := <["submitted_timestamp" := VStr (isoformat now)]> raw in
  let raw := <["timestamp" := VFloat timestamp]> raw in
  let '(cid, raw) :=
    match raw !! "uuid" with
    | None =>
        let cid := VStr (create_new_ooid now) in
        (cid, <["uuid" := cid]> raw)
    | Some cid => (cid, raw)
    end in
  let raw := <["type_tag" := VStr (strip_dash (dump_id_prefix config))]>
               raw in
  _ ← save_raw_crash raw dmp cid;
  ret {| status := HTTP_200; resp_content_type := "text/plain";
         body := "CrashID=" +:+ dump_id_prefix config +:+ format_s cid
                 +:+ newline |}.

End Handler.

End App.

(** ** What the parser leaves under a key *)

(** The value of the last part of [items] that takes the branch [kind] of
    the loop and whose key is [k]: item assignments in a row leave the
    last value. *)
Fixpoint last_field (kind : part_kind) (key : fs_item -> string)
    (k : string) (items : list fs_item) : option pyval :=
  match items with
  | [] => None
  | it :: rest =>
      match last_field kind key k rest with
      | Some v => Some v
      | None =>
          if bool_decide (walk_branch it = kind) && String.eqb (key it) k
          then Some (fs_value it)
          else None
      end
  end.

(** The keys that [on_post] writes into the raw crash. *)
Definition handler_key (k : string) : bool :=
  String.eqb k "submitted_timestamp" || String.eqb k "timestamp"
  || String.eqb k "dump_checksums" || String.eqb k "MinidumpSha256Hash"
  || String.eqb k "legacy_processing" || String.eqb k "throttle_rate"
  || String.eqb k "uuid" || String.eqb k "type_tag".

Section ReportShape.
Context `{E : Env}.
Variable config : Config.

(** What the handler has written into a report by the time it enqueues
    it. *)
Definition report_ok (cr : CrashReport) : Prop :=
  exists m,
    raw_crash cr = VDict m
    /\ m !! "uuid" = Some (crash_id cr)
    /\ m !! "type_tag" = Some (VStr (strip_dash (dump_id_prefix config)))
    /\ (exists t, m !! "timestamp" = Some (VFloat t))
    /\ dumps_are_bytes (dumps cr)
    /\ m !! "dump_checksums" = Some (VDict (checksum_value <$> dumps cr)).

End ReportShape.

(** ** Counting on the worker's events *)

(** A bound on the backend calls that a report can still cause. *)
Definition calls_left (cr : CrashReport) : nat :=
  match state cr with
  | Some STATE_SAVE => 2 * MAX_ATTEMPTS - errors cr
  | Some STATE_PUBLISH => MAX_ATTEMPTS - errors cr
  | None => 0
  end.

Definition queue_calls (q : list CrashReport) : nat :=
  sum_list_with calls_left q.

(** A bound on the calls of the backend of [st] that a report can still
    cause: a report in SAVE can be saved until its errors reach the
    ceiling and then be published up to the ceiling. *)
Definition state_calls_left (st : mover_state) (cr : CrashReport) : nat :=
  match st, state cr with
  | STATE_SAVE, Some STATE_SAVE => MAX_ATTEMPTS - errors cr
  | STATE_PUBLISH, Some STATE_SAVE => MAX_ATTEMPTS
  | STATE_PUBLISH, Some STATE_PUBLISH => MAX_ATTEMPTS - errors cr
  | _, _ => 0
  end.

(** The calls of the backend of [st] for the report objects selected by
    [p], among the events and still to come for a queue. *)
Definition calls_where (st : mover_state) (p : nat -> bool)
    (evs : list event) : nat :=
  length (List.filter (fun e => match e with
                                | Called st' i => bool_decide (st' = st) && p i
                                | _ => false
                                end) evs).

Definition left_where (st : mover_state) (p : nat -> bool)
    (q : list CrashReport) : nat :=
  sum_list_with (fun cr => if p (ident cr) then state_calls_left st cr
                           else 0) q.

(** The calls of the backend of [st] for the report object [i]. *)
Definition count_report_calls (st : mover_state) (i : nat)
    (evs : list event) : nat :=
  calls_where st (Nat.eqb i) evs.



(** The report that an event ends the life of: published and finished, or
    dropped. *)
Definition terminal (e : event) : option nat :=
  match e with
  | Finished i | Dropped _ i => Some i
  | _ => None
  end.

Definition terminals (evs : list event) : list nat := omap terminal evs.

(** The report whose SAVE state an event ends: the save returned, or the
    report was dropped in SAVE. *)
Definition save_over (e : event) : option nat :=
  match e with
  | Returned STATE_SAVE i | Dropped STATE_SAVE i => Some i
  | _ => None
  end.

Definition saves_over (evs : list event) : list nat := omap save_over evs.

(** The reports that are still to be saved. *)
Definition unsaved (q : list CrashReport) : list CrashReport :=
  filter (fun cr => state cr = Some STATE_SAVE) q.

(** ** The pool and the heartbeat functions *)

(** The system with the number of greenlets in the crashmover pool
    ([len(self.crashmover_pool)]): the workers that were spawned and have
    not returned. *)
Record pooled := mkPooled {
  base : system;
  workers : nat
}.

Definition pooled_init : pooled := {| base := init; workers := 0 |}.

Section Pool.
Context `{E : Env}.
Variable config : Config.

(** [Pool(size=self.config('concurrent_crashmovers'))] *)
Definition pool_size : nat := Pos.to_nat (concurrent_crashmovers config).

(** [self.crashmover_pool.free_count()] *)
Definition free_count (σ : pooled) : nat := pool_size - workers σ.

(** [hb_run_crashmover]: spawn a crashmover if there is work in the queue
    and the pool is not full. *)
Definition hb_run_crashmover (σ : pooled) : pooled :=
  match crashmover_queue (res (base σ)) with
  | [] => σ
  | _ :: _ =>
      if (0 <? free_count σ)%nat then
        {| base := base σ; workers := S (workers σ) |}
      else σ
  end.

(** [has_work_to_do]: [bool(len(pool) + len(queue))]. *)
Definition has_work_to_do (σ : pooled) : bool :=
  negb (workers σ + length (crashmover_queue (res (base σ))) =? 0)%nat.

(** The gauge that [hb_report_health_stats] reports. *)
Definition work_queue_size (σ : pooled) : nat :=
  length (crashmover_queue (res (base σ))).

(** Whether a call of [on_post] took the branch that appends a report,
    which is the branch that ends with [hb_run_crashmover()]: it is the one
    that builds an object. *)
Definition enqueued (self self' : resource) : bool :=
  negb (allocated self' =? allocated self)%nat.

(** The steps of handler, heartbeat and workers. A worker that holds no
    report is at the loop test: it pops the head when there is one and
    returns, leaving the pool, when there is none. *)
Inductive pstep : pooled -> pooled -> Prop :=
  | pstep_post σ start_time now req resp res' :
      on_post config start_time now req (res (base σ)) = inr (resp, res') ->
      pstep σ
        (let σ' := {| base := {| res := res'; held := held (base σ);
                                 log := log (base σ) |};
                      workers := workers σ |} in
         if enqueued (res (base σ)) res' then hb_run_crashmover σ' else σ')
  | pstep_heartbeat σ :
      pstep σ (hb_run_crashmover σ)
  | pstep_pop σ cr rest :
      crashmover_queue (res (base σ)) = cr :: rest ->
      length (held (base σ)) < workers σ ->
      pstep σ
        {| base := {| res := {| crashmover_queue := rest;
                                allocated := allocated (res (base σ)) |};
                      held := held (base σ) ++ [cr];
                      log := log (base σ) ++ call_event cr |};
           workers := workers σ |}
  | pstep_settle σ h1 cr h2 ok :
      held (base σ) = h1 ++ cr :: h2 ->
      pstep σ
        {| base := {| res := {| crashmover_queue :=
                                  crashmover_queue (res (base σ))
                                  ++ option_list (settle cr ok).1;
                                allocated := allocated (res (base σ)) |};
                      held := h1 ++ h2;
                      log := log (base σ) ++ (settle cr ok).2 |};
           workers := workers σ |}
  | pstep_exit σ :
      crashmover_queue (res (base σ)) = [] ->
      length (held (base σ)) < workers σ ->
      pstep σ {| base := base σ; workers := pred (workers σ) |}.

Definition preachable (σ : pooled) : Prop := rtc pstep pooled_init σ.

End Pool.

(** ** The payload of [app.py] *)

Section AppPayload.
Context `{X : App.Extras}.

(** The entry of [dump_checksums] that [app.py] computes for a dump. *)
Definition md5_value (dump : pyval) : pyval :=
  match dump with
  | VBytes data => VStr (App.md5_hexdigest data)
  | _ => VNone
  end.

(** What the loop of [extract_payload] in [app.py] keeps true of
    [(raw_crash, dumps)] after the items [seen]: the dumps are byte-string
    items, [dump_checksums] is absent without dumps and otherwise holds
    the MD5 digest of each dump, and the other entries are text items
    passed through [de_null]. *)
Definition app_payload_ok (seen : list (string * pyval))
    (acc : gmap string pyval * gmap string pyval) : Prop :=
  dumps_are_bytes acc.2
  /\ acc.2 !! "dump_checksums" = None
  /\ acc.1 !! "dump_checksums" =
     (if decide (acc.2 = ∅) then None
      else Some (VDict (md5_value <$> acc.2)))
  /\ (forall k v, acc.2 !! k = Some v -> (k, v) ∈ seen)
  /\ (forall k v, k <> "dump_checksums" -> acc.1 !! k = Some v ->
        exists s, v = VStr (App.de_null s) /\ (k, VStr s) ∈ seen).

End AppPayload.

(** ** An environment for the examples

    The form decoder is a table from bodies to parts, and the other
    collaborators are small functions that agree with the real ones on the
    inputs the examples use. *)

Module Demo.

Definition b (s : string) : bytes := String.list_byte_of_string s.

(** Accepts a body that starts with the gzip magic number and returns
    what follows it. *)
Definition demo_decompress (data : bytes) : option bytes :=
  match data with
  | Byte.x1f :: Byte.x8b :: rest => Some rest
  | _ => None
  end.

Definition dq : string := String (ascii_of_nat 34) EmptyString.

(** The JSON text of an object with the one member ProductName. *)
Definition firefox_json : string :=
  "{" +:+ dq +:+ "ProductName" +:+ dq +:+ ": " +:+ dq +:+ "Firefox" +:+ dq
  +:+ "}".

(** [json.loads] on the four texts of the examples; every other text is
    taken as not JSON. *)
Definition demo_json_loads (v : pyval) : result pyval :=
  match v with
  | VStr s =>
      if String.eqb s "{}" then ret (VDict ∅)
      else if String.eqb s "[1]" then ret (VList [VInt 1])
      else if String.eqb s firefox_json then
        ret (VDict {["ProductName" := VStr "Firefox"]})
      else raise JSONDecodeError
  | _ => raise JSONDecodeError
  end.

Definition demo_sha256 (data : bytes) : string :=
  "e9cee71ab932fde863338d08be4de9dfe39ea049bdafb342ce659ec5450b69ae".

Definition demo_result_value (r : throttle_result) : pyval :=
  match r with
  | ACCEPT => VInt 0
  | DEFER => VInt 1
  | REJECT => VInt 2
  | FAKEACCEPT => VInt 3
  end.

Definition demo_validate (v : pyval) : bool :=
  match v with
  | VStr s => (String.length s =? 36)%nat
  | _ => false
  end.

(** [decode] is the form decoder; [decision] is what the throttler
    answers. Datetimes are microseconds since the epoch. *)
Definition env_with (decode : bytes -> result (list fs_item))
    (decision : throttle_result) : Env :=
  {| datetime := Z;
     isoformat := pretty;
     posix_timestamp := fun us => (PrimFloat.of_uint63 (Uint63.of_Z us) / 1000000)%float;
     zlib_decompress := demo_decompress;
     FieldStorage := fun data _ => decode data;
     json_loads := demo_json_loads;
     sanitize_dump_name := fun s => s;
     sha256_hexdigest := demo_sha256;
     throttle := fun _ => (decision, "is_firefox", VInt 100);
     result_value := demo_result_value;
     validate_crash_id := demo_validate;
     create_crash_id := fun _ _ => "de1bb258-cbbf-4589-a673-34f800160918";
     str_other := fun _ => "" |}.

Definition text_part (name value : string) : fs_item :=
  {| fs_name := Some name; fs_type := Some "text/plain";
     fs_value := VStr value |}.

Definition dump_part (name : string) (data : bytes) : fs_item :=
  {| fs_name := Some name; fs_type := Some "application/octet-stream";
     fs_value := VBytes data |}.

Definition json_part (name text : string) : fs_item :=
  {| fs_name := Some name; fs_type := Some "application/json";
     fs_value := VStr text |}.

(** A POST with a multipart header and the given body. *)
Definition post (data : bytes) : request :=
  {| content_type := Some "multipart/form-data; boundary=xx";
     content_length := Some (length data);
     env := ∅;
     stream := data |}.

Definition idle : resource := {| crashmover_queue := []; allocated := 0 |}.

(** The payload of the specification's first scenario. *)
Definition firefox_parts : list fs_item :=
  [text_part "ProductName" "Firefox"; text_part "Version" "1.0";
   dump_part "upload_file_minidump" (b "abcd1234")].

(** The environment in which every body decodes to [parts]. *)
Definition env_of (parts : list fs_item) (decision : throttle_result)
    : Env :=
  env_with (fun _ => ret parts) decision.

Definition firefox_annotations : gmap string pyval :=
  <["Version" := VStr "1.0"]> (<["ProductName" := VStr "Firefox"]> ∅).

(** A configuration that names another main dump. *)
Definition other_config : Config :=
  {| dump_field := "upload_file_other"; dump_id_prefix := "bp-";
     concurrent_crashmovers := 2%positive |}.

Definition other_parts : list fs_item :=
  [text_part "ProductName" "Firefox";
   dump_part "upload_file_other" (b "abcd1234")].

(** A part with the media type of a dump and a text value, as
    [cgi.FieldStorage] reads a part that has no file name. *)
Definition text_dump_part (name value : string) : fs_item :=
  {| fs_name := Some name; fs_type := Some "application/octet-stream";
     fs_value := VStr value |}.

Definition text_dump_parts : list fs_item :=
  [text_part "ProductName" "Firefox";
   text_dump_part "upload_file_minidump" "abcd1234"].

(** A body whose only part is a resubmitted [dump_checksums] field. *)
Definition checksums_only_env : Env :=
  env_of [text_part "dump_checksums" "{}"] ACCEPT.

Definition firefox_dumps : gmap string pyval :=
  <["upload_file_minidump" := VBytes (b "abcd1234")]> ∅.

(** The happy path: the body decodes to [firefox_parts] and the
    throttler accepts. *)
Definition firefox_env : Env := env_of firefox_parts ACCEPT.

(** The report that the handler builds for the happy path at time 0. *)
Definition firefox_report : CrashReport :=
  @submission firefox_env default_config 0%float 0%Z firefox_annotations
    (@checksum_value firefox_env <$> firefox_dumps) firefox_dumps 0.

(** The system after the happy-path request is posted. *)
Definition posted : system :=
  {| res := {| crashmover_queue := [firefox_report]; allocated := 1 |};
     held := []; log := [] |}.

(** The system after the request is posted and saved and a worker has
    entered the publish call. *)
Definition publishing : system :=
  {| res := {| crashmover_queue := []; allocated := 1 |};
     held := [set_state firefox_report STATE_PUBLISH];
     log := [Called STATE_SAVE 0; Returned STATE_SAVE 0;
             Called STATE_PUBLISH 0] |}.

(** The collaborators of [app.py] for the examples: the form holds the
    happy-path fields and the storage accepts every crash. *)
Definition app_extras : @App.Extras firefox_env :=
  {| App.py_int := fun v => match v with
                            | VInt z => ret z
                            | VStr s => if String.eqb s "4" then ret 4%Z
                                        else raise ValueError
                            | _ => raise ValueError
                            end;
     App.form_payload := fun _ _ =>
       ret [("ProductName", VStr "Firefox");
            ("upload_file_minidump", VBytes (b "abcd1234"))];
     App.de_null := fun s => s;
     App.md5_hexdigest := fun _ => "e19d5cd5af0378da05f63f891c7467af";
     App.create_new_ooid := fun _ => "de1bb258-cbbf-4589-a673-34f800160918";
     App.save_raw_crash := fun _ _ _ => ret tt |}.

(** A gzip-encoded POST whose body is not gzip data. *)
Definition junk_gzip_post : request :=
  {| content_type := Some "multipart/form-data; boundary=xx";
     content_length := Some 4;
     env := <["HTTP_CONTENT_ENCODING" := VStr "gzip"]>
              (<["CONTENT_LENGTH" := VStr "4"]> ∅);
     stream := b "junk" |}.


(** A report in state SAVE with no errors, as the handler enqueues it. *)
Definition fresh_report : CrashReport :=
  set_state (new_CrashReport (VDict ∅) ∅ (VStr "id") 7) STATE_SAVE.

End Demo.

(** * Properties *)

Section ResultLemmas.

Lemma bind_inr {A B} (r : result A) (k : A -> result B) (y : B) :
  (x ← r; k x) = inr y <-> exists a, r = inr a /\ k a = inr y.
Proof.
  destruct r as [e|a]; simpl; split.
  - intros H. discriminate H.
  - intros (a & Ha & _). discriminate Ha.
  - intros H. exists a. split; [reflexivity | exact H].
  - intros (a' & Ha & Hk). injection Ha as ->. exact Hk.
Qed.

Lemma bind_inl {A B} (r : result A) (k : A -> result B) (e : exn) :
  r = inl e -> (x ← r; k x) = inl e.
Proof. intros ->. reflexivity. Qed.

Lemma setitem_inr (d : pyval) (k : string) (v r : pyval) :
  setitem d k v = inr r -> exists m, d = VDict m /\ r = VDict (<[k:=v]> m).
Proof.
  destruct d; simpl; intros H; try discriminate H.
  injection H as <-. eexists. split; reflexivity.
Qed.

Lemma truthy_dict_empty (m : gmap string pyval) :
  truthy (VDict m) = false <-> m = ∅.
Proof.
  simpl. split.
  - destruct (map_to_list m) eqn:Hl; [|discriminate].
    intros _. by apply map_to_list_empty_iff.
  - intros ->. by rewrite map_to_list_empty.
Qed.

End ResultLemmas.

Section HandlerLemmas.
Context `{E : Env}.
Variable config : Config.

Lemma on_post_dict start_time now req self (m dmp sums : gmap string pyval) :
  extract_payload req = inr (VDict m, dmp) ->
  m <> ∅ ->
  checksums_of (map_to_list dmp) = inr sums ->
  on_post config start_time now req self =
  inr (dispatch config (throttle_of (stamp start_time now m sums))
         (crash_id_of now (throttle_of (stamp start_time now m sums))
            (throttled (stamp start_time now m sums)))
         (submission config start_time now m sums dmp (allocated self))
         self).
Proof.
  intros Hext Hne Hsums.
  assert (Ht : truthy (VDict m) = true).
  { destruct (truthy (VDict m)) eqn:Ht; [reflexivity|].
    apply truthy_dict_empty in Ht. contradiction. }
  unfold on_post. rewrite Hext. cbn [mbind result_mbind bind].
  rewrite Ht. cbn [negb setitem mbind result_mbind bind ret].
  rewrite Hsums. cbn [setitem mbind result_mbind bind ret].
  fold (stamp start_time now m sums).
  set (m1 := stamp start_time now m sums).
  unfold get_throttle_result, submission, annotated, identified,
    crash_id_of, throttled, throttle_of, keeps_uuid, dispatch.
  fold m1.
  destruct (throttle (VDict m1)) as [[res rule] rate].
  cbn [setitem mbind result_mbind bind ret fst snd].
  set (m2 := <["throttle_rate":=rate]> (<["legacy_processing":=result_value res]> m1)).
  unfold choose_crash_id.
  destruct (m2 !! "uuid") as [u|] eqn:Hu.
  - destruct (validate_crash_id u);
      cbn [setitem mbind result_mbind bind ret default];
      destruct res; reflexivity.
  - cbn [setitem mbind result_mbind bind ret default];
      destruct res; reflexivity.
Qed.

End HandlerLemmas.

Section Checksums.
Context `{E : Env}.

Lemma checksums_of_list (l : list (string * pyval)) :
  Forall (fun kv => is_bytes kv.2 = true) l ->
  checksums_of l = inr (list_to_map (prod_map id checksum_value <$> l)).
Proof.
  induction 1 as [|[k v] l Hv _ IH]; [reflexivity|].
  simpl in Hv. destruct v; try discriminate Hv.
  cbn [checksums_of sha256_hex mbind result_mbind bind ret].
  rewrite IH. reflexivity.
Qed.

Lemma checksums_of_bytes (dmp : gmap string pyval) :
  dumps_are_bytes dmp ->
  checksums_of (map_to_list dmp) = inr (checksum_value <$> dmp).
Proof.
  intros Hb. rewrite checksums_of_list.
  - by rewrite list_to_map_fmap, list_to_map_to_list.
  - apply Forall_forall. intros [k v] Hkv.
    apply elem_of_map_to_list in Hkv. exact (Hb k v Hkv).
Qed.

Lemma checksums_of_not_bytes (l : list (string * pyval)) :
  Exists (fun kv => is_bytes kv.2 = false) l ->
  checksums_of l = inl TypeError.
Proof.
  induction l as [|[k v] l IH]; intros Hex.
  - inversion Hex.
  - destruct v; try reflexivity.
    cbn [checksums_of sha256_hex mbind result_mbind bind ret].
    rewrite IH; [reflexivity|].
    inversion Hex as [? ? Hh|]; [discriminate Hh | assumption].
Qed.

End Checksums.

Section Dispatch.
Context `{E : Env}.
Variable config : Config.

(** For a request parsed into a non-empty annotations mapping with
    byte-string dumps the handler answers by the throttle result: REJECT
    gives the body Discarded=1 and leaves the queue alone, FAKEACCEPT
    gives the CrashID body and leaves the queue alone, and any other
    result appends a report in state SAVE at the tail and gives the same
    CrashID body. The status is 200 in each case. *)
Lemma dispatch_on_throttle_result start_time now req self
    (m dmp : gmap string pyval) :
  extract_payload req = inr (VDict m, dmp) ->
  m <> ∅ ->
  dumps_are_bytes dmp ->
  let m1 := stamp start_time now m (checksum_value <$> dmp) in
  let res := throttle_of m1 in
  let cid := crash_id_of now res (throttled m1) in
  exists resp self',
    on_post config start_time now req self = inr (resp, self')
    /\ status resp = HTTP_200
    /\ resp_content_type resp = "text/plain"
    /\ match res with
       | REJECT => body resp = "Discarded=1" /\ self' = self
       | FAKEACCEPT => body resp = crash_id_body config cid /\ self' = self
       | _ =>
           body resp = crash_id_body config cid
           /\ exists cr,
               crashmover_queue self' = crashmover_queue self ++ [cr]
               /\ state cr = Some STATE_SAVE
               /\ errors cr = 0
               /\ crash_id cr = cid
               /\ dumps cr = dmp
               /\ raw_crash cr =
                  VDict (annotated config start_time now m
                           (checksum_value <$> dmp))
       end.
Proof.
  intros Hext Hne Hb m1 res cid.
  pose proof (on_post_dict config start_time now req self m dmp _
                Hext Hne (checksums_of_bytes dmp Hb)) as Hpost.
  fold m1 res cid in Hpost. rewrite Hpost.
  unfold dispatch, submission. fold m1 res cid.
  subst cid. generalize (crash_id_of now res (throttled m1)) as cid.
  clearbody res. intros cid.
  destruct res; eexists _, _; (split; [reflexivity|]);
    cbn; repeat split; try reflexivity.
  all: eexists; repeat split; reflexivity.
Qed.

End Dispatch.

Example dispatch_on_throttle_result_demo :
  exists resp self',
    @on_post Demo.firefox_env default_config
      0%float 0%Z (Demo.post (Demo.b "body")) Demo.idle = inr (resp, self')
    /\ status resp = HTTP_200.
Proof.
  destruct (dispatch_on_throttle_result
              (E := Demo.env_of Demo.firefox_parts ACCEPT) default_config
              0%float 0%Z (Demo.post (Demo.b "body")) Demo.idle
              Demo.firefox_annotations Demo.firefox_dumps)
    as (resp & self' & Hpost & Hstatus & _).
  - vm_compute. reflexivity.
  - intros Hm.
    apply (f_equal (fun m : gmap string pyval => m !! "Version")) in Hm.
    vm_compute in Hm. discriminate Hm.
  - apply map_Forall_insert_2; [reflexivity | apply map_Forall_empty].
  - exists resp, self'. split; assumption.
Qed.

Section Parser.
Context `{E : Env}.

(** With the header in order and the body readable, the parser is the
    walk over the decoded parts. *)
Lemma extract_payload_body req data environ :
  header_ok req = true ->
  payload_source req (default 0%nat (content_length req))
    = Some (data, environ) ->
  extract_payload req =
    (items ← FieldStorage data environ;
     acc ← walk_parts acc_init items;
     if has_json acc && has_kvpairs acc then ret empty_payload
     else ret (acc_raw acc, acc_dumps acc)).
Proof.
  unfold header_ok, extract_payload. intros Hh Hsrc.
  apply andb_true_iff in Hh as [Hh Hlen].
  apply andb_true_iff in Hh as [Hct Hparts].
  rewrite Hct. cbn [negb].
  apply negb_true_iff in Hparts. rewrite Hparts.
  apply negb_true_iff in Hlen. rewrite Hlen.
  rewrite Hsrc. reflexivity.
Qed.

(** A header that fails a guard gives the empty pair. *)
Lemma extract_payload_bad_header req :
  header_ok req = false -> extract_payload req = inr empty_payload.
Proof.
  unfold header_ok, extract_payload. intros Hh.
  destruct (str_truthy (content_type req)); [|reflexivity]. cbn [negb].
  destruct (bad_content_type _); [reflexivity|].
  destruct (default 0%nat (content_length req) =? 0)%nat; [reflexivity|].
  discriminate Hh.
Qed.

(** Dump parts only fill [dumps]. *)
Lemma walk_parts_dumps (items : list fs_item) (acc : parts_acc) :
  Forall (fun it => takes_dump_branch it = true) items ->
  exists d,
    walk_parts acc items =
      inr {| acc_raw := acc_raw acc; acc_dumps := d;
             has_json := has_json acc; has_kvpairs := has_kvpairs acc |}
    /\ (acc_dumps acc <> ∅ \/ items <> [] -> d <> ∅).
Proof.
  intros Hall. revert acc.
  induction Hall as [|it items Hit _ IH]; intros acc.
  - exists (acc_dumps acc). split; [by destruct acc|]. intros [H|H]; done.
  - unfold takes_dump_branch in Hit.
    apply andb_true_iff in Hit as [Hit Hdump].
    apply andb_true_iff in Hit as [Hit Hty].
    apply andb_true_iff in Hit as [Hname Hjson].
    apply negb_true_iff in Hname, Hjson.
    cbn [walk_parts]. unfold walk_part.
    rewrite Hname, Hjson, Hty, Hdump.
    cbn [andb mbind result_mbind bind ret].
    destruct (IH {| acc_raw := acc_raw acc;
                    acc_dumps := <[sanitize_dump_name (item_name it) :=
                                     fs_value it]> (acc_dumps acc);
                    has_json := has_json acc;
                    has_kvpairs := has_kvpairs acc |})
      as (d & Hd & Hne).
    exists d. split; [exact Hd|]. intros _. apply Hne. left.
    cbn. apply insert_non_empty.
Qed.

End Parser.

Section Discard.
Context `{E : Env}.
Variable config : Config.

(** C10. When the parser returns an empty annotations mapping the
    handler answers Discarded=1 and enqueues nothing, whatever the dumps
    mapping holds; so a well-formed multipart request whose parts are all
    binary dumps is discarded although its dumps mapping is not empty. *)
Theorem C10_empty_annotations_discarded start_time now req self :
  (forall dmp,
     extract_payload req = inr (VDict ∅, dmp) ->
     on_post config start_time now req self = inr (discarded, self))
  /\ (forall data environ items,
        header_ok req = true ->
        payload_source req (default 0%nat (content_length req))
          = Some (data, environ) ->
        FieldStorage data environ = inr items ->
        items <> [] ->
        Forall (fun it => takes_dump_branch it = true) items ->
        exists dmp,
          dmp <> ∅
          /\ extract_payload req = inr (VDict ∅, dmp)
          /\ on_post config start_time now req self = inr (discarded, self)).
Proof.
  assert (Hgen : forall dmp,
             extract_payload req = inr (VDict ∅, dmp) ->
             on_post config start_time now req self = inr (discarded, self)).
  { intros dmp Hext. unfold on_post. rewrite Hext. reflexivity. }
  split; [exact Hgen|].
  intros data environ items Hh Hsrc Hfs Hne Hall.
  destruct (walk_parts_dumps items acc_init Hall) as (d & Hd & Hdne).
  assert (Hext : extract_payload req = inr (VDict ∅, d)).
  { rewrite (extract_payload_body req data environ Hh Hsrc), Hfs.
    cbn [mbind result_mbind bind]. rewrite Hd. reflexivity. }
  exists d. split; [apply Hdne; by right|].
  split; [exact Hext | exact (Hgen d Hext)].
Qed.

End Discard.

Lemma C10_empty_annotations_discarded_witness :
  exists dmp,
    dmp <> ∅
    /\ @extract_payload
         (Demo.env_of [Demo.dump_part "upload_file_minidump" (Demo.b "abcd1234")]
            ACCEPT)
         (Demo.post (Demo.b "body")) = inr (VDict ∅, dmp)
    /\ @on_post
         (Demo.env_of [Demo.dump_part "upload_file_minidump" (Demo.b "abcd1234")]
            ACCEPT)
         default_config 0%float 0%Z (Demo.post (Demo.b "body")) Demo.idle
       = inr (discarded, Demo.idle).
Proof.
  apply (proj2 (C10_empty_annotations_discarded
                  (E := Demo.env_of
                          [Demo.dump_part "upload_file_minidump"
                             (Demo.b "abcd1234")] ACCEPT)
                  default_config 0%float 0%Z (Demo.post (Demo.b "body"))
                  Demo.idle)
           (Demo.b "body") ∅
           [Demo.dump_part "upload_file_minidump" (Demo.b "abcd1234")]).
  - reflexivity.
  - reflexivity.
  - reflexivity.
  - discriminate.
  - repeat constructor.
Defined.

Section Escapes.
Context `{E : Env}.
Variable config : Config.

Lemma walk_parts_app (acc : parts_acc) (l1 l2 : list fs_item) :
  walk_parts acc (l1 ++ l2) =
    (acc' ← walk_parts acc l1; walk_parts acc' l2).
Proof.
  revert acc. induction l1 as [|it l1 IH]; intros acc; [reflexivity|].
  cbn [app walk_parts mbind result_mbind bind].
  destruct (walk_part acc it) as [e|acc']; [reflexivity|].
  cbn [bind]. apply IH.
Qed.

(** A JSON part that [json.loads] rejects ends the walk with the
    exception. *)
Lemma walk_parts_bad_json (acc : parts_acc) (it : fs_item) rest e :
  String.eqb (item_name it) "dump_checksums" = false ->
  type_startswith (fs_type it) "application/json" = true ->
  json_loads (fs_value it) = inl e ->
  walk_parts acc (it :: rest) = inl e.
Proof.
  intros Hname Hty Hjson. cbn [walk_parts]. unfold walk_part.
  rewrite Hname, Hty, Hjson. reflexivity.
Qed.

(** C1. A request with a well-formed header whose body has a JSON part
    that [json.loads] rejects makes [on_post] raise: the exception of
    [json.loads] leaves the handler, and no response body is produced.
    The parts before the JSON part are any parts that the walk accepts. *)
Theorem C1_invalid_json_escapes start_time now req self data environ
    before it rest acc e :
  header_ok req = true ->
  payload_source req (default 0%nat (content_length req))
    = Some (data, environ) ->
  FieldStorage data environ = inr (before ++ it :: rest) ->
  walk_parts acc_init before = inr acc ->
  String.eqb (item_name it) "dump_checksums" = false ->
  type_startswith (fs_type it) "application/json" = true ->
  json_loads (fs_value it) = inl e ->
  extract_payload req = inl e
  /\ on_post config start_time now req self = inl e.
Proof.
  intros Hh Hsrc Hfs Hbefore Hname Hty Hjson.
  assert (Hext : extract_payload req = inl e).
  { rewrite (extract_payload_body req data environ Hh Hsrc), Hfs.
    cbn [mbind result_mbind bind].
    rewrite walk_parts_app, Hbefore. cbn [mbind result_mbind bind].
    rewrite (walk_parts_bad_json acc it rest e Hname Hty Hjson).
    reflexivity. }
  split; [exact Hext|]. unfold on_post. rewrite Hext. reflexivity.
Qed.

End Escapes.

Lemma C1_invalid_json_escapes_witness :
  @on_post (Demo.env_of [Demo.json_part "extra" "{"] ACCEPT) default_config
    0%float 0%Z (Demo.post (Demo.b "body")) Demo.idle
  = inl JSONDecodeError.
Proof.
  apply (C1_invalid_json_escapes
           (E := Demo.env_of [Demo.json_part "extra" "{"] ACCEPT)
           default_config 0%float 0%Z (Demo.post (Demo.b "body")) Demo.idle
           (Demo.b "body") ∅ [] (Demo.json_part "extra" "{") [] acc_init
           JSONDecodeError);
    reflexivity.
Defined.

Section Accepted.
Context `{E : Env}.
Variable config : Config.

Lemma on_post_accepted start_time now req self m dmp :
  accepts start_time now req m dmp ->
  exists resp,
    on_post config start_time now req self =
    inr (resp,
         {| crashmover_queue :=
              crashmover_queue self
              ++ [submission config start_time now m
                    (checksum_value <$> dmp) dmp (allocated self)];
            allocated := S (allocated self) |}).
Proof.
  intros (Hext & Hne & Hb & Hrej & Hfake).
  rewrite (on_post_dict config start_time now req self m dmp _
             Hext Hne (checksums_of_bytes dmp Hb)).
  unfold dispatch.
  destruct (throttle_of _); try contradiction; eexists; reflexivity.
Qed.

(** The entries that the stamping writes survive the later writes. *)
Lemma annotated_lookup start_time now (m sums : gmap string pyval) k :
  k <> "type_tag" -> k <> "uuid" -> k <> "throttle_rate" ->
  k <> "legacy_processing" ->
  annotated config start_time now m sums !! k
    = stamp start_time now m sums !! k.
Proof.
  intros H1 H2 H3 H4. unfold annotated, identified, throttled.
  rewrite lookup_insert_ne by congruence.
  destruct (keeps_uuid _);
    repeat (rewrite lookup_insert_ne by congruence); reflexivity.
Qed.

Lemma stamp_minidump_hash start_time now (m sums : gmap string pyval) :
  stamp start_time now m sums !! "MinidumpSha256Hash"
    = Some (default (VStr "") (sums !! "upload_file_minidump")).
Proof. unfold stamp. apply lookup_insert_eq. Qed.

Lemma stamp_dump_checksums start_time now (m sums : gmap string pyval) :
  stamp start_time now m sums !! "dump_checksums" = Some (VDict sums).
Proof.
  unfold stamp. rewrite lookup_insert_ne by discriminate.
  apply lookup_insert_eq.
Qed.

Lemma stamp_timestamp start_time now (m sums : gmap string pyval) :
  stamp start_time now m sums !! "timestamp" = Some (VFloat start_time).
Proof.
  unfold stamp. do 2 rewrite lookup_insert_ne by discriminate.
  apply lookup_insert_eq.
Qed.

Lemma stamp_submitted start_time now (m sums : gmap string pyval) :
  stamp start_time now m sums !! "submitted_timestamp"
    = Some (VStr (isoformat now)).
Proof.
  unfold stamp. do 3 rewrite lookup_insert_ne by discriminate.
  apply lookup_insert_eq.
Qed.

(** C6. The handler fills MinidumpSha256Hash from the dump named
    upload_file_minidump, whatever [dump_field] is configured: with
    another [dump_field], an accepted submission whose main dump is
    present under that name gets an empty MinidumpSha256Hash, while the
    dump's SHA-256 is in dump_checksums under the configured name. *)
Theorem C6_minidump_hash_ignores_dump_field start_time now req self m dmp
    data :
  accepts start_time now req m dmp ->
  dmp !! dump_field config = Some (VBytes data) ->
  dmp !! "upload_file_minidump" = None ->
  exists resp cr ann sums,
    on_post config start_time now req self =
      inr (resp, {| crashmover_queue := crashmover_queue self ++ [cr];
                    allocated := S (allocated self) |})
    /\ raw_crash cr = VDict ann
    /\ ann !! "MinidumpSha256Hash" = Some (VStr "")
    /\ ann !! "dump_checksums" = Some (VDict sums)
    /\ sums !! dump_field config = Some (VStr (sha256_hexdigest data)).
Proof.
  intros Hacc Hmain Hdefault.
  destruct (on_post_accepted start_time now req self m dmp Hacc)
    as (resp & Hpost).
  exists resp,
    (submission config start_time now m (checksum_value <$> dmp) dmp
       (allocated self)),
    (annotated config start_time now m (checksum_value <$> dmp)),
    (checksum_value <$> dmp).
  split; [exact Hpost|]. split; [reflexivity|].
  rewrite !annotated_lookup by discriminate.
  rewrite stamp_minidump_hash, stamp_dump_checksums.
  rewrite !lookup_fmap, Hdefault, Hmain. repeat split; reflexivity.
Qed.

End Accepted.

Lemma C6_minidump_hash_ignores_dump_field_witness :
  exists resp cr ann sums,
    @on_post (Demo.env_of Demo.other_parts ACCEPT) Demo.other_config
      0%float 0%Z (Demo.post (Demo.b "body")) Demo.idle =
      inr (resp, {| crashmover_queue := [cr]; allocated := 1 |})
    /\ raw_crash cr = VDict ann
    /\ ann !! "MinidumpSha256Hash" = Some (VStr "")
    /\ ann !! "dump_checksums" = Some (VDict sums)
    /\ sums !! "upload_file_other" =
       Some (VStr "e9cee71ab932fde863338d08be4de9dfe39ea049bdafb342ce659ec5450b69ae").
Proof.
  apply (C6_minidump_hash_ignores_dump_field
           (E := Demo.env_of Demo.other_parts ACCEPT) Demo.other_config
           0%float 0%Z (Demo.post (Demo.b "body")) Demo.idle
           (<["ProductName" := VStr "Firefox"]> ∅)
           (<["upload_file_other" := VBytes (Demo.b "abcd1234")]> ∅)
           (Demo.b "abcd1234")).
  - split; [vm_compute; reflexivity|].
    split; [apply insert_non_empty|].
    split; [apply map_Forall_insert_2;
              [reflexivity | apply map_Forall_empty]|].
    split; vm_compute; discriminate.
  - vm_compute. reflexivity.
  - vm_compute. reflexivity.
Defined.

Lemma demo_accepts_firefox (start_time : float) (now : Z) :
  @accepts Demo.firefox_env start_time now
    (Demo.post (Demo.b "body")) Demo.firefox_annotations Demo.firefox_dumps.
Proof.
  split; [vm_compute; reflexivity|].
  split; [apply insert_non_empty|].
  split; [apply map_Forall_insert_2; [reflexivity | apply map_Forall_empty]|].
  split; cbv [throttle_of throttle Demo.firefox_env Demo.env_of
                Demo.env_with fst];
    discriminate.
Qed.

(** The demo request is accepted and enqueued, whatever the clock says. *)
Lemma demo_post_firefox (start_time : float) (now : Z) :
  exists resp,
    @on_post Demo.firefox_env default_config start_time now
      (Demo.post (Demo.b "body")) Demo.idle =
      inr (resp,
           {| crashmover_queue :=
                [@submission Demo.firefox_env default_config start_time now
                   Demo.firefox_annotations
                   (@checksum_value Demo.firefox_env <$> Demo.firefox_dumps)
                   Demo.firefox_dumps 0];
              allocated := 1 |}).
Proof.
  exact (on_post_accepted (E := Demo.firefox_env)
           default_config start_time now (Demo.post (Demo.b "body"))
           Demo.idle Demo.firefox_annotations Demo.firefox_dumps
           (demo_accepts_firefox start_time now)).
Qed.

(** C7, as stated, fails: with the handler entered at second 0 and
    [utc_now()] read at second 1, the accepted submission carries a
    submitted_timestamp and a timestamp that denote different moments. *)
Lemma C7_counterexample :
  exists resp cr ann sub ts,
    @on_post Demo.firefox_env default_config
      0%float 1000000%Z (Demo.post (Demo.b "body")) Demo.idle =
      inr (resp, {| crashmover_queue := [cr]; allocated := 1 |})
    /\ raw_crash cr = VDict ann
    /\ ann !! "submitted_timestamp" = Some sub
    /\ ann !! "timestamp" = Some ts
    /\ ~ @same_moment Demo.firefox_env sub ts.
Proof.
  destruct (demo_post_firefox 0%float 1000000%Z) as (resp & Hpost).
  exists resp,
    (@submission Demo.firefox_env default_config 0%float 1000000%Z
       Demo.firefox_annotations (@checksum_value Demo.firefox_env <$> Demo.firefox_dumps)
       Demo.firefox_dumps 0),
    (@annotated Demo.firefox_env default_config 0%float 1000000%Z
       Demo.firefox_annotations (@checksum_value Demo.firefox_env <$> Demo.firefox_dumps)),
    (VStr "1000000"), (VFloat 0%float).
  split; [exact Hpost|]. split; [reflexivity|].
  rewrite !annotated_lookup by discriminate.
  rewrite stamp_submitted, stamp_timestamp.
  split; [reflexivity|]. split; [reflexivity|].
  intros (t & Hiso & Hposix). cbn in t, Hiso, Hposix.
  injection Hiso as Hiso.
  assert (Ht : t = 1000000%Z).
  { apply (inj pretty). rewrite <- Hiso. vm_compute. reflexivity. }
  subst t.
  apply (f_equal (fun v => match v with
                           | VFloat f => PrimFloat.eqb f 0%float
                           | _ => false
                           end)) in Hposix.
  vm_compute in Hposix. discriminate Hposix.
Qed.

Section AnnotationValues.
Context `{E : Env}.
Variable config : Config.

Lemma checksum_values_strings (dmp : gmap string pyval) :
  dumps_are_bytes dmp -> all_strings (checksum_value <$> dmp).
Proof.
  intros Hb k v Hkv. rewrite lookup_fmap in Hkv.
  destruct (dmp !! k) as [d|] eqn:Hd; [|discriminate Hkv].
  injection Hkv as <-. specialize (Hb k d Hd). by destruct d.
Qed.

Lemma annotated_strings start_time now (m sums : gmap string pyval) k v :
  all_strings m -> all_strings sums ->
  annotated config start_time now m sums !! k = Some v ->
  handler_typed_key k = false ->
  is_str v = true.
Proof.
  intros Hm Hsums Hk Hkey. unfold handler_typed_key in Hkey.
  apply orb_false_iff in Hkey as [Hkey Hrate].
  apply orb_false_iff in Hkey as [Hkey Hlegacy].
  apply orb_false_iff in Hkey as [Hts Hsum].
  apply String.eqb_neq in Hrate, Hlegacy, Hts, Hsum.
  assert (Hstamp : forall v', stamp start_time now m sums !! k = Some v' ->
                              is_str v' = true).
  { intros v'. unfold stamp.
    rewrite lookup_insert. case_decide as H1.
    { intros [= <-]. destruct (sums !! _) as [h|] eqn:Hh; [|reflexivity].
      exact (Hsums _ _ Hh). }
    rewrite lookup_insert_ne by congruence.
    rewrite lookup_insert_ne by congruence.
    rewrite lookup_insert. case_decide as H2; [intros [= <-]; reflexivity|].
    apply Hm. }
  assert (Hthr : forall v',
             throttled (stamp start_time now m sums) !! k = Some v' ->
             is_str v' = true).
  { intros v'. unfold throttled.
    rewrite !lookup_insert_ne by congruence. apply Hstamp. }
  revert Hk. unfold annotated, identified.
  rewrite lookup_insert. case_decide as H1; [intros [= <-]; reflexivity|].
  destruct (keeps_uuid _); [apply Hthr|].
  rewrite lookup_insert. case_decide as H2; [intros [= <-]; reflexivity|].
  apply Hthr.
Qed.

End AnnotationValues.

(** C8, as stated, fails: the annotations of the accepted demo submission
    hold a float under timestamp and a mapping under dump_checksums. *)
Lemma C8_counterexample :
  exists resp cr (ann : gmap string pyval) v w,
    @on_post Demo.firefox_env default_config 0%float 0%Z
      (Demo.post (Demo.b "body")) Demo.idle =
      inr (resp, {| crashmover_queue := [cr]; allocated := 1 |})
    /\ raw_crash cr = VDict ann
    /\ ann !! "timestamp" = Some v /\ is_str v = false
    /\ ann !! "dump_checksums" = Some w /\ is_str w = false.
Proof.
  destruct (demo_post_firefox 0%float 0%Z) as (resp & Hpost).
  exists resp,
    (@submission Demo.firefox_env default_config 0%float 0%Z
       Demo.firefox_annotations
       (@checksum_value Demo.firefox_env <$> Demo.firefox_dumps)
       Demo.firefox_dumps 0),
    (@annotated Demo.firefox_env default_config 0%float 0%Z
       Demo.firefox_annotations
       (@checksum_value Demo.firefox_env <$> Demo.firefox_dumps)),
    (VFloat 0%float),
    (VDict (@checksum_value Demo.firefox_env <$> Demo.firefox_dumps)).
  split; [exact Hpost|]. split; [reflexivity|].
  rewrite !annotated_lookup by discriminate.
  rewrite stamp_timestamp, stamp_dump_checksums.
  repeat split; reflexivity.
Qed.

Section PayloadContract.
Context `{E : Env}.

Lemma header_ok_spec req : header_ok req = negb (spec_bad_header req).
Proof.
  unfold header_ok, spec_bad_header, spec_no_content_type,
    spec_wrong_content_type, spec_no_boundary, spec_no_content_length,
    bad_content_type.
  destruct (str_truthy (content_type req)); [|reflexivity].
  cbn [negb orb andb].
  assert (Hlen : (default 0%nat (content_length req) =? 0)%nat
                 = match content_length req with
                   | None | Some O => true
                   | Some _ => false
                   end).
  { destruct (content_length req) as [[|n]|]; reflexivity. }
  rewrite Hlen.
  destruct (split_once ";" (default "" (content_type req)))
    as [|a [|p [|c l]]]; cbn [fmap list_fmap length nth Nat.eqb negb orb].
  all: rewrite ?orb_true_r, ?andb_false_r; cbn [negb orb andb];
    try reflexivity.
  all: destruct (String.eqb _ "multipart/form-data"); cbn [negb orb andb];
    try reflexivity.
  rewrite negb_orb, negb_involutive. reflexivity.
Qed.

Lemma extract_payload_bad_gzip req :
  spec_bad_gzip req = true -> extract_payload req = inr empty_payload.
Proof.
  unfold spec_bad_gzip. intros Hgz.
  apply andb_true_iff in Hgz as [Hgz Hz].
  apply bool_decide_eq_true in Hz.
  destruct (header_ok req) eqn:Hh;
    [|by apply extract_payload_bad_header].
  unfold header_ok in Hh. unfold extract_payload.
  apply andb_true_iff in Hh as [Hh Hlen].
  apply andb_true_iff in Hh as [Hct Hparts].
  rewrite Hct. cbn [negb].
  apply negb_true_iff in Hparts. rewrite Hparts.
  apply negb_true_iff in Hlen. rewrite Hlen.
  unfold payload_source. rewrite Hgz, Hz. reflexivity.
Qed.

Lemma walk_part_flags (it : fs_item) (acc acc' : parts_acc) :
  walk_part acc it = inr acc' ->
  has_json acc' = has_json acc || bool_decide (walk_branch it = JsonBlob)
  /\ has_kvpairs acc'
     = has_kvpairs acc || bool_decide (walk_branch it = KeyValue).
Proof.
  unfold walk_part, walk_branch. intros Ha.
  destruct (String.eqb (item_name it) "dump_checksums").
  { injection Ha as <-. by rewrite !orb_false_r. }
  destruct (type_startswith (fs_type it) "application/json").
  { apply bind_inr in Ha as (v & _ & Hv). injection Hv as <-.
    cbn. split; [by rewrite orb_true_r | by rewrite orb_false_r]. }
  destruct (str_truthy (fs_type it) && _).
  { injection Ha as <-. by rewrite !orb_false_r. }
  apply bind_inr in Ha as (r & _ & Hr). injection Hr as <-.
  cbn. split; [by rewrite orb_false_r | by rewrite orb_true_r].
Qed.

(** The flags record which branches the walk took. *)
Lemma walk_parts_flags (items : list fs_item) (acc acc' : parts_acc) :
  walk_parts acc items = inr acc' ->
  has_json acc' = has_json acc || has_branch JsonBlob items
  /\ has_kvpairs acc' = has_kvpairs acc || has_branch KeyValue items.
Proof.
  revert acc. induction items as [|it items IH]; intros acc Hwalk.
  - injection Hwalk as <-. by rewrite !orb_false_r.
  - cbn [walk_parts] in Hwalk.
    apply bind_inr in Hwalk as (a & Ha & Hrest).
    destruct (IH a Hrest) as [Hj Hk]. rewrite Hj, Hk.
    destruct (walk_part_flags it acc a Ha) as [-> ->].
    unfold has_branch. cbn [existsb]. by rewrite !orb_assoc.
Qed.

(** A walk over parts that are all named dump_checksums returns what it
    started with. *)
Lemma walk_parts_skipped (items : list fs_item) (acc : parts_acc) :
  Forall (fun it => walk_branch it = Skipped) items ->
  walk_parts acc items = inr acc.
Proof.
  induction 1 as [|it items Hit _ IH]; [reflexivity|].
  cbn [walk_parts]. unfold walk_part. unfold walk_branch in Hit.
  destruct (String.eqb (item_name it) "dump_checksums"); [exact IH|].
  destruct (type_startswith (fs_type it) "application/json");
    [discriminate Hit|].
  by destruct (str_truthy (fs_type it) && _).
Qed.

(** C4 (amended). The parser returns the empty pair when the header is
    malformed in one of the listed ways or a gzip body does not
    decompress. Otherwise, for a body that decodes into parts and on
    which the loop over the parts raises nothing, it returns the empty
    pair when the loop met both a JSON part and a key/value part, and
    what the loop accumulated when it did not. The accumulated pair is
    itself the empty pair when no part contributes: there are no parts,
    or every part is named dump_checksums. *)
Theorem C4_payload_contract req :
  (spec_bad_header req || spec_bad_gzip req = true ->
   extract_payload req = inr empty_payload)
  /\ (forall items acc,
        spec_bad_header req = false ->
        body_parts req = Some (inr items) ->
        walk_parts acc_init items = inr acc ->
        extract_payload req =
          inr (if has_branch JsonBlob items && has_branch KeyValue items
               then empty_payload
               else (acc_raw acc, acc_dumps acc)))
  /\ (forall items,
        spec_bad_header req = false ->
        body_parts req = Some (inr items) ->
        Forall (fun it => walk_branch it = Skipped) items ->
        extract_payload req = inr empty_payload).
Proof.
  assert (Hwalked : forall items acc,
             spec_bad_header req = false ->
             body_parts req = Some (inr items) ->
             walk_parts acc_init items = inr acc ->
             extract_payload req =
               inr (if has_branch JsonBlob items
                       && has_branch KeyValue items
                    then empty_payload
                    else (acc_raw acc, acc_dumps acc))).
  2: { split; [|split; [exact Hwalked|]].
       - intros Hbad. apply orb_true_iff in Hbad as [Hbad|Hbad].
         + apply extract_payload_bad_header.
           by rewrite header_ok_spec, Hbad.
         + by apply extract_payload_bad_gzip.
       - intros items Hhead Hbody Hskip.
         rewrite (Hwalked items acc_init Hhead Hbody
                    (walk_parts_skipped items acc_init Hskip)).
         by destruct (has_branch JsonBlob items
                      && has_branch KeyValue items). }
  - intros items acc Hhead Hbody Hwalk. unfold body_parts in Hbody.
    destruct (payload_source req (default 0%nat (content_length req)))
      as [[data environ]|] eqn:Hsrc; [|discriminate Hbody].
    cbn in Hbody. injection Hbody as Hfs.
    rewrite (extract_payload_body req data environ); [|
      by rewrite header_ok_spec, Hhead | exact Hsrc].
    rewrite Hfs. cbn [mbind result_mbind bind]. rewrite Hwalk.
    cbn [mbind result_mbind bind].
    destruct (walk_parts_flags items acc_init acc Hwalk) as [-> ->].
    cbn [acc_init has_json has_kvpairs orb].
    destruct (has_branch JsonBlob items && has_branch KeyValue items);
      reflexivity.
Qed.

End PayloadContract.

Lemma C4_payload_contract_witness :
  @extract_payload Demo.firefox_env (Demo.post (Demo.b "body")) =
    inr (VDict Demo.firefox_annotations, Demo.firefox_dumps).
Proof.
  rewrite (proj1 (proj2 (C4_payload_contract (E := Demo.firefox_env)
                           (Demo.post (Demo.b "body"))))
             Demo.firefox_parts
             {| acc_raw := VDict Demo.firefox_annotations;
                acc_dumps := Demo.firefox_dumps;
                has_json := false; has_kvpairs := true |}).
  - reflexivity.
  - reflexivity.
  - reflexivity.
  - reflexivity.
Defined.

(** C4, as stated, fails: a request that is malformed in none of the
    listed ways, whose only part is named dump_checksums, gets the empty
    pair. *)
Lemma C4_counterexample :
  @extract_payload Demo.checksums_only_env (Demo.post (Demo.b "body"))
    = inr empty_payload
  /\ @spec_malformed Demo.checksums_only_env (Demo.post (Demo.b "body"))
     = false.
Proof. split; vm_compute; reflexivity. Qed.

Section HandlerQueue.
Context `{E : Env}.
Variable config : Config.

(** What a call of the handler does to the resource: nothing, or one new
    report at the tail, in state SAVE with no errors, built as a new
    object. *)
Lemma on_post_resource start_time now req self resp self' :
  on_post config start_time now req self = inr (resp, self') ->
  self' = self
  \/ exists cr,
       self' = {| crashmover_queue := crashmover_queue self ++ [cr];
                  allocated := S (allocated self) |}
       /\ state cr = Some STATE_SAVE
       /\ errors cr = 0
       /\ ident cr = allocated self.
Proof.
  unfold on_post. intros H.
  apply bind_inr in H as ([raw dmp] & _ & H).
  destruct (truthy raw); cbn [negb] in H;
    [|injection H as _ <-; by left].
  apply bind_inr in H as (r1 & _ & H).
  apply bind_inr in H as (r2 & _ & H).
  apply bind_inr in H as (sums & _ & H).
  apply bind_inr in H as (r3 & _ & H).
  apply bind_inr in H as (r4 & _ & H).
  apply bind_inr in H as ([[[res rule] pct] r5] & _ & H).
  apply bind_inr in H as ([cid r6] & _ & H).
  apply bind_inr in H as (r7 & _ & H).
  destruct res; injection H as _ <-; try (by left).
  all: right; eexists; repeat split; reflexivity.
Qed.

End HandlerQueue.

Section SettleLemmas.

Lemma settle_spec cr ok r evs :
  settle cr ok = (r, evs) ->
  errors cr < MAX_ATTEMPTS ->
  (forall e, e ∈ evs -> event_obj e = ident cr /\ is_call e = false)
  /\ (forall cr', r = Some cr' ->
        ident cr' = ident cr
        /\ errors cr' < MAX_ATTEMPTS
        /\ is_Some (state cr')
        /\ ((cr' = set_state cr STATE_PUBLISH
             /\ state cr = Some STATE_SAVE
             /\ Returned STATE_SAVE (ident cr) ∈ evs)
            \/ cr' = incr_errors cr))
  /\ (forall st i, Dropped st i ∈ evs ->
        i = ident cr /\ r = None /\ state cr = Some st).
Proof.
  unfold settle, handle_exception. intros Hs Herr.
  destruct (state cr) as [[|]|] eqn:Hst; destruct ok;
    try destruct (finish_ok cr);
    try destruct (errors (incr_errors cr) <? MAX_ATTEMPTS)%nat eqn:Hlt;
    injection Hs as <- <-.
  all: try apply Nat.ltb_lt in Hlt.
  all: split;
    [intros e He; repeat (apply elem_of_cons in He as [->|He]);
     try (by apply elem_of_nil in He); by split|].
  all: split;
    [|intros st' i Hi; repeat (apply elem_of_cons in Hi as [Hi|Hi]);
      try (by apply elem_of_nil in Hi); try discriminate Hi;
      injection Hi as -> ->; done].
  all: intros cr' [= <-]; cbn [ident errors state set_state incr_errors].
  all: repeat split; try done; try (unfold MAX_ATTEMPTS; lia).
  all: try (by eexists).
  all: try (by right).
  all: try (left; repeat split; set_solver).
  all: try (rewrite Hst; by eexists).
Qed.

Lemma call_event_spec cr e :
  e ∈ call_event cr ->
  exists st, state cr = Some st /\ e = Called st (ident cr).
Proof.
  unfold call_event. destruct (state cr) as [st|]; intros He.
  - apply list_elem_of_singleton in He. eauto.
  - by apply elem_of_nil in He.
Qed.

(** Where an event of an extended log sits. *)
Lemma log_split (l evs pre post : list event) (x : event) :
  l ++ evs = pre ++ x :: post ->
  (exists post', l = pre ++ x :: post')
  \/ (exists pre', pre = l ++ pre' /\ x ∈ evs).
Proof.
  revert pre. induction l as [|a l IH]; intros pre Heq.
  - right. exists pre. split; [reflexivity|].
    cbn in Heq. rewrite Heq. set_solver.
  - destruct pre as [|b pre]; cbn in Heq; injection Heq as -> Heq.
    + left. by exists l.
    + destruct (IH pre Heq) as [(post' & ->)|(pre' & -> & Hx)].
      * left. by exists post'.
      * right. by exists pre'.
Qed.

Lemma same_ident (l : list CrashReport) (x y : CrashReport) :
  NoDup (ident <$> l) -> x ∈ l -> y ∈ l -> ident x = ident y -> x = y.
Proof.
  induction l as [|a l IH]; intros Hnd Hx Hy Hid; [set_solver|].
  cbn in Hnd. apply NoDup_cons in Hnd as [Ha Hnd].
  apply elem_of_cons in Hx as [->|Hx], Hy as [->|Hy]; auto.
  - exfalso. apply Ha. rewrite Hid. by apply list_elem_of_fmap_2.
  - exfalso. apply Ha. rewrite <- Hid. by apply list_elem_of_fmap_2.
Qed.

End SettleLemmas.

Section InvariantSteps.

Lemma invariant_init : invariant init.
Proof.
  constructor; cbn.
  all: try (intros ? H; by apply elem_of_nil in H).
  all: try (intros ? ? H; by apply elem_of_nil in H).
  all: try (intros pre post i H; by destruct pre).
  constructor.
Qed.

(** The handler appends a new report. *)
Lemma invariant_enqueue σ cr :
  invariant σ ->
  state cr = Some STATE_SAVE -> errors cr = 0 ->
  ident cr = allocated (res σ) ->
  invariant
    {| res := {| crashmover_queue := crashmover_queue (res σ) ++ [cr];
                 allocated := S (allocated (res σ)) |};
       held := held σ; log := log σ |}.
Proof.
  intros [Hnd Hal Her Hst Hla Hpub Huns Hord Hdr Hds] Hs He Hi.
  assert (Hlive : forall x,
             x ∈ (crashmover_queue (res σ) ++ [cr]) ++ held σ <->
             x = cr \/ x ∈ live σ).
  { intros x. unfold live. rewrite !elem_of_app, list_elem_of_singleton.
    tauto. }
  assert (Hfresh : ident cr ∉ ident <$> live σ).
  { intros Hin. apply list_elem_of_fmap in Hin as (y & Hy & Hin).
    apply Hal in Hin. lia. }
  constructor; unfold live; cbn [res held log crashmover_queue allocated].
  - rewrite <- (assoc_L (++)), (Permutation_app_comm [cr] (held σ)),
      (assoc_L (++)), fmap_app. cbn [fmap list_fmap].
    apply NoDup_app. split; [exact Hnd|]. split.
    + intros i Hin Hin'. apply list_elem_of_singleton in Hin'. by subst i.
    + apply NoDup_singleton.
  - intros x [->|Hx]%Hlive; [lia|]. apply Hal in Hx. lia.
  - intros x [->|Hx]%Hlive; [unfold MAX_ATTEMPTS; lia|]. by apply Her.
  - intros x [->|Hx]%Hlive; [by eexists|]. by apply Hst.
  - intros e Hin. apply Hla in Hin. lia.
  - intros x [->|Hx]%Hlive Hp; [congruence|]. by apply Hpub.
  - intros x [->|Hx]%Hlive Hp; [|by apply Huns].
    intros Hin. apply Hla in Hin. cbn in Hin. lia.
  - exact Hord.
  - intros st i Hin Hin'. apply list_elem_of_fmap in Hin' as (y & -> & Hy).
    apply Hlive in Hy as [->|Hy].
    + apply Hla in Hin. cbn in Hin. lia.
    + apply (Hdr st _ Hin). by apply list_elem_of_fmap_2.
  - exact Hds.
Qed.

(** A worker pops the head and enters the backend call. *)
Lemma invariant_pop σ cr rest :
  invariant σ ->
  crashmover_queue (res σ) = cr :: rest ->
  invariant
    {| res := {| crashmover_queue := rest;
                 allocated := allocated (res σ) |};
       held := held σ ++ [cr]; log := log σ ++ call_event cr |}.
Proof.
  intros [Hnd Hal Her Hst Hla Hpub Huns Hord Hdr Hds] Hq.
  assert (Hperm : rest ++ held σ ++ [cr] ≡ₚ live σ).
  { unfold live. rewrite Hq, (assoc_L (++)), <- Permutation_cons_append.
    reflexivity. }
  assert (Hlive : forall x, x ∈ rest ++ held σ ++ [cr] <-> x ∈ live σ).
  { intros x. by rewrite Hperm. }
  assert (Hcr : cr ∈ live σ).
  { unfold live. rewrite Hq. apply elem_of_app. left. apply elem_of_cons.
    by left. }
  constructor; unfold live; cbn [res held log crashmover_queue allocated].
  - by rewrite Hperm.
  - intros x Hx%Hlive. by apply Hal.
  - intros x Hx%Hlive. by apply Her.
  - intros x Hx%Hlive. by apply Hst.
  - intros e [He|He]%elem_of_app; [by apply Hla|].
    apply call_event_spec in He as (st & _ & ->). cbn. by apply Hal.
  - intros x Hx%Hlive Hp. apply elem_of_app. left. by apply Hpub.
  - intros x Hx%Hlive Hp [Hin|Hin]%elem_of_app; [by apply (Huns x)|].
    apply call_event_spec in Hin as (st & Hstate & [= <- Hid]).
    assert (x = cr) by (by apply (same_ident (live σ))).
    congruence.
  - intros pre post i Heq.
    apply log_split in Heq as [(post' & Heq)|(pre' & -> & Hin)].
    + by apply (Hord pre post' i).
    + apply call_event_spec in Hin as (st & Hstate & [= <- ->]).
      apply elem_of_app. left. by apply Hpub.
  - intros st i [Hin|Hin]%elem_of_app.
    + rewrite Hperm. by apply (Hdr st).
    + apply call_event_spec in Hin as (st' & _ & [=]).
  - intros i [Hin|Hin]%elem_of_app.
    + intros [Hin'|Hin']%elem_of_app; [by apply (Hds i)|].
      apply call_event_spec in Hin' as (st & _ & [= _ ->]).
      apply (Hdr _ _ Hin). by apply list_elem_of_fmap_2.
    + apply call_event_spec in Hin as (st & _ & [=]).
Qed.

(** A worker is through with the report it holds. *)
Lemma invariant_settle σ h1 cr h2 ok :
  invariant σ ->
  held σ = h1 ++ cr :: h2 ->
  invariant
    {| res := {| crashmover_queue :=
                   crashmover_queue (res σ)
                   ++ option_list (settle cr ok).1;
                 allocated := allocated (res σ) |};
       held := h1 ++ h2; log := log σ ++ (settle cr ok).2 |}.
Proof.
  intros [Hnd Hal Her Hst Hla Hpub Huns Hord Hdr Hds] Hh.
  set (base := crashmover_queue (res σ) ++ h1 ++ h2).
  assert (HpermA : live σ ≡ₚ cr :: base).
  { unfold live, base. rewrite Hh, (assoc_L (++)).
    rewrite <- Permutation_middle. by rewrite <- (assoc_L (++)). }
  assert (Hcr : cr ∈ live σ).
  { rewrite HpermA. apply elem_of_cons. by left. }
  assert (Hbase : forall x, x ∈ base -> x ∈ live σ).
  { intros x Hx. rewrite HpermA. apply elem_of_cons. by right. }
  rewrite HpermA in Hnd. cbn in Hnd. apply NoDup_cons in Hnd as [Hcrb Hndb].
  destruct (settle cr ok) as [r evs] eqn:Hs.
  apply settle_spec in Hs as (Hev & Hr & Hdrop); [|by apply Her].
  cbn [fst snd].
  assert (HpermB : (crashmover_queue (res σ) ++ option_list r) ++ h1 ++ h2
                   ≡ₚ option_list r ++ base).
  { unfold base.
    rewrite (Permutation_app_comm (crashmover_queue (res σ))
               (option_list r)).
    by rewrite <- (assoc_L (++)). }
  assert (Hlive : forall x,
             x ∈ (crashmover_queue (res σ) ++ option_list r) ++ h1 ++ h2 ->
             r = Some x \/ x ∈ base).
  { intros x. rewrite HpermB. intros [Hx|Hx]%elem_of_app; [|by right].
    left. destruct r as [y|]; cbn in Hx.
    - apply list_elem_of_singleton in Hx. by subst.
    - by apply elem_of_nil in Hx. }
  constructor; unfold live; cbn [res held log crashmover_queue allocated].
  - rewrite HpermB. destruct r as [cr'|]; cbn; [|exact Hndb].
    destruct (Hr cr' eq_refl) as (Hid & _). rewrite Hid.
    by apply NoDup_cons.
  - intros x [Hx|Hx]%Hlive; [|by apply Hal, Hbase].
    destruct (Hr x Hx) as (Hid & _). rewrite Hid. by apply Hal.
  - intros x [Hx|Hx]%Hlive; [|by apply Her, Hbase].
    by destruct (Hr x Hx) as (_ & Hlt & _).
  - intros x [Hx|Hx]%Hlive; [|by apply Hst, Hbase].
    by destruct (Hr x Hx) as (_ & _ & Hsome & _).
  - intros e [He|He]%elem_of_app; [by apply Hla|].
    destruct (Hev e He) as [-> _]. by apply Hal.
  - intros x [Hx|Hx]%Hlive Hp; apply elem_of_app.
    + destruct (Hr x Hx) as (Hid & _ & _ & [(-> & _ & Hret)| ->]).
      * right. exact Hret.
      * left. apply (Hpub cr Hcr Hp).
    + left. apply (Hpub x (Hbase x Hx) Hp).
  - intros x Hx%Hlive Hp [Hin|Hin]%elem_of_app.
    + destruct Hx as [Hx|Hx]; [|by apply (Huns x (Hbase x Hx) Hp)].
      destruct (Hr x Hx) as (Hid & _ & _ & [(-> & _)| ->]);
        [discriminate Hp|].
      by apply (Huns cr Hcr Hp).
    + by destruct (Hev _ Hin) as [_ Hcall].
  - intros pre post i Heq.
    apply log_split in Heq as [(post' & Heq)|(pre' & -> & Hin)].
    + by apply (Hord pre post' i).
    + by destruct (Hev _ Hin) as [_ Hcall].
  - intros st i [Hin|Hin]%elem_of_app.
    + intros (y & -> & Hy)%list_elem_of_fmap. apply (Hdr st _ Hin).
      apply Hlive in Hy as [Hy|Hy].
      * destruct (Hr y Hy) as (-> & _). by apply list_elem_of_fmap_2.
      * by apply list_elem_of_fmap_2, Hbase.
    + destruct (Hdrop st i Hin) as (-> & -> & _). by rewrite HpermB.
  - intros i [Hin|Hin]%elem_of_app.
    + intros [Hin'|Hin']%elem_of_app; [by apply (Hds i)|].
      by destruct (Hev _ Hin') as [_ Hcall].
    + destruct (Hdrop _ i Hin) as (-> & -> & Hsave).
      intros [Hin'|Hin']%elem_of_app; [by apply (Huns cr Hcr Hsave)|].
      by destruct (Hev _ Hin') as [_ Hcall].
Qed.

End InvariantSteps.

Section Reachable.
Context `{E : Env}.
Variable config : Config.

Lemma step_invariant σ σ' :
  step config σ σ' -> invariant σ -> invariant σ'.
Proof.
  intros Hstep Hinv. destruct Hstep as [σ t now req resp res' Hpost| |].
  - apply on_post_resource in Hpost as [->|(cr & -> & Hs & He & Hi)].
    + by destruct σ.
    + by apply invariant_enqueue.
  - by apply invariant_pop.
  - by apply invariant_settle.
Qed.

Lemma reachable_invariant σ : reachable config σ -> invariant σ.
Proof.
  unfold reachable. revert σ.
  apply (rtc_ind_r (fun σ => invariant σ) init); [apply invariant_init|].
  intros σ σ' _ Hstep Hinv. by apply (step_invariant σ σ').
Qed.

Lemma settle_live_before σ h1 cr h2 :
  held σ = h1 ++ cr :: h2 ->
  cr ∈ live σ
  /\ forall x, x ∈ crashmover_queue (res σ) ++ h1 ++ h2 -> x ∈ live σ.
Proof.
  intros Hh. unfold live. rewrite Hh. split.
  - rewrite !elem_of_app, elem_of_cons. auto.
  - intros x. rewrite !elem_of_app, elem_of_cons. tauto.
Qed.

Lemma settle_live_after (q h1 h2 : list CrashReport) r x :
  x ∈ (q ++ option_list r) ++ h1 ++ h2 ->
  r = Some x \/ x ∈ q ++ h1 ++ h2.
Proof.
  rewrite !elem_of_app. intros [[Hx|Hx]|[Hx|Hx]]; auto.
  left. destruct r as [y|]; cbn in Hx.
  - apply list_elem_of_singleton in Hx. by subst.
  - by apply elem_of_nil in Hx.
Qed.

(** A report whose state changes in a step has no errors after it. *)
Lemma step_transition σ σ' cr cr' :
  invariant σ -> step config σ σ' ->
  cr ∈ live σ -> cr' ∈ live σ' ->
  ident cr = ident cr' -> state cr <> state cr' ->
  errors cr' = 0.
Proof.
  intros Hinv Hstep Hcr Hcr' Hid Hne.
  assert (Hsame : cr' ∈ live σ -> errors cr' = 0).
  { intros Hin. contradict Hne. f_equal.
    by apply (same_ident (live σ)); [apply Hinv|..]. }
  destruct Hstep as [σ t now req resp res' Hpost|σ c rest Hq Hpool
                    |σ h1 c h2 ok Hh].
  - apply on_post_resource in Hpost as [->|(new & -> & Hs & He & Hi)];
      [by apply Hsame|].
    unfold live in Hcr'. cbn in Hcr'.
    rewrite !elem_of_app, list_elem_of_singleton in Hcr'.
    destruct Hcr' as [[Hin| ->]|Hin]; [|exact He|].
    all: apply Hsame; unfold live; rewrite elem_of_app; auto.
  - apply Hsame. unfold live in *. cbn in Hcr'. rewrite Hq.
    rewrite !elem_of_app, list_elem_of_singleton in Hcr'.
    rewrite elem_of_app, elem_of_cons. tauto.
  - destruct (settle_live_before σ h1 c h2 Hh) as [Hc Hbase].
    unfold live in Hcr'. cbn in Hcr'.
    apply settle_live_after in Hcr' as [Hr|Hin]; [|by apply Hsame, Hbase].
    destruct (settle c ok) as [r evs] eqn:Hs. cbn in Hr.
    apply settle_spec in Hs as (_ & Hspec & _);
      [|by apply (inv_errors σ Hinv)].
    destruct (Hspec cr' Hr) as (Hidc & _ & _ & [(-> & _)| ->]);
      [reflexivity|].
    contradict Hne.
    assert (cr = c); [|by subst].
    apply (same_ident (live σ)); [apply Hinv|done..|congruence].
Qed.

(** C9. Errors are reset to 0 on every state transition, every
    submission in the queue has fewer than MAX_ATTEMPTS errors, and a
    submission whose errors reach MAX_ATTEMPTS is dropped and not
    re-enqueued (a dropped submission is nowhere in the system
    afterwards); this holds in every state that handler and worker steps
    reach from the empty queue, and across every step. *)
Theorem C9_errors_below_ceiling σ σ' :
  reachable config σ ->
  step config σ σ' ->
  (forall cr, cr ∈ crashmover_queue (res σ) -> errors cr < MAX_ATTEMPTS)
  /\ (forall cr, cr ∈ crashmover_queue (res σ') ->
                 errors cr < MAX_ATTEMPTS)
  /\ (forall cr st, errors (set_state cr st) = 0)
  /\ (forall cr cr',
        cr ∈ live σ -> cr' ∈ live σ' -> ident cr = ident cr' ->
        state cr <> state cr' -> errors cr' = 0)
  /\ (forall cr ok cr',
        cr ∈ held σ -> (settle cr ok).1 = Some cr' ->
        errors cr' < MAX_ATTEMPTS)
  /\ (forall cr st,
        cr ∈ held σ -> state cr = Some st ->
        MAX_ATTEMPTS <= S (errors cr) ->
        settle cr false =
          (None, [Excepted st (ident cr); Dropped st (ident cr)]))
  /\ (forall st i cr,
        Dropped st i ∈ log σ' -> cr ∈ live σ' -> ident cr <> i).
Proof.
  intros Hreach Hstep.
  pose proof (reachable_invariant σ Hreach) as Hinv.
  pose proof (step_invariant σ σ' Hstep Hinv) as Hinv'.
  split; [|split; [|split; [|split; [|split; [|split]]]]].
  7: { intros st i cr Hd Hcr <-. apply (inv_dropped σ' Hinv' st _ Hd).
       by apply list_elem_of_fmap_2. }
  - intros cr Hcr. apply (inv_errors σ Hinv). unfold live.
    apply elem_of_app. by left.
  - intros cr Hcr. apply (inv_errors σ' Hinv'). unfold live.
    apply elem_of_app. by left.
  - reflexivity.
  - intros cr cr'. by apply step_transition.
  - intros cr ok cr' Hcr Hs.
    destruct (settle cr ok) as [r evs] eqn:Hsettle. cbn in Hs. subst r.
    apply settle_spec in Hsettle as (_ & Hspec & _).
    + by destruct (Hspec cr' eq_refl) as (_ & Hlt & _).
    + apply (inv_errors σ Hinv). unfold live. apply elem_of_app. by right.
  - intros cr st Hcr Hst Hmax. unfold settle, handle_exception.
    rewrite Hst.
    assert (Hlt : (errors (incr_errors cr) <? MAX_ATTEMPTS)%nat = false).
    { apply Nat.ltb_ge. cbn. exact Hmax. }
    destruct st; rewrite Hlt; reflexivity.
Qed.

End Reachable.

Lemma demo_reach_posted :
  @reachable Demo.firefox_env default_config Demo.posted.
Proof.
  destruct (demo_post_firefox 0%float 0%Z) as (resp & Hpost).
  eapply rtc_l; [|apply rtc_refl].
  exact (step_post (E := Demo.firefox_env) default_config init 0%float 0%Z
           (Demo.post (Demo.b "body")) resp _ Hpost).
Qed.

Lemma demo_step_pop :
  @step Demo.firefox_env default_config Demo.posted
    {| res := {| crashmover_queue := []; allocated := 1 |};
       held := [Demo.firefox_report]; log := [Called STATE_SAVE 0] |}.
Proof.
  apply (step_pop (E := Demo.firefox_env) default_config Demo.posted
           Demo.firefox_report []); [reflexivity | cbn; lia].
Qed.

Lemma demo_reach_publishing :
  @reachable Demo.firefox_env default_config Demo.publishing.
Proof.
  eapply rtc_r; [eapply rtc_r; [eapply rtc_r; [apply demo_reach_posted|]|]|].
  - apply demo_step_pop.
  - exact (step_settle (E := Demo.firefox_env) default_config
             {| res := {| crashmover_queue := []; allocated := 1 |};
                held := [Demo.firefox_report];
                log := [Called STATE_SAVE 0] |}
             [] Demo.firefox_report [] true eq_refl).
  - refine (step_pop (E := Demo.firefox_env) default_config
              {| res := {| crashmover_queue :=
                             [set_state Demo.firefox_report STATE_PUBLISH];
                           allocated := 1 |};
                 held := [];
                 log := [Called STATE_SAVE 0; Returned STATE_SAVE 0] |}
              (set_state Demo.firefox_report STATE_PUBLISH) [] eq_refl _).
    cbn. lia.
Qed.

Lemma C9_errors_below_ceiling_witness :
  errors Demo.firefox_report < MAX_ATTEMPTS.
Proof.
  apply (proj1 (C9_errors_below_ceiling (E := Demo.firefox_env)
                  default_config Demo.posted _ demo_reach_posted
                  demo_step_pop)).
  cbn. apply list_elem_of_singleton. reflexivity.
Defined.

Section PublishAfterSave.
Context `{E : Env}.
Variable config : Config.

(** C3. In every reachable state, each call of [publish_crash] for a
    submission comes after a call of [save_crash] for it has returned
    (each submission is enqueued in state SAVE, and a submission in state
    PUBLISH has a returned save behind it); and a submission dropped in
    state SAVE has no call of [publish_crash] at all. *)
Theorem C3_publish_after_save σ :
  reachable config σ ->
  (forall pre post i,
     log σ = pre ++ Called STATE_PUBLISH i :: post ->
     Returned STATE_SAVE i ∈ pre)
  /\ (forall i, Dropped STATE_SAVE i ∈ log σ ->
                Called STATE_PUBLISH i ∉ log σ)
  /\ (forall cr, cr ∈ live σ -> state cr = Some STATE_PUBLISH ->
                 Returned STATE_SAVE (ident cr) ∈ log σ)
  /\ (forall start_time now req resp res' cr,
        on_post config start_time now req (res σ) = inr (resp, res') ->
        cr ∈ crashmover_queue res' ->
        cr ∈ crashmover_queue (res σ) \/ state cr = Some STATE_SAVE).
Proof.
  intros Hreach. pose proof (reachable_invariant config σ Hreach) as Hinv.
  split; [exact (inv_order σ Hinv)|].
  split; [exact (inv_dropped_save σ Hinv)|].
  split; [exact (inv_published σ Hinv)|].
  intros t now req resp res' cr Hpost Hcr.
  apply on_post_resource in Hpost as [->|(new & -> & Hs & _)];
    [by left|].
  cbn in Hcr. apply elem_of_app in Hcr as [Hcr|Hcr]; [by left|].
  apply list_elem_of_singleton in Hcr. subst. by right.
Qed.

End PublishAfterSave.

Lemma C3_publish_after_save_witness :
  Returned STATE_SAVE 0 ∈ [Called STATE_SAVE 0; Returned STATE_SAVE 0].
Proof.
  exact (proj1 (C3_publish_after_save (E := Demo.firefox_env) default_config
                  Demo.publishing demo_reach_publishing)
           [Called STATE_SAVE 0; Returned STATE_SAVE 0] [] 0 eq_refl).
Defined.

Section RetryCeiling.
Context `{B : Backend}.

(** C2. When the save or publish attempt for a dequeued submission
    raises, the worker increments errors; if the new count is below
    MAX_ATTEMPTS = 20 the submission goes back to the tail with its state
    unchanged, otherwise it is dropped and not enqueued again. A returned
    save moves the submission to PUBLISH with errors 0, so the ceiling
    counts per state: one submission can raise in save 19 times, be
    saved at the 20th attempt and then raise in publish 20 times before
    it is dropped, and it is dropped in SAVE when the 20th save raises. *)
Theorem C2_retry_ceiling cr rest bs bs' st :
  state cr = Some st ->
  run_call cr bs = (false, bs') ->
  MAX_ATTEMPTS = 20
  /\ errors (incr_errors cr) = S (errors cr)
  /\ state (incr_errors cr) = Some st
  /\ (S (errors cr) < MAX_ATTEMPTS ->
      crashmover_iteration (cr :: rest) bs =
        Some (rest ++ [incr_errors cr], bs',
              [Called st (ident cr); Excepted st (ident cr)]))
  /\ (MAX_ATTEMPTS <= S (errors cr) ->
      crashmover_iteration (cr :: rest) bs =
        Some (rest, bs',
              [Called st (ident cr); Excepted st (ident cr);
               Dropped st (ident cr)]))
  /\ (forall c q bs1 bs2,
        state c = Some STATE_SAVE ->
        run_call c bs1 = (true, bs2) ->
        crashmover_iteration (c :: q) bs1 =
          Some (q ++ [set_state c STATE_PUBLISH], bs2,
                [Called STATE_SAVE (ident c); Returned STATE_SAVE (ident c)])
        /\ errors (set_state c STATE_PUBLISH) = 0)
  /\ (forall c,
        state c = Some STATE_SAVE -> errors c = 0 ->
        (exists evs,
           crashmover_process_queue (B := scripted) 20 [c] save_always_fails
             = Some ([], [], evs)
           /\ count_calls STATE_SAVE evs = 20
           /\ count_calls STATE_PUBLISH evs = 0
           /\ last evs = Some (Dropped STATE_SAVE (ident c)))
        /\ (exists evs,
              crashmover_process_queue (B := scripted) 40 [c]
                save_late_publish_fails = Some ([], [], evs)
              /\ count_calls STATE_SAVE evs = 20
              /\ count_calls STATE_PUBLISH evs = 20
              /\ last evs = Some (Dropped STATE_PUBLISH (ident c)))).
Proof.
  intros Hst Hcall.
  split; [reflexivity|]. split; [reflexivity|].
  split; [exact Hst|].
  split; [|split; [|split]].
  - intros Hlt. unfold crashmover_iteration. rewrite Hcall.
    unfold settle, handle_exception, call_event. rewrite Hst.
    apply Nat.ltb_lt in Hlt. cbn [errors incr_errors ident].
    destruct st; rewrite Hlt; reflexivity.
  - intros Hge. unfold crashmover_iteration. rewrite Hcall.
    unfold settle, handle_exception, call_event. rewrite Hst.
    apply Nat.ltb_ge in Hge. cbn [errors incr_errors ident].
    destruct st; rewrite Hge; cbn; by rewrite app_nil_r.
  - intros c q bs1 bs2 Hc Hok. split; [|reflexivity].
    unfold crashmover_iteration. rewrite Hok.
    unfold settle, call_event. rewrite Hc. reflexivity.
  - intros [raw dmp cid n s i] Hc He. cbn in Hc, He. subst s n.
    split; eexists; (split; [vm_compute; reflexivity|]);
      repeat split; vm_compute; reflexivity.
Qed.

End RetryCeiling.

Lemma C2_retry_ceiling_witness :
  crashmover_iteration (B := scripted) [Demo.fresh_report] [false] =
    Some ([incr_errors Demo.fresh_report], [],
          [Called STATE_SAVE 7; Excepted STATE_SAVE 7]).
Proof.
  apply (C2_retry_ceiling (B := scripted) Demo.fresh_report [] [false] []
           STATE_SAVE eq_refl eq_refl).
  cbn. unfold MAX_ATTEMPTS. lia.
Defined.

(** ** The worker loop ends *)

Section Termination.
Context `{B : Backend}.

Lemma settle_passes cr ok :
  queue_passes (option_list (settle cr ok).1) < passes_left cr.
Proof.
  unfold settle, handle_exception, queue_passes, passes_left.
  destruct (state cr) as [[|]|] eqn:Hst; destruct ok;
    try destruct (finish_ok cr);
    try destruct (errors (incr_errors cr) <? MAX_ATTEMPTS)%nat eqn:Hlt;
    cbn [fst option_list sum_list_with state set_state incr_errors
         errors];
    rewrite ?Hst; try apply Nat.ltb_lt in Hlt; cbn in *;
    unfold MAX_ATTEMPTS in *; rewrite ?Hst; lia.
Qed.

Lemma crashmover_iteration_passes q bs q' bs' evs :
  crashmover_iteration q bs = Some (q', bs', evs) ->
  queue_passes q' < queue_passes q.
Proof.
  destruct q as [|cr rest]; [discriminate|]. cbn [crashmover_iteration].
  destruct (run_call cr bs) as [ok bs1].
  pose proof (settle_passes cr ok) as Hlt.
  destruct (settle cr ok) as [again evs1]. intros [= <- _ _].
  unfold queue_passes in *. rewrite sum_list_with_app.
  cbn [sum_list_with fst] in *. lia.
Qed.

(** X10. With enough passes allowed, [crashmover_process_queue] returns,
    and it returns with the queue empty. *)
Lemma crashmover_process_queue_ends fuel q bs :
  queue_passes q <= fuel ->
  exists bs' evs, crashmover_process_queue fuel q bs = Some ([], bs', evs).
Proof.
  revert q bs. induction fuel as [|fuel IH]; intros q bs Hfuel.
  - destruct q as [|cr rest]; [by eexists _, _|].
    exfalso. unfold queue_passes, passes_left in Hfuel. cbn in Hfuel.
    destruct (state cr) as [[|]|]; lia.
  - cbn [crashmover_process_queue].
    destruct (crashmover_iteration q bs) as [[[q' bs'] evs]|] eqn:Hit.
    + apply crashmover_iteration_passes in Hit.
      destruct (IH q' bs') as (bs'' & evs' & ->); [lia|].
      by eexists _, _.
    + destruct q; [by eexists _, _|].
      cbn in Hit. by destruct (run_call _ _), (settle _ _).
Qed.

End Termination.

(** ** Other ways out of the handlers *)

Section MoreEscapes.
Context `{E : Env}.
Variable config : Config.

(** A JSON part that holds a non-empty value other than an object makes
    the first item assignment of [on_post] raise. *)
Lemma on_post_non_dict_escapes start_time now req self raw dmp :
  extract_payload req = inr (raw, dmp) ->
  truthy raw = true ->
  (forall m, raw <> VDict m) ->
  on_post config start_time now req self = inl TypeError.
Proof.
  intros Hext Ht Hnd. unfold on_post. rewrite Hext.
  cbn [mbind result_mbind bind]. rewrite Ht. cbn [negb].
  destruct raw; try reflexivity. by destruct (Hnd m).
Qed.

(** A dump whose value is a [str] makes the checksum step raise. *)
Lemma on_post_text_dump_escapes start_time now req self m dmp :
  extract_payload req = inr (VDict m, dmp) ->
  m <> ∅ ->
  ~ dumps_are_bytes dmp ->
  on_post config start_time now req self = inl TypeError.
Proof.
  intros Hext Hne Hnb.
  assert (Ht : truthy (VDict m) = true).
  { destruct (truthy (VDict m)) eqn:Ht; [reflexivity|].
    apply truthy_dict_empty in Ht. contradiction. }
  unfold on_post. rewrite Hext. cbn [mbind result_mbind bind].
  rewrite Ht. cbn [negb setitem mbind result_mbind bind ret].
  rewrite checksums_of_not_bytes; [reflexivity|].
  apply map_not_Forall in Hnb as (k & v & Hkv & Hv); [|apply _].
  apply Exists_exists. exists (k, v). split.
  - by apply elem_of_map_to_list.
  - cbn. by destruct (is_bytes v).
Qed.

(** C5. A parsed submission is not always dispatched. When the parser
    returns a non-empty annotations mapping together with a dump that is
    not a byte string (the loop stores every part whose media type begins
    with application/octet-stream as a dump, also when its value is
    text), the checksum step of [on_post] raises TypeError: whatever the
    throttler would answer, no body is set and nothing is enqueued. *)
Theorem C5_text_dump_not_dispatched start_time now req self
    (m dmp : gmap string pyval) name v :
  extract_payload req = inr (VDict m, dmp) ->
  m <> ∅ ->
  dmp !! name = Some v ->
  is_bytes v = false ->
  on_post config start_time now req self = inl TypeError
  /\ forall resp self',
       on_post config start_time now req self <> inr (resp, self').
Proof.
  intros Hext Hne Hv Hnb.
  assert (Hraise : on_post config start_time now req self = inl TypeError).
  { apply (on_post_text_dump_escapes start_time now req self m dmp Hext Hne).
    intros Hb. specialize (Hb name v Hv). cbn in Hb. congruence. }
  split; [exact Hraise|]. intros resp self'. by rewrite Hraise.
Qed.

End MoreEscapes.

Lemma C5_text_dump_not_dispatched_witness :
  @extract_payload (Demo.env_of Demo.text_dump_parts ACCEPT)
    (Demo.post (Demo.b "body")) =
    inr (VDict (<["ProductName" := VStr "Firefox"]> ∅),
         <["upload_file_minidump" := VStr "abcd1234"]> ∅)
  /\ @on_post (Demo.env_of Demo.text_dump_parts ACCEPT) default_config
       0%float 0%Z (Demo.post (Demo.b "body")) Demo.idle = inl TypeError.
Proof.
  assert (Hext : @extract_payload (Demo.env_of Demo.text_dump_parts ACCEPT)
                   (Demo.post (Demo.b "body")) =
                 inr (VDict (<["ProductName" := VStr "Firefox"]> ∅),
                      <["upload_file_minidump" := VStr "abcd1234"]> ∅))
    by (vm_compute; reflexivity).
  split; [exact Hext|].
  refine (proj1 (C5_text_dump_not_dispatched
                   (E := Demo.env_of Demo.text_dump_parts ACCEPT)
                   default_config 0%float 0%Z (Demo.post (Demo.b "body"))
                   Demo.idle _ _ "upload_file_minidump" (VStr "abcd1234")
                   Hext _ _ _)).
  - apply insert_non_empty.
  - apply lookup_insert_eq.
  - reflexivity.
Defined.

Section AppEscapes.
Context `{X : App.Extras}.
Variable config : Config.

(** In [app.py] a gzip-encoded body that does not decompress makes the
    handler raise [zlib.error]. *)
Lemma app_bad_gzip_escapes now timestamp req len :
  is_gzip req = true ->
  App.py_int (default (VInt 0) (env req !! "CONTENT_LENGTH")) = inr len ->
  zlib_decompress (App.read (stream req) len) = None ->
  App.on_post config now timestamp req = inl ZlibError.
Proof.
  intros Hgz Hlen Hz. unfold App.on_post, App.extract_payload.
  rewrite Hgz, Hlen. cbn [mbind result_mbind bind]. rewrite Hz.
  reflexivity.
Qed.

End AppEscapes.

(** ** Examples *)

Example app_junk_gzip_raises :
  @App.on_post _ Demo.app_extras default_config 0%Z 0%float
    Demo.junk_gzip_post = inl ZlibError.
Proof.
  apply (app_bad_gzip_escapes (X := Demo.app_extras) default_config 0%Z
           0%float Demo.junk_gzip_post 4%Z); reflexivity.
Qed.

Example app_post_accepted :
  @App.on_post _ Demo.app_extras default_config 0%Z 0%float
    (Demo.post (Demo.b "body")) =
  inr {| status := HTTP_200; resp_content_type := "text/plain";
         body := "CrashID=bp-de1bb258-cbbf-4589-a673-34f800160918" +:+ newline |}.
Proof. vm_compute. reflexivity. Qed.

(** The same junk body is discarded by [breakpad_resource.py]. *)
Example junk_gzip_discarded :
  @on_post Demo.firefox_env default_config 0%float 0%Z Demo.junk_gzip_post
    Demo.idle = inr (discarded, Demo.idle).
Proof. vm_compute. reflexivity. Qed.

Example json_list_raises :
  @on_post (Demo.env_of [Demo.json_part "extra" "[1]"] ACCEPT) default_config
    0%float 0%Z (Demo.post (Demo.b "body")) Demo.idle = inl TypeError.
Proof. vm_compute. reflexivity. Qed.

Example json_object_accepted :
  fst <$> @on_post
            (Demo.env_of [Demo.json_part "extra" Demo.firefox_json;
                          Demo.dump_part "upload_file_minidump"
                            (Demo.b "abcd1234")] ACCEPT)
            default_config 0%float 0%Z (Demo.post (Demo.b "body")) Demo.idle
  = inr {| status := HTTP_200; resp_content_type := "text/plain";
           body := "CrashID=bp-de1bb258-cbbf-4589-a673-34f800160918"
                   +:+ newline |}.
Proof. vm_compute. reflexivity. Qed.

Example json_and_kv_discarded :
  @on_post (Demo.env_of [Demo.json_part "extra" Demo.firefox_json;
                         Demo.text_part "Version" "1.0"] ACCEPT)
    default_config 0%float 0%Z (Demo.post (Demo.b "body")) Demo.idle
  = inr (discarded, Demo.idle).
Proof. vm_compute. reflexivity. Qed.

Example reject_discarded :
  @on_post (Demo.env_of Demo.firefox_parts REJECT) default_config 0%float 0%Z
    (Demo.post (Demo.b "body")) Demo.idle
  = inr (discarded, Demo.idle).
Proof. vm_compute. reflexivity. Qed.

Example wrong_content_type_discarded :
  @on_post Demo.firefox_env default_config 0%float 0%Z
    {| content_type := Some "application/json"; content_length := Some 4;
       env := ∅; stream := Demo.b "body" |} Demo.idle
  = inr (discarded, Demo.idle).
Proof. vm_compute. reflexivity. Qed.

Example truthy_empty_dict : truthy (VDict ∅) = false.
Proof. reflexivity. Qed.

Example truthy_dict : truthy (VDict {["a" := VStr "b"]}) = true.
Proof. vm_compute. reflexivity. Qed.

Example strip_example : strip "  boundary=xx " = "boundary=xx".
Proof. reflexivity. Qed.

Example strip_inner_example : strip " a b " = "a b".
Proof. reflexivity. Qed.

Example strip_dash_example : strip_dash "bp-" = "bp".
Proof. reflexivity. Qed.

Example split_once_example :
  split_once ";" "multipart/form-data; boundary=x; y" =
  ["multipart/form-data"; " boundary=x; y"].
Proof. reflexivity. Qed.

Example split_once_none : split_once ";" "text/plain" = ["text/plain"].
Proof. reflexivity. Qed.

Example demo_on_post_body :
  fst <$> @on_post (Demo.env_with (fun _ => ret Demo.firefox_parts) ACCEPT)
            default_config 0%float 0%Z (Demo.post (Demo.b "body")) Demo.idle
  = ret {| status := HTTP_200; resp_content_type := "text/plain";
           body := "CrashID=bp-de1bb258-cbbf-4589-a673-34f800160918" +:+ newline |}.
Proof. vm_compute. reflexivity. Qed.

(** * Further properties of the handler *)

Section HandlerCases.
Context `{E : Env}.
Variable config : Config.

Lemma checksums_of_inr (l : list (string * pyval)) sums :
  checksums_of l = inr sums -> Forall (fun kv => is_bytes kv.2 = true) l.
Proof.
  revert sums. induction l as [|[k v] l IH]; intros sums Hs; [constructor|].
  cbn [checksums_of] in Hs.
  apply bind_inr in Hs as (h & Hh & Hs).
  apply bind_inr in Hs as (m & Hm & _).
  constructor; [|by eapply IH].
  cbn. by destruct v.
Qed.

Lemma checksums_of_map_inr (dmp sums : gmap string pyval) :
  checksums_of (map_to_list dmp) = inr sums ->
  dumps_are_bytes dmp /\ sums = checksum_value <$> dmp.
Proof.
  intros Hs.
  assert (Hb : dumps_are_bytes dmp).
  { apply checksums_of_inr in Hs. intros k v Hkv.
    rewrite Forall_forall in Hs.
    exact (Hs (k, v) (proj2 (elem_of_map_to_list dmp k v) Hkv)). }
  split; [exact Hb|].
  rewrite (checksums_of_bytes dmp Hb) in Hs. by injection Hs.
Qed.

(** The two ways in which a call of the handler returns. *)
Lemma on_post_cases start_time now req self resp self' :
  on_post config start_time now req self = inr (resp, self') ->
  (exists raw dmp,
     extract_payload req = inr (raw, dmp) /\ truthy raw = false
     /\ resp = discarded /\ self' = self)
  \/ (exists m dmp,
        extract_payload req = inr (VDict m, dmp)
        /\ m <> ∅ /\ dumps_are_bytes dmp
        /\ (resp, self') =
           dispatch config
             (throttle_of (stamp start_time now m (checksum_value <$> dmp)))
             (crash_id_of now
                (throttle_of (stamp start_time now m (checksum_value <$> dmp)))
                (throttled (stamp start_time now m (checksum_value <$> dmp))))
             (submission config start_time now m (checksum_value <$> dmp)
                dmp (allocated self))
             self).
Proof.
  intros Hpost. pose proof Hpost as Hinv. unfold on_post in Hinv.
  apply bind_inr in Hinv as ([raw dmp] & Hext & Hinv).
  destruct (truthy raw) eqn:Ht; cbn [negb] in Hinv.
  - right.
    apply bind_inr in Hinv as (r1 & Hr1 & Hinv).
    apply setitem_inr in Hr1 as (m & -> & ->).
    apply bind_inr in Hinv as (r2 & _ & Hinv).
    apply bind_inr in Hinv as (sums & Hsums & _).
    apply checksums_of_map_inr in Hsums as [Hb ->].
    assert (Hne : m <> ∅).
    { intros ->. by rewrite (proj2 (truthy_dict_empty ∅) eq_refl) in Ht. }
    exists m, dmp. repeat (split; [done|]).
    rewrite (on_post_dict config start_time now req self m dmp _
               Hext Hne (checksums_of_bytes dmp Hb)) in Hpost.
    by injection Hpost.
  - left. injection Hinv as <- <-. by exists raw, dmp.
Qed.

(** The accept branch of the dispatch is the only one that changes the
    resource. *)
Lemma dispatch_enqueues res cid cr self resp new :
  (resp, {| crashmover_queue := crashmover_queue self ++ [new];
            allocated := S (allocated self) |})
    = dispatch config res cid cr self ->
  res <> REJECT /\ res <> FAKEACCEPT /\ new = cr
  /\ resp = accepted config cid.
Proof.
  unfold dispatch. destruct self as [q a].
  destruct res; intros [= -> Hq]; try lia.
  all: apply app_inj_tail in Hq as [_ ->]; by repeat split.
Qed.

End HandlerCases.

Section HandlerAnswers.
Context `{E : Env}.
Variable config : Config.

(** X1. Whenever the handler returns, the response is 200 text/plain and
    its body is Discarded=1 or CrashID=<prefix><id> with a newline; the
    queue is left as it was or gets one report at its tail, and then the id
    in the body is the crash id of that report. *)
Theorem on_post_response_shape start_time now req self resp self' :
  on_post config start_time now req self = inr (resp, self') ->
  status resp = HTTP_200
  /\ resp_content_type resp = "text/plain"
  /\ ((body resp = "Discarded=1" /\ self' = self)
      \/ exists cid,
           body resp = crash_id_body config cid
           /\ (self' = self
               \/ exists cr,
                    self' = {| crashmover_queue :=
                                 crashmover_queue self ++ [cr];
                               allocated := S (allocated self) |}
                    /\ crash_id cr = cid
                    /\ state cr = Some STATE_SAVE
                    /\ errors cr = 0)).
Proof.
  intros [(raw & dmp & _ & _ & -> & ->)|(m & dmp & _ & _ & _ & Hd)]%on_post_cases.
  { repeat split. by left. }
  unfold dispatch, submission in Hd. cbn zeta in Hd.
  destruct (throttle_of _); injection Hd as -> ->;
    do 2 (split; [reflexivity|]);
    first [ by left
          | right; eexists; split; [reflexivity|];
            first [ by left | right; eexists; by repeat split ] ].
Qed.

(** X2. The handler raises whatever the parser raises, and it raises
    TypeError when the parsed raw crash is a non-empty value that is not a
    dict, or when it is non-empty and some dump is not a byte string. In
    each of these cases the outcome is the same whatever the throttler and
    the crash id functions would do: no response is returned and nothing
    is enqueued. *)
Theorem on_post_raises_when start_time now req self :
  (forall e, extract_payload req = inl e ->
             on_post config start_time now req self = inl e)
  /\ (forall raw dmp,
        extract_payload req = inr (raw, dmp) ->
        truthy raw = true ->
        (forall m, raw <> VDict m) \/ ~ dumps_are_bytes dmp ->
        on_post config start_time now req self = inl TypeError).
Proof.
  split.
  - intros e Hext. unfold on_post. by rewrite Hext.
  - intros raw dmp Hext Ht Hbad.
    assert (Hdict : (exists m, raw = VDict m) \/ forall m, raw <> VDict m).
    { destruct raw; try (right; discriminate). left. by eexists. }
    destruct Hdict as [[m ->]|Hnd].
    + destruct Hbad as [Hnd|Hnb]; [by destruct (Hnd m)|].
      apply (on_post_text_dump_escapes config _ _ _ _ m dmp);
        [done| |done].
      intros ->. by rewrite (proj2 (truthy_dict_empty ∅) eq_refl) in Ht.
    + by apply (on_post_non_dict_escapes config _ _ _ _ raw dmp).
Qed.

(** X3. A request with a malformed header (no Content-Type, a first part
    other than multipart/form-data, no boundary part, no or zero
    Content-Length) or with a gzip body that does not decompress is
    answered Discarded=1 and nothing is enqueued. *)
Theorem malformed_request_discarded start_time now req self :
  spec_bad_header req || spec_bad_gzip req = true ->
  on_post config start_time now req self = inr (discarded, self).
Proof.
  intros Hbad.
  assert (Hext : extract_payload req = inr empty_payload).
  { apply orb_true_iff in Hbad as [Hbad|Hbad].
    - apply extract_payload_bad_header. by rewrite header_ok_spec, Hbad.
    - by apply extract_payload_bad_gzip. }
  unfold on_post. rewrite Hext. reflexivity.
Qed.

End HandlerAnswers.

Lemma malformed_request_discarded_witness :
  @on_post Demo.firefox_env default_config 0%float 0%Z Demo.junk_gzip_post
    Demo.idle = inr (discarded, Demo.idle).
Proof.
  apply (malformed_request_discarded (E := Demo.firefox_env) default_config
           0%float 0%Z Demo.junk_gzip_post Demo.idle).
  vm_compute. reflexivity.
Defined.

Lemma on_post_raises_when_witness :
  @on_post (Demo.env_of [Demo.json_part "extra" "[1]"] ACCEPT)
    default_config 0%float 0%Z (Demo.post (Demo.b "body")) Demo.idle
  = inl TypeError.
Proof.
  apply (proj2 (on_post_raises_when
                  (E := Demo.env_of [Demo.json_part "extra" "[1]"] ACCEPT)
                  default_config 0%float 0%Z (Demo.post (Demo.b "body"))
                  Demo.idle)
           (VList [VInt 1]) ∅).
  - vm_compute. reflexivity.
  - reflexivity.
  - left. discriminate.
Defined.

Lemma on_post_response_shape_witness :
  exists resp self',
    @on_post Demo.firefox_env default_config 0%float 0%Z
      (Demo.post (Demo.b "body")) Demo.idle = inr (resp, self')
    /\ status resp = HTTP_200.
Proof.
  destruct (demo_post_firefox 0%float 0%Z) as (resp & Hpost).
  eexists resp, _. split; [exact Hpost|].
  exact (proj1 (on_post_response_shape (E := Demo.firefox_env) default_config
                  0%float 0%Z (Demo.post (Demo.b "body")) Demo.idle resp _
                  Hpost)).
Defined.

Section EnqueuedReport.
Context `{E : Env}.
Variable config : Config.

Lemma throttled_stamp_uuid start_time now (m sums : gmap string pyval) :
  throttled (stamp start_time now m sums) !! "uuid" = m !! "uuid".
Proof.
  unfold throttled, stamp. by repeat (rewrite lookup_insert_ne by discriminate).
Qed.

Lemma annotated_uuid start_time now (m sums : gmap string pyval) :
  annotated config start_time now m sums !! "uuid" =
    Some (crash_id_of now (throttle_of (stamp start_time now m sums))
            (throttled (stamp start_time now m sums))).
Proof.
  unfold annotated, identified, crash_id_of, keeps_uuid.
  rewrite lookup_insert_ne by discriminate.
  destruct (throttled (stamp start_time now m sums) !! "uuid") as [u|] eqn:Hu.
  - destruct (validate_crash_id u); [by rewrite Hu|apply lookup_insert_eq].
  - apply lookup_insert_eq.
Qed.

Lemma submission_ok start_time now (m dmp : gmap string pyval) obj :
  dumps_are_bytes dmp ->
  report_ok config
    (submission config start_time now m (checksum_value <$> dmp) dmp obj).
Proof.
  intros Hb. exists (annotated config start_time now m (checksum_value <$> dmp)).
  split; [reflexivity|]. split; [apply annotated_uuid|].
  split; [apply lookup_insert_eq|].
  rewrite !annotated_lookup by discriminate.
  rewrite stamp_timestamp, stamp_dump_checksums. by eauto.
Qed.

Lemma report_ok_finish cr : report_ok config cr -> finish_ok cr = true.
Proof.
  intros (m & Hraw & _ & _ & (t & Ht) & _). unfold finish_ok.
  by rewrite Hraw, Ht.
Qed.

(** What a call of the handler that appends [cr] says about [cr]. *)
Lemma on_post_enqueued start_time now req self resp cr :
  on_post config start_time now req self =
    inr (resp, {| crashmover_queue := crashmover_queue self ++ [cr];
                  allocated := S (allocated self) |}) ->
  exists m dmp,
    accepts start_time now req m dmp
    /\ cr = submission config start_time now m (checksum_value <$> dmp) dmp
              (allocated self)
    /\ resp = accepted config (crash_id cr).
Proof.
  intros [(raw & dmp & _ & _ & _ & Heq)|(m & dmp & Hext & Hne & Hb & Hd)]
    %on_post_cases.
  { destruct self as [q a]. injection Heq as _ Ha. lia. }
  apply dispatch_enqueues in Hd as (Hrej & Hfake & -> & ->).
  exists m, dmp. by repeat split.
Qed.

(** X4. A report that the handler enqueues has a dict as raw crash, whose
    uuid entry is the report's crash id and whose type_tag is the
    configured prefix without its dashes; the id in the response body is
    that crash id; and the report's timestamp entry is a float, so
    [crashmover_finish] will not raise on it. *)
Theorem enqueued_report_shape start_time now req self resp cr :
  on_post config start_time now req self =
    inr (resp, {| crashmover_queue := crashmover_queue self ++ [cr];
                  allocated := S (allocated self) |}) ->
  report_ok config cr
  /\ body resp = crash_id_body config (crash_id cr)
  /\ finish_ok cr = true
  /\ ident cr = allocated self.
Proof.
  intros (m & dmp & (_ & _ & Hb & _) & -> & ->)%on_post_enqueued.
  pose proof (submission_ok start_time now m dmp (allocated self) Hb) as Hok.
  split; [exact Hok|]. split; [reflexivity|].
  split; [by apply report_ok_finish | reflexivity].
Qed.

(** X5. In an enqueued report every dump is a byte string, dump_checksums
    has exactly the dump names as keys and maps each name to the SHA-256
    hex digest of that dump, and MinidumpSha256Hash is the digest of the
    dump named upload_file_minidump, or the empty string without it. *)
Theorem enqueued_dump_checksums start_time now req self resp cr :
  on_post config start_time now req self =
    inr (resp, {| crashmover_queue := crashmover_queue self ++ [cr];
                  allocated := S (allocated self) |}) ->
  exists (m sums : gmap string pyval),
    raw_crash cr = VDict m
    /\ m !! "dump_checksums" = Some (VDict sums)
    /\ (forall k, sums !! k = None <-> dumps cr !! k = None)
    /\ (forall k v, dumps cr !! k = Some v ->
          exists data, v = VBytes data
                       /\ sums !! k = Some (VStr (sha256_hexdigest data)))
    /\ m !! "MinidumpSha256Hash" =
       Some (match dumps cr !! "upload_file_minidump" with
             | Some (VBytes data) => VStr (sha256_hexdigest data)
             | _ => VStr ""
             end).
Proof.
  intros (m & dmp & (_ & _ & Hb & _) & -> & _)%on_post_enqueued.
  exists (annotated config start_time now m (checksum_value <$> dmp)),
    (checksum_value <$> dmp).
  split; [reflexivity|].
  rewrite !annotated_lookup by discriminate.
  rewrite stamp_dump_checksums, stamp_minidump_hash.
  split; [reflexivity|]. cbn [dumps submission set_state new_CrashReport].
  split; [|split].
  - intros k. rewrite lookup_fmap. by destruct (dmp !! k).
  - intros k v Hk. pose proof (Hb k v Hk) as Hv.
    destruct v; try discriminate Hv. eexists. split; [reflexivity|].
    by rewrite lookup_fmap, Hk.
  - rewrite lookup_fmap.
    destruct (dmp !! "upload_file_minidump") as [v|] eqn:Hk; [|reflexivity].
    pose proof (Hb _ v Hk) as Hv. by destruct v.
Qed.

(** X6. When the handler returns for a request parsed into a non-empty
    raw crash that the throttler does not reject, the crash id in the
    response is the client's uuid annotation when there is one and
    [validate_crash_id] accepts it, and the id that [create_crash_id]
    gives for the UTC reading and the throttle result in every other
    case; a report that the call enqueues has that crash id. *)
Theorem client_uuid_reused start_time now req self resp self'
    (m dmp : gmap string pyval) :
  on_post config start_time now req self = inr (resp, self') ->
  extract_payload req = inr (VDict m, dmp) ->
  m <> ∅ ->
  throttle_of (stamp start_time now m (checksum_value <$> dmp)) <> REJECT ->
  let cid :=
    match m !! "uuid" with
    | Some u =>
        if validate_crash_id u then u
        else VStr (create_crash_id now
                     (throttle_of
                        (stamp start_time now m (checksum_value <$> dmp))))
    | None =>
        VStr (create_crash_id now
                (throttle_of
                   (stamp start_time now m (checksum_value <$> dmp))))
    end in
  resp = accepted config cid
  /\ (forall cr,
        self' = {| crashmover_queue := crashmover_queue self ++ [cr];
                   allocated := S (allocated self) |} ->
        crash_id cr = cid).
Proof.
  intros Hpost Hext Hne Hrej cid.
  apply on_post_cases in Hpost
    as [(raw & dmp' & Hext' & Ht & _)|(m' & dmp' & Hext' & _ & _ & Hd)].
  { rewrite Hext in Hext'. injection Hext' as <- _.
    apply truthy_dict_empty in Ht. contradiction. }
  rewrite Hext in Hext'. injection Hext' as <- <-.
  assert (Hcid : crash_id_of now
                   (throttle_of
                      (stamp start_time now m (checksum_value <$> dmp)))
                   (throttled
                      (stamp start_time now m (checksum_value <$> dmp)))
                 = cid).
  { unfold crash_id_of, keeps_uuid. rewrite throttled_stamp_uuid.
    subst cid. destruct (m !! "uuid") as [u|]; [|reflexivity].
    by destruct (validate_crash_id u). }
  rewrite Hcid in Hd. unfold dispatch, submission in Hd. cbn zeta in Hd.
  rewrite Hcid in Hd.
  destruct (throttle_of _); try contradiction; cbv beta iota in Hd;
    injection Hd as -> ->; (split; [reflexivity|]); intros cr Hcr.
  1, 2: injection Hcr as Hq; apply app_inj_tail in Hq as [_ <-];
    reflexivity.
  destruct self as [q a]. injection Hcr as _ Ha. lia.
Qed.

(** X7. The handler writes eight keys into the raw crash
    (submitted_timestamp, timestamp, dump_checksums, MinidumpSha256Hash,
    legacy_processing, throttle_rate, uuid, type_tag); under every other
    key an enqueued report holds what the parser returned. *)
Theorem client_annotations_kept start_time now req self resp cr :
  on_post config start_time now req self =
    inr (resp, {| crashmover_queue := crashmover_queue self ++ [cr];
                  allocated := S (allocated self) |}) ->
  exists (m ann dmp : gmap string pyval),
    extract_payload req = inr (VDict m, dmp)
    /\ raw_crash cr = VDict ann
    /\ dumps cr = dmp
    /\ (forall k, handler_key k = false -> ann !! k = m !! k)
    /\ (forall k, handler_key k = true -> is_Some (ann !! k)).
Proof.
  intros (m & dmp & (Hext & _) & -> & _)%on_post_enqueued.
  exists m, (annotated config start_time now m (checksum_value <$> dmp)), dmp.
  split; [exact Hext|]. split; [reflexivity|]. split; [reflexivity|].
  split.
  - intros k Hk. unfold handler_key in Hk.
    repeat (apply orb_false_iff in Hk as [Hk ?]).
    repeat match goal with
           | H : String.eqb _ _ = false |- _ => apply String.eqb_neq in H
           end.
    rewrite annotated_lookup by done.
    unfold stamp. by repeat (rewrite lookup_insert_ne by done).
  - intros k Hk. unfold handler_key in Hk.
    repeat (apply orb_true_iff in Hk as [Hk|Hk]);
      apply String.eqb_eq in Hk; subst k.
    all: try (rewrite annotated_uuid; by eexists).
    all: try (unfold annotated, identified; rewrite lookup_insert_eq;
              by eexists).
    all: try (rewrite annotated_lookup by discriminate; unfold stamp;
              repeat (rewrite lookup_insert_ne by discriminate);
              rewrite lookup_insert_eq; by eexists).
    all: unfold annotated, identified, throttled;
      rewrite lookup_insert_ne by discriminate;
      destruct (keeps_uuid _);
      repeat (rewrite lookup_insert_ne by discriminate);
      rewrite lookup_insert_eq; by eexists.
Qed.

End EnqueuedReport.

Lemma enqueued_report_shape_witness :
  @report_ok Demo.firefox_env default_config Demo.firefox_report
  /\ finish_ok Demo.firefox_report = true.
Proof.
  destruct (demo_post_firefox 0%float 0%Z) as (resp & Hpost).
  destruct (enqueued_report_shape (E := Demo.firefox_env) default_config
              0%float 0%Z (Demo.post (Demo.b "body")) Demo.idle resp
              Demo.firefox_report Hpost) as (Hok & _ & Hfin & _).
  split; assumption.
Defined.

Lemma enqueued_dump_checksums_witness :
  exists (m sums : gmap string pyval),
    raw_crash Demo.firefox_report = VDict m
    /\ m !! "dump_checksums" = Some (VDict sums)
    /\ (forall k, sums !! k = None <-> dumps Demo.firefox_report !! k = None).
Proof.
  destruct (demo_post_firefox 0%float 0%Z) as (resp & Hpost).
  destruct (enqueued_dump_checksums (E := Demo.firefox_env) default_config
              0%float 0%Z (Demo.post (Demo.b "body")) Demo.idle resp
              Demo.firefox_report Hpost) as (m & sums & H1 & H2 & H3 & _).
  exists m, sums. repeat split; try assumption; apply H3.
Defined.

Lemma client_uuid_reused_witness :
  crash_id Demo.firefox_report = VStr "de1bb258-cbbf-4589-a673-34f800160918".
Proof.
  destruct (demo_post_firefox 0%float 0%Z) as (resp & Hpost).
  refine (proj2 (client_uuid_reused (E := Demo.firefox_env) default_config
                   0%float 0%Z (Demo.post (Demo.b "body")) Demo.idle resp _
                   Demo.firefox_annotations Demo.firefox_dumps Hpost _ _ _)
            Demo.firefox_report eq_refl).
  - vm_compute. reflexivity.
  - apply insert_non_empty.
  - vm_compute. discriminate.
Defined.

Lemma client_annotations_kept_witness :
  exists (ann : gmap string pyval),
    raw_crash Demo.firefox_report = VDict ann
    /\ ann !! "ProductName" = Some (VStr "Firefox").
Proof.
  destruct (demo_post_firefox 0%float 0%Z) as (resp & Hpost).
  destruct (client_annotations_kept (E := Demo.firefox_env) default_config
              0%float 0%Z (Demo.post (Demo.b "body")) Demo.idle resp
              Demo.firefox_report Hpost)
    as (m & ann & dmp & Hext & Hraw & _ & Hkeep & _).
  exists ann. split; [exact Hraw|].
  rewrite (Hkeep "ProductName" eq_refl).
  assert (Hdemo : @extract_payload Demo.firefox_env (Demo.post (Demo.b "body"))
                  = inr (VDict Demo.firefox_annotations, Demo.firefox_dumps))
    by (vm_compute; reflexivity).
  rewrite Hdemo in Hext. injection Hext as <- _. reflexivity.
Defined.

(** * Further properties of the parser *)

Section ParserWalk.
Context `{E : Env}.

(** X8. Parts named dump_checksums have no effect: the walk over the parts
    gives the same result, or raises the same exception, as the walk over
    the parts without them. *)
Theorem dump_checksums_parts_ignored (acc : parts_acc) (items : list fs_item) :
  walk_parts acc items =
  walk_parts acc
    (List.filter
       (fun it => negb (String.eqb (item_name it) "dump_checksums")) items).
Proof.
  revert acc. induction items as [|it items IH]; intros acc; [reflexivity|].
  cbn [List.filter walk_parts].
  destruct (String.eqb (item_name it) "dump_checksums") eqn:Hname;
    cbn [negb].
  - unfold walk_part. rewrite Hname. cbn [mbind result_mbind bind ret].
    apply IH.
  - cbn [walk_parts]. destruct (walk_part acc it) as [e|acc'];
      [reflexivity|]. cbn [mbind result_mbind bind]. apply IH.
Qed.

(** One part that is not a JSON blob, on an accumulator that holds a
    dict. *)
Lemma walk_part_no_json (acc : parts_acc) (it : fs_item) m :
  walk_branch it <> JsonBlob ->
  acc_raw acc = VDict m ->
  exists acc' m',
    walk_part acc it = inr acc'
    /\ acc_raw acc' = VDict m'
    /\ has_json acc' = has_json acc
    /\ (forall k,
          m' !! k =
            if bool_decide (walk_branch it = KeyValue)
               && String.eqb (item_name it) k
            then Some (fs_value it) else m !! k)
    /\ (forall k,
          acc_dumps acc' !! k =
            if bool_decide (walk_branch it = Dump)
               && String.eqb (sanitize_dump_name (item_name it)) k
            then Some (fs_value it) else acc_dumps acc !! k).
Proof.
  unfold walk_branch, walk_part. intros Hnj Hraw.
  destruct (String.eqb (item_name it) "dump_checksums").
  { exists acc, m. by repeat split. }
  destruct (type_startswith (fs_type it) "application/json"); [done|].
  destruct (str_truthy (fs_type it) && _).
  - eexists _, m. split; [reflexivity|]. cbn. repeat split; try done.
    intros k. destruct (String.eqb_spec (sanitize_dump_name (item_name it)) k)
      as [->|Hne].
    + by rewrite lookup_insert_eq.
    + by rewrite lookup_insert_ne.
  - rewrite Hraw. eexists _, _. split; [reflexivity|]. cbn.
    repeat split; try done.
    intros k. destruct (String.eqb_spec (item_name it) k) as [->|Hne].
    + by rewrite lookup_insert_eq.
    + by rewrite lookup_insert_ne.
Qed.

Lemma walk_parts_no_json (items : list fs_item) (acc : parts_acc) m :
  Forall (fun it => walk_branch it <> JsonBlob) items ->
  acc_raw acc = VDict m ->
  exists acc' m',
    walk_parts acc items = inr acc'
    /\ acc_raw acc' = VDict m'
    /\ has_json acc' = has_json acc
    /\ (forall k,
          m' !! k = match last_field KeyValue item_name k items with
                    | Some v => Some v
                    | None => m !! k
                    end)
    /\ (forall k,
          acc_dumps acc' !! k =
            match last_field Dump
                    (fun it => sanitize_dump_name (item_name it)) k items with
            | Some v => Some v
            | None => acc_dumps acc !! k
            end).
Proof.
  intros Hall. revert acc m.
  induction Hall as [|it items Hit _ IH]; intros acc m Hraw.
  { exists acc, m. by repeat split. }
  destruct (walk_part_no_json acc it m Hit Hraw)
    as (acc1 & m1 & Hw1 & Hraw1 & Hj1 & Hm1 & Hd1).
  destruct (IH acc1 m1 Hraw1) as (acc' & m' & Hw & Hraw' & Hj & Hm & Hd).
  exists acc', m'. cbn [walk_parts]. rewrite Hw1.
  cbn [mbind result_mbind bind].
  split; [exact Hw|]. split; [exact Hraw'|]. split; [congruence|].
  split; intros k; cbn [last_field].
  - rewrite Hm. destruct (last_field KeyValue item_name k items);
      [reflexivity|]. rewrite Hm1. by destruct (_ && _).
  - rewrite Hd. destruct (last_field Dump _ k items); [reflexivity|].
    rewrite Hd1. by destruct (_ && _).
Qed.

(** X9. For a request with a well-formed header whose body decodes into
    parts with no JSON blob, the parser raises nothing and does not
    discard: it returns a dict of annotations and the dumps, where each
    annotation is the value of the last key/value part of that name and
    each dump is the value of the last dump part of that sanitized name. *)
Theorem extract_payload_no_json req data environ items :
  header_ok req = true ->
  payload_source req (default 0%nat (content_length req))
    = Some (data, environ) ->
  FieldStorage data environ = inr items ->
  Forall (fun it => walk_branch it <> JsonBlob) items ->
  exists (m dmp : gmap string pyval),
    extract_payload req = inr (VDict m, dmp)
    /\ (forall k, m !! k = last_field KeyValue item_name k items)
    /\ (forall k,
          dmp !! k =
            last_field Dump (fun it => sanitize_dump_name (item_name it))
              k items).
Proof.
  intros Hh Hsrc Hfs Hall.
  destruct (walk_parts_no_json items acc_init ∅ Hall eq_refl)
    as (acc & m & Hw & Hraw & Hj & Hm & Hd).
  exists m, (acc_dumps acc). split; [|split].
  - rewrite (extract_payload_body req data environ Hh Hsrc), Hfs.
    cbn [mbind result_mbind bind]. rewrite Hw.
    cbn [mbind result_mbind bind]. rewrite Hj, <- Hraw. reflexivity.
  - intros k. rewrite Hm, lookup_empty. by destruct (last_field _ _ _ _).
  - intros k. rewrite Hd. cbn [acc_init acc_dumps]. rewrite lookup_empty.
    by destruct (last_field _ _ _ _).
Qed.

End ParserWalk.

Lemma extract_payload_no_json_witness :
  exists (m dmp : gmap string pyval),
    @extract_payload Demo.firefox_env (Demo.post (Demo.b "body"))
      = inr (VDict m, dmp)
    /\ m !! "Version" = Some (VStr "1.0").
Proof.
  destruct (extract_payload_no_json (E := Demo.firefox_env)
              (Demo.post (Demo.b "body")) (Demo.b "body") ∅
              Demo.firefox_parts) as (m & dmp & Hext & Hm & _).
  - reflexivity.
  - reflexivity.
  - reflexivity.
  - repeat constructor; vm_compute; discriminate.
  - exists m, dmp. split; [exact Hext|]. rewrite Hm. reflexivity.
Defined.

(** * The timestamps and the values of an enqueued report *)

Section Timestamps.
Context `{E : Env}.
Variable config : Config.

(** C7 (amended). In a report that the handler enqueues,
    submitted_timestamp is the ISO text of the [utc_now()] reading taken
    after the payload is parsed, and timestamp is the [time.time()]
    reading taken on entry to the handler: two readings of the clock.
    They denote the same moment when the reading on entry is the later
    reading in seconds since the epoch and, [isoformat] being one-to-one,
    only then. *)
Theorem C7_timestamps_are_two_readings start_time now req self resp cr :
  on_post config start_time now req self =
    inr (resp, {| crashmover_queue := crashmover_queue self ++ [cr];
                  allocated := S (allocated self) |}) ->
  exists ann,
    raw_crash cr = VDict ann
    /\ ann !! "submitted_timestamp" = Some (VStr (isoformat now))
    /\ ann !! "timestamp" = Some (VFloat start_time)
    /\ (start_time = posix_timestamp now ->
        forall sub ts,
          ann !! "submitted_timestamp" = Some sub ->
          ann !! "timestamp" = Some ts ->
          same_moment sub ts)
    /\ ((forall t t' : datetime, isoformat t = isoformat t' -> t = t') ->
        forall sub ts,
          ann !! "submitted_timestamp" = Some sub ->
          ann !! "timestamp" = Some ts ->
          same_moment sub ts ->
          start_time = posix_timestamp now).
Proof.
  intros (m & dmp & _ & -> & _)%on_post_enqueued.
  exists (annotated config start_time now m (checksum_value <$> dmp)).
  split; [reflexivity|].
  rewrite !annotated_lookup by discriminate.
  rewrite stamp_submitted, stamp_timestamp.
  split; [reflexivity|]. split; [reflexivity|]. split.
  - intros -> sub ts [= <-] [= <-]. by exists now.
  - intros Hinj sub ts [= <-] [= <-] (t & Hiso & Hposix).
    injection Hiso as Hiso. apply Hinj in Hiso. subst t.
    exact (f_equal (fun v => match v with
                             | VFloat f => f
                             | _ => start_time
                             end) Hposix).
Qed.

End Timestamps.

Lemma C7_timestamps_are_two_readings_witness :
  exists ann,
    raw_crash
      (@submission Demo.firefox_env default_config 0%float 1000000%Z
         Demo.firefox_annotations
         (@checksum_value Demo.firefox_env <$> Demo.firefox_dumps)
         Demo.firefox_dumps 0) = VDict ann
    /\ ann !! "submitted_timestamp" = Some (VStr "1000000")
    /\ ann !! "timestamp" = Some (VFloat 0%float).
Proof.
  destruct (demo_post_firefox 0%float 1000000%Z) as (resp & Hpost).
  destruct (C7_timestamps_are_two_readings (E := Demo.firefox_env)
              default_config 0%float 1000000%Z (Demo.post (Demo.b "body"))
              Demo.idle resp _ Hpost)
    as (ann & Hraw & Hsub & Hts & _).
  exists ann. repeat split; assumption.
Defined.

Section AnnotationValues.
Context `{E : Env}.
Variable config : Config.

(** A value that [last_field] finds is the value of a part that takes
    the branch. *)
Lemma last_field_elem kind key k (items : list fs_item) v :
  last_field kind key k items = Some v ->
  exists it, it ∈ items /\ walk_branch it = kind /\ fs_value it = v.
Proof.
  induction items as [|it items IH]; [discriminate|].
  cbn [last_field].
  destruct (last_field kind key k items) as [w|].
  - intros [= ->]. destruct (IH eq_refl) as (it' & Hin & Hk & Hv).
    exists it'. split; [by apply elem_of_cons; right|done].
  - case_bool_decide as Hkind; cbn [andb]; [|discriminate].
    destruct (String.eqb (key it) k); [|discriminate].
    intros [= <-]. exists it. split; [by apply elem_of_cons; left|done].
Qed.

(** Without a JSON part the annotations are the values of key/value
    parts. *)
Lemma extract_payload_kv_values req data environ items
    (m dmp : gmap string pyval) :
  header_ok req = true ->
  payload_source req (default 0%nat (content_length req))
    = Some (data, environ) ->
  FieldStorage data environ = inr items ->
  Forall (fun it => walk_branch it <> JsonBlob) items ->
  extract_payload req = inr (VDict m, dmp) ->
  forall k v, m !! k = Some v ->
    exists it, it ∈ items /\ walk_branch it = KeyValue /\ fs_value it = v.
Proof.
  intros Hh Hsrc Hfs Hnj Hext k v Hk.
  rewrite (extract_payload_body req data environ Hh Hsrc), Hfs in Hext.
  cbn [mbind result_mbind bind] in Hext.
  destruct (walk_parts_no_json items acc_init ∅ Hnj eq_refl)
    as (acc & m' & Hwalk & Hraw & Hj & Hm & _).
  rewrite Hwalk in Hext. cbn [mbind result_mbind bind] in Hext.
  rewrite Hj in Hext. cbn [acc_init has_json andb] in Hext.
  rewrite Hraw in Hext. injection Hext as <- _.
  rewrite Hm in Hk.
  destruct (last_field KeyValue item_name k items) as [w|] eqn:Hlast.
  - injection Hk as ->. by apply (last_field_elem KeyValue item_name k).
  - by rewrite lookup_empty in Hk.
Qed.

(** C8 (amended). The annotations of an enqueued report are keyed by
    strings (the mapping's key type). When no part of the body is a JSON
    part and the value of every part that the loop stores as a key/value
    pair is a string, every value is a string except those the handler
    writes under timestamp (a float), dump_checksums (a mapping from dump
    names to hex strings), legacy_processing (the throttle result) and
    throttle_rate (the throttler's rate). *)
Theorem C8_annotation_values start_time now req self resp cr data environ
    items :
  on_post config start_time now req self =
    inr (resp, {| crashmover_queue := crashmover_queue self ++ [cr];
                  allocated := S (allocated self) |}) ->
  payload_source req (default 0%nat (content_length req))
    = Some (data, environ) ->
  FieldStorage data environ = inr items ->
  Forall (fun it => walk_branch it <> JsonBlob) items ->
  Forall (fun it => walk_branch it = KeyValue -> is_str (fs_value it) = true)
    items ->
  exists (ann sums m : gmap string pyval),
    raw_crash cr = VDict ann
    /\ extract_payload req = inr (VDict m, dumps cr)
    /\ (forall k v, ann !! k = Some v -> handler_typed_key k = false ->
                    is_str v = true)
    /\ ann !! "timestamp" = Some (VFloat start_time)
    /\ ann !! "dump_checksums" = Some (VDict sums)
    /\ all_strings sums
    /\ ann !! "legacy_processing" =
       Some (result_value (throttle_of (stamp start_time now m sums)))
    /\ ann !! "throttle_rate" =
       Some (throttle (VDict (stamp start_time now m sums))).2.
Proof.
  intros (m & dmp & (Hext & Hne & Hb & _) & -> & _)%on_post_enqueued
    Hsrc Hfs Hnj Hkv.
  assert (Hh : header_ok req = true).
  { destruct (header_ok req) eqn:Hh; [reflexivity|].
    rewrite (extract_payload_bad_header req Hh) in Hext.
    injection Hext as <- _. contradiction. }
  assert (Hm : all_strings m).
  { intros k v Hk.
    destruct (extract_payload_kv_values req data environ items m dmp
                Hh Hsrc Hfs Hnj Hext k v Hk) as (it & Hin & Hbr & <-).
    rewrite Forall_forall in Hkv. by apply Hkv. }
  pose proof (checksum_values_strings dmp Hb) as Hsums.
  exists (annotated config start_time now m (checksum_value <$> dmp)),
    (checksum_value <$> dmp), m.
  split; [reflexivity|]. split; [exact Hext|].
  split; [intros k v; apply annotated_strings; assumption|].
  rewrite !annotated_lookup by discriminate.
  rewrite stamp_timestamp, stamp_dump_checksums.
  repeat (split; [first [reflexivity | assumption]|]).
  unfold annotated, identified, throttled.
  rewrite !lookup_insert_ne by discriminate.
  destruct (keeps_uuid _);
    repeat (rewrite lookup_insert_ne by discriminate);
    rewrite ?lookup_insert_eq; split; try reflexivity.
  all: rewrite lookup_insert_ne by discriminate; apply lookup_insert_eq.
Qed.

End AnnotationValues.

Lemma C8_annotation_values_witness :
  exists ann : gmap string pyval,
    raw_crash Demo.firefox_report = VDict ann
    /\ (forall k v, ann !! k = Some v -> handler_typed_key k = false ->
                    is_str v = true)
    /\ ann !! "timestamp" = Some (VFloat 0%float).
Proof.
  destruct (demo_post_firefox 0%float 0%Z) as (resp & Hpost).
  destruct (C8_annotation_values (E := Demo.firefox_env) default_config
              0%float 0%Z (Demo.post (Demo.b "body")) Demo.idle resp
              Demo.firefox_report (Demo.b "body") ∅ Demo.firefox_parts Hpost)
    as (ann & sums & m & Hraw & _ & Hstr & Hts & _).
  - reflexivity.
  - reflexivity.
  - repeat (apply Forall_cons; split;
            [intros H; vm_compute in H; discriminate H|]).
    by apply Forall_nil.
  - repeat (apply Forall_cons; split;
            [first [ intros _; reflexivity
                   | intros H; vm_compute in H; discriminate H ]|]).
    by apply Forall_nil.
  - exists ann. repeat split; assumption.
Defined.

(** * Further properties of the worker loop *)

Lemma crashmover_process_queue_ends_witness :
  exists bs' evs,
    crashmover_process_queue (B := scripted) 42 [Demo.fresh_report]
      [false; true; false] = Some ([], bs', evs).
Proof.
  apply (crashmover_process_queue_ends (B := scripted) 42
           [Demo.fresh_report] [false; true; false]).
  vm_compute. lia.
Defined.

Section CallBound.
Context `{B : Backend}.

Lemma count_calls_app st (l k : list event) :
  count_calls st (l ++ k) = count_calls st l + count_calls st k.
Proof. unfold count_calls. by rewrite List.filter_app, length_app. Qed.

Lemma settle_calls cr ok :
  errors cr < MAX_ATTEMPTS ->
  count_calls STATE_SAVE (call_event cr ++ (settle cr ok).2)
  + count_calls STATE_PUBLISH (call_event cr ++ (settle cr ok).2)
  + queue_calls (option_list (settle cr ok).1) <= calls_left cr
  /\ Forall (fun c => errors c < MAX_ATTEMPTS) (option_list (settle cr ok).1).
Proof.
  intros Herr.
  unfold settle, handle_exception, call_event, queue_calls, calls_left.
  destruct (state cr) as [[|]|] eqn:Hst; destruct ok;
    try destruct (finish_ok cr);
    try destruct (errors (incr_errors cr) <? MAX_ATTEMPTS)%nat eqn:Hlt;
    try apply Nat.ltb_lt in Hlt;
    cbn [fst snd option_list sum_list_with app state set_state incr_errors
         errors] in *;
    rewrite ?Hst;
    (split; [|first [by apply Forall_nil | apply Forall_singleton]]).
  all: try (cbn [errors set_state incr_errors]; unfold MAX_ATTEMPTS in *;
            lia).
  all: unfold count_calls, MAX_ATTEMPTS in *; cbn; rewrite ?Hst;
    repeat case_bool_decide; try discriminate; cbn; lia.
Qed.

Lemma crashmover_iteration_calls q bs q' bs' evs :
  Forall (fun c => errors c < MAX_ATTEMPTS) q ->
  crashmover_iteration q bs = Some (q', bs', evs) ->
  count_calls STATE_SAVE evs + count_calls STATE_PUBLISH evs
  + queue_calls q' <= queue_calls q
  /\ Forall (fun c => errors c < MAX_ATTEMPTS) q'.
Proof.
  intros Hall Hit. destruct q as [|cr rest]; [discriminate|].
  apply Forall_cons in Hall as [Hcr Hrest].
  cbn [crashmover_iteration] in Hit.
  destruct (run_call cr bs) as [ok bs1].
  destruct (settle_calls cr ok Hcr) as [Hle Hok].
  destruct (settle cr ok) as [again evs1]. injection Hit as <- _ <-.
  cbn [fst snd] in *. split.
  - unfold queue_calls in *. rewrite sum_list_with_app.
    cbn [sum_list_with]. lia.
  - apply Forall_app. by split.
Qed.

Lemma calls_where_app st p (l k : list event) :
  calls_where st p (l ++ k) = calls_where st p l + calls_where st p k.
Proof. unfold calls_where. by rewrite List.filter_app, length_app. Qed.

Lemma count_calls_where st (evs : list event) :
  count_calls st evs = calls_where st (fun _ => true) evs.
Proof.
  unfold count_calls, calls_where. f_equal. apply List.filter_ext.
  intros [st' i| | | |]; try reflexivity. by rewrite andb_true_r.
Qed.

(** A pass uses up at least as many of the calls left as it makes. *)
Lemma settle_calls_where st p cr ok :
  errors cr < MAX_ATTEMPTS ->
  calls_where st p (call_event cr ++ (settle cr ok).2)
  + left_where st p (option_list (settle cr ok).1) <= left_where st p [cr].
Proof.
  intros Herr.
  unfold settle, handle_exception, call_event, left_where, calls_where,
    state_calls_left.
  destruct (p (ident cr)) eqn:Hp;
    destruct (state cr) as [[|]|] eqn:Hst; destruct ok;
    try destruct (finish_ok cr);
    try destruct (errors (incr_errors cr) <? MAX_ATTEMPTS)%nat eqn:Hlt;
    try apply Nat.ltb_lt in Hlt;
    destruct st;
    cbn [fst snd option_list option_rect sum_list_with app state set_state
         incr_errors errors ident List.filter length andb] in *;
    rewrite ?Hst, ?Hp;
    repeat case_bool_decide; try congruence;
    cbn [andb length List.filter]; rewrite ?Hp; cbn [length];
    unfold MAX_ATTEMPTS in *; lia.
Qed.

Lemma crashmover_iteration_where st p q bs q' bs' evs :
  Forall (fun c => errors c < MAX_ATTEMPTS) q ->
  crashmover_iteration q bs = Some (q', bs', evs) ->
  calls_where st p evs + left_where st p q' <= left_where st p q.
Proof.
  intros Hall Hit. destruct q as [|cr rest]; [discriminate|].
  apply Forall_cons in Hall as [Hcr Hrest].
  cbn [crashmover_iteration] in Hit.
  destruct (run_call cr bs) as [ok bs1].
  pose proof (settle_calls_where st p cr ok Hcr) as Hle.
  destruct (settle cr ok) as [again evs1]. injection Hit as <- _ <-.
  cbn [fst snd] in *. unfold left_where in *.
  rewrite sum_list_with_app. cbn [sum_list_with] in *. lia.
Qed.

Lemma crashmover_process_queue_where st p fuel : forall q bs q' bs' evs,
  Forall (fun c => errors c < MAX_ATTEMPTS) q ->
  crashmover_process_queue fuel q bs = Some (q', bs', evs) ->
  calls_where st p evs <= left_where st p q.
Proof.
  induction fuel as [|fuel IH]; intros q bs q' bs' evs Hall Hrun;
    cbn [crashmover_process_queue] in Hrun;
    destruct (crashmover_iteration q bs) as [[[q1 bs1] evs1]|] eqn:Hit;
    try discriminate Hrun.
  - injection Hrun as _ _ <-. cbn. lia.
  - destruct (crashmover_process_queue fuel q1 bs1)
      as [[[q2 bs2] evs2]|] eqn:Hrest; [|discriminate Hrun].
    injection Hrun as _ _ <-.
    pose proof (crashmover_iteration_where st p q bs q1 bs1 evs1 Hall Hit)
      as Hle.
    destruct (crashmover_iteration_calls q bs q1 bs1 evs1 Hall Hit)
      as [_ Hall1].
    pose proof (IH q1 bs1 q2 bs2 evs2 Hall1 Hrest) as Hle2.
    rewrite calls_where_app. lia.
  - injection Hrun as _ _ <-. cbn. lia.
Qed.

Lemma left_where_length st p (q : list CrashReport) :
  left_where st p q <= MAX_ATTEMPTS * length q.
Proof.
  unfold left_where. induction q as [|cr q IH]; [cbn; lia|].
  cbn [sum_list_with length]. unfold state_calls_left at 1.
  destruct (p (ident cr)), st, (state cr) as [[|]|]; lia.
Qed.

Lemma left_where_other st i (q : list CrashReport) :
  i ∉ ident <$> q -> left_where st (Nat.eqb i) q = 0.
Proof.
  unfold left_where. induction q as [|cr q IH]; [reflexivity|].
  cbn [fmap list_fmap sum_list_with]. intros Hnin.
  apply not_elem_of_cons in Hnin as [Hne Hnin].
  rewrite (IH Hnin). apply Nat.eqb_neq in Hne. by rewrite Hne.
Qed.

Lemma left_where_one st i (q : list CrashReport) :
  NoDup (ident <$> q) -> left_where st (Nat.eqb i) q <= MAX_ATTEMPTS.
Proof.
  induction q as [|cr q IH]; [cbn; lia|].
  cbn [fmap list_fmap]. intros [Hnin Hnd]%NoDup_cons.
  change (left_where st (Nat.eqb i) (cr :: q))
    with ((if Nat.eqb i (ident cr) then state_calls_left st cr else 0)
          + left_where st (Nat.eqb i) q).
  destruct (Nat.eqb_spec i (ident cr)) as [->|Hne].
  - rewrite (left_where_other st (ident cr) q Hnin).
    unfold state_calls_left. destruct st, (state cr) as [[|]|]; lia.
  - specialize (IH Hnd). lia.
Qed.

(** X11. Whatever the backends do, a run of the worker loop over reports
    with fewer than MAX_ATTEMPTS errors calls [save_crash] at most 20
    times and [publish_crash] at most 20 times for each report object of
    the queue it starts with; so it makes at most 20 calls of each backend
    per report of the queue, and at most 40 calls per report in all. *)
Theorem backend_calls_bounded fuel q bs q' bs' evs :
  Forall (fun c => errors c < MAX_ATTEMPTS) q ->
  crashmover_process_queue fuel q bs = Some (q', bs', evs) ->
  (NoDup (ident <$> q) ->
   forall st i, count_report_calls st i evs <= 20)
  /\ (forall st, count_calls st evs <= 20 * length q)
  /\ count_calls STATE_SAVE evs + count_calls STATE_PUBLISH evs
     <= queue_calls q
  /\ queue_calls q <= 40 * length q.
Proof.
  intros Hall Hrun. split; [|split; [|split]].
  - intros Hnd st i. unfold count_report_calls.
    pose proof (crashmover_process_queue_where st (Nat.eqb i) fuel
                  q bs q' bs' evs Hall Hrun) as Hle.
    pose proof (left_where_one st i q Hnd) as Hone.
    unfold MAX_ATTEMPTS in Hone. lia.
  - intros st. rewrite count_calls_where.
    pose proof (crashmover_process_queue_where st (fun _ => true) fuel
                  q bs q' bs' evs Hall Hrun) as Hle.
    pose proof (left_where_length st (fun _ => true) q) as Hlen.
    unfold MAX_ATTEMPTS in Hlen. lia.
  - revert q bs q' bs' evs Hall Hrun.
    induction fuel as [|fuel IH]; intros q bs q' bs' evs Hall Hrun;
      cbn [crashmover_process_queue] in Hrun;
      destruct (crashmover_iteration q bs) as [[[q1 bs1] evs1]|] eqn:Hit;
      try discriminate Hrun.
    + injection Hrun as _ _ <-. cbn. lia.
    + destruct (crashmover_process_queue fuel q1 bs1)
        as [[[q2 bs2] evs2]|] eqn:Hrest; [|discriminate Hrun].
      injection Hrun as _ _ <-.
      destruct (crashmover_iteration_calls q bs q1 bs1 evs1 Hall Hit)
        as [Hle Hall1].
      pose proof (IH q1 bs1 q2 bs2 evs2 Hall1 Hrest) as Hle2.
      rewrite !count_calls_app. lia.
    + injection Hrun as _ _ <-. cbn. lia.
  - clear. unfold queue_calls. induction q as [|cr q IH]; [cbn; lia|].
    cbn [sum_list_with length]. unfold calls_left at 1, MAX_ATTEMPTS.
    destruct (state cr) as [[|]|]; lia.
Qed.




End CallBound.

Lemma backend_calls_bounded_witness :
  exists evs,
    crashmover_process_queue (B := scripted) 42 [Demo.fresh_report]
      (save_always_fails ++ [true]) = Some ([], [true], evs)
    /\ count_report_calls STATE_SAVE 7 evs <= 20
    /\ count_calls STATE_PUBLISH evs <= 20.
Proof.
  eexists. split; [vm_compute; reflexivity|].
  match goal with
  | |- count_report_calls _ _ ?evs <= _ /\ _ =>
      assert (Hrun : crashmover_process_queue (B := scripted) 42
                       [Demo.fresh_report] (save_always_fails ++ [true])
                     = Some ([], [true], evs)) by (vm_compute; reflexivity)
  end.
  assert (Hall : Forall (fun c => errors c < MAX_ATTEMPTS) [Demo.fresh_report]).
  { constructor; [vm_compute; lia | constructor]. }
  destruct (backend_calls_bounded (B := scripted) 42 [Demo.fresh_report]
              (save_always_fails ++ [true]) _ _ _ Hall Hrun)
    as (Hone & Hst & _).
  split.
  - apply Hone. cbn. apply NoDup_singleton.
  - exact (Hst STATE_PUBLISH).
Defined.


(** * Further properties of handler and workers together *)

Section Accounting.
Context `{E : Env}.
Variable config : Config.

Lemma terminals_app (l k : list event) :
  terminals (l ++ k) = terminals l ++ terminals k.
Proof. unfold terminals. apply omap_app. Qed.

Lemma saves_over_app (l k : list event) :
  saves_over (l ++ k) = saves_over l ++ saves_over k.
Proof. unfold saves_over. apply omap_app. Qed.

Lemma call_event_quiet cr :
  terminals (call_event cr) = [] /\ saves_over (call_event cr) = [].
Proof. unfold call_event. by destruct (state cr). Qed.

(** A settled report is requeued or its end is logged, not both. *)
Lemma settle_terminal cr ok :
  is_Some (state cr) ->
  terminals (settle cr ok).2 ++ (ident <$> option_list (settle cr ok).1)
    = [ident cr].
Proof.
  intros [st Hst]. unfold settle, handle_exception. rewrite Hst.
  destruct st, ok; try destruct (finish_ok cr);
    try destruct (errors (incr_errors cr) <? MAX_ATTEMPTS)%nat;
    reflexivity.
Qed.

Lemma settle_save_over cr ok :
  saves_over (settle cr ok).2
  ++ (ident <$> unsaved (option_list (settle cr ok).1))
    = ident <$> unsaved [cr].
Proof.
  unfold settle, handle_exception, unsaved.
  destruct (state cr) as [[|]|] eqn:Hst; destruct ok;
    try destruct (finish_ok cr);
    try destruct (errors (incr_errors cr) <? MAX_ATTEMPTS)%nat;
    cbn [fst snd option_list option_rect saves_over omap list_omap save_over
         app];
    rewrite ?filter_nil, ?filter_cons; cbn [state set_state incr_errors];
    rewrite ?Hst; repeat case_decide; try congruence; reflexivity.
Qed.

Lemma live_settle σ h1 cr h2 r :
  held σ = h1 ++ cr :: h2 ->
  live σ ≡ₚ cr :: (crashmover_queue (res σ) ++ h1 ++ h2)
  /\ (crashmover_queue (res σ) ++ option_list r) ++ h1 ++ h2
     ≡ₚ option_list r ++ (crashmover_queue (res σ) ++ h1 ++ h2).
Proof.
  intros Hh. split.
  - unfold live. rewrite Hh, (assoc_L (++)), <- Permutation_middle.
    by rewrite <- (assoc_L (++)).
  - rewrite (Permutation_app_comm (crashmover_queue (res σ)) (option_list r)).
    by rewrite <- (assoc_L (++)).
Qed.

Lemma step_accounted σ σ' :
  invariant σ -> step config σ σ' ->
  terminals (log σ) ++ (ident <$> live σ) ≡ₚ seq 0 (allocated (res σ)) ->
  terminals (log σ') ++ (ident <$> live σ') ≡ₚ seq 0 (allocated (res σ')).
Proof.
  intros Hinv Hstep Hacc.
  destruct Hstep as [σ t now req resp res' Hpost|σ c rest Hq Hpool
                    |σ h1 c h2 ok Hh].
  - apply on_post_resource in Hpost as [->|(new & -> & _ & _ & Hi)];
      [exact Hacc|].
    unfold live in *. cbn [res held log crashmover_queue allocated].
    rewrite seq_S, <- Hacc, <- Hi. cbn [plus].
    rewrite !fmap_app. cbn [fmap list_fmap].
    rewrite <- !(assoc_L (++)).
    by rewrite (Permutation_app_comm [ident new] (ident <$> held σ)).
  - unfold live in *. cbn [res held log crashmover_queue allocated].
    rewrite terminals_app, (proj1 (call_event_quiet c)), app_nil_r, <- Hacc.
    rewrite Hq. apply Permutation_app_head. rewrite !fmap_app.
    cbn [fmap list_fmap app]. rewrite (assoc_L (++)).
    by rewrite <- Permutation_cons_append.
  - destruct (live_settle σ h1 c h2 (settle c ok).1 Hh) as [HpA HpB].
    assert (Hc : is_Some (state c)).
    { apply (inv_state σ Hinv). rewrite HpA. apply elem_of_cons. by left. }
    unfold live at 1. cbn [res held log crashmover_queue allocated].
    rewrite HpB, terminals_app, fmap_app, <- Hacc, HpA.
    rewrite <- (assoc_L (++)), (assoc_L (++) (terminals (settle c ok).2)).
    by rewrite (settle_terminal c ok Hc).
Qed.

Lemma step_saves_over σ σ' :
  step config σ σ' ->
  saves_over (log σ) ++ (ident <$> unsaved (live σ))
    ≡ₚ seq 0 (allocated (res σ)) ->
  saves_over (log σ') ++ (ident <$> unsaved (live σ'))
    ≡ₚ seq 0 (allocated (res σ')).
Proof.
  intros Hstep Hacc. unfold unsaved in *.
  destruct Hstep as [σ t now req resp res' Hpost|σ c rest Hq Hpool
                    |σ h1 c h2 ok Hh].
  - apply on_post_resource in Hpost as [->|(new & -> & Hs & _ & Hi)];
      [exact Hacc|].
    unfold live in *. cbn [res held log crashmover_queue allocated].
    rewrite seq_S, <- Hacc, <- Hi. cbn [plus].
    rewrite !filter_app, !fmap_app, filter_cons, filter_nil.
    rewrite decide_True by exact Hs. cbn [fmap list_fmap].
    rewrite <- !(assoc_L (++)).
    by rewrite (Permutation_app_comm [ident new]).
  - unfold live in *. cbn [res held log crashmover_queue allocated].
    rewrite saves_over_app, (proj2 (call_event_quiet c)), app_nil_r, <- Hacc.
    rewrite Hq. apply Permutation_app_head. apply fmap_Permutation.
    apply filter_Permutation.
    rewrite (assoc_L (++)). by rewrite <- Permutation_cons_append.
  - destruct (live_settle σ h1 c h2 (settle c ok).1 Hh) as [HpA HpB].
    unfold live at 1. cbn [res held log crashmover_queue allocated].
    rewrite HpB, saves_over_app, filter_app, fmap_app, <- Hacc, HpA.
    rewrite <- (assoc_L (++)), (assoc_L (++) (saves_over (settle c ok).2)).
    pose proof (settle_save_over c ok) as Hso. unfold unsaved in Hso.
    rewrite Hso. rewrite <- fmap_app, <- filter_app. reflexivity.
Qed.

Lemma reachable_accounted σ :
  reachable config σ ->
  terminals (log σ) ++ (ident <$> live σ) ≡ₚ seq 0 (allocated (res σ)).
Proof.
  intros Hreach.
  enough (Hboth : invariant σ
                  /\ terminals (log σ) ++ (ident <$> live σ)
                     ≡ₚ seq 0 (allocated (res σ))) by apply Hboth.
  revert σ Hreach.
  apply (rtc_ind_r
           (fun σ => invariant σ
                     /\ terminals (log σ) ++ (ident <$> live σ)
                        ≡ₚ seq 0 (allocated (res σ))) init).
  - split; [apply invariant_init | reflexivity].
  - intros σ σ' _ Hstep [Hinv Hacc]. split.
    + by apply (step_invariant config σ σ').
    + by apply (step_accounted σ σ').
Qed.

(** X13. No report is lost or counted twice: in every reachable state the
    reports that the handler has built are, one for one, the reports still
    in the queue or held by a worker together with those whose end is
    logged (finished after a publish, or dropped). So no report ends
    twice, none that ended is still in the queue, and each report built
    is in the queue, held, or ended. *)
Theorem reports_accounted σ :
  reachable config σ ->
  terminals (log σ) ++ (ident <$> live σ) ≡ₚ seq 0 (allocated (res σ))
  /\ NoDup (terminals (log σ))
  /\ (forall i, i ∈ terminals (log σ) -> i ∉ ident <$> live σ)
  /\ (forall i, i < allocated (res σ) <->
                i ∈ terminals (log σ) \/ i ∈ ident <$> live σ).
Proof.
  intros Hperm%reachable_accounted.
  assert (Hnd : NoDup (terminals (log σ) ++ (ident <$> live σ)))
    by (rewrite Hperm; apply NoDup_seq).
  apply NoDup_app in Hnd as (Hnd & Hdisj & _).
  split; [exact Hperm|]. split; [exact Hnd|]. split; [exact Hdisj|].
  intros i. rewrite <- elem_of_app, Hperm, elem_of_seq. lia.
Qed.

(** X14. A report's SAVE state ends once: in every reachable state each
    report either is still to be saved, or has exactly one logged end of
    its SAVE state (the save returned, or the report was dropped in SAVE);
    so no save returns twice for one report. *)
Theorem saved_at_most_once σ :
  reachable config σ ->
  saves_over (log σ) ++ (ident <$> unsaved (live σ))
    ≡ₚ seq 0 (allocated (res σ))
  /\ forall pre post i,
       log σ = pre ++ Returned STATE_SAVE i :: post ->
       (Returned STATE_SAVE i ∉ pre ++ post)
       /\ (Dropped STATE_SAVE i ∉ pre ++ post).
Proof.
  intros Hreach.
  assert (Hperm : saves_over (log σ) ++ (ident <$> unsaved (live σ))
                  ≡ₚ seq 0 (allocated (res σ))).
  { revert σ Hreach.
    apply (rtc_ind_r
             (fun σ => saves_over (log σ) ++ (ident <$> unsaved (live σ))
                       ≡ₚ seq 0 (allocated (res σ))) init);
      [reflexivity|].
    intros σ σ' _ Hstep Hacc. by apply (step_saves_over σ σ'). }
  split; [exact Hperm|].
  intros pre post i Hlog.
  assert (Hnd : NoDup (saves_over (log σ))).
  { assert (Hall : NoDup (saves_over (log σ)
                          ++ (ident <$> unsaved (live σ))))
      by (rewrite Hperm; apply NoDup_seq).
    by apply NoDup_app in Hall as [Hall _]. }
  rewrite Hlog, saves_over_app in Hnd. cbn in Hnd.
  apply NoDup_app in Hnd as (_ & Hdisj & Hpost).
  apply NoDup_cons in Hpost as [Hpost _].
  assert (Hin : forall e, save_over e = Some i -> e ∉ pre ++ post).
  { intros e He [Hpre|Hpo]%elem_of_app.
    - apply (Hdisj i).
      + apply list_elem_of_omap. by exists e.
      + apply elem_of_cons. by left.
    - apply Hpost. apply list_elem_of_omap. by exists e. }
  split; by apply Hin.
Qed.

Lemma settle_payload cr ok cr' :
  (settle cr ok).1 = Some cr' ->
  raw_crash cr' = raw_crash cr /\ dumps cr' = dumps cr
  /\ crash_id cr' = crash_id cr.
Proof.
  unfold settle, handle_exception.
  destruct (state cr) as [[|]|]; destruct ok; try destruct (finish_ok cr);
    try destruct (errors (incr_errors cr) <? MAX_ATTEMPTS)%nat;
    cbn; intros [= <-]; by repeat split.
Qed.

Lemma report_ok_payload cr cr' :
  raw_crash cr' = raw_crash cr -> dumps cr' = dumps cr ->
  crash_id cr' = crash_id cr ->
  report_ok config cr -> report_ok config cr'.
Proof.
  intros Hr Hd Hc (m & H1 & H2 & H3 & H4 & H5 & H6).
  exists m. rewrite Hr, Hd, Hc. by repeat split.
Qed.

(** X15. Every report in the queue or held by a worker, in every reachable
    state, is as the handler built it: its raw crash is a dict whose uuid
    is its crash id, with the type tag, a float timestamp and the SHA-256
    checksums of its byte-string dumps. So [crashmover_finish] does not
    raise, and a publish that returns ends the report. *)
Theorem live_reports_ok σ cr :
  reachable config σ ->
  cr ∈ live σ ->
  report_ok config cr
  /\ finish_ok cr = true
  /\ (state cr = Some STATE_PUBLISH ->
      settle cr true = (None, [Returned STATE_PUBLISH (ident cr);
                               Finished (ident cr)])).
Proof.
  intros Hreach Hcr.
  enough (Hok : report_ok config cr).
  { pose proof (report_ok_finish config cr Hok) as Hfin.
    split; [exact Hok|]. split; [exact Hfin|].
    intros Hst. unfold settle. by rewrite Hst, Hfin. }
  revert cr Hcr. revert σ Hreach.
  apply (rtc_ind_r
           (fun σ => forall cr, cr ∈ live σ -> report_ok config cr) init).
  { intros cr Hcr. by apply elem_of_nil in Hcr. }
  intros σ σ' _ Hstep IH cr Hcr.
  destruct Hstep as [σ t now req resp res' Hpost|σ c rest Hq Hpool
                    |σ h1 c h2 ok Hh].
  - pose proof Hpost as Hres.
    apply on_post_resource in Hres as [->|(new & -> & _)]; [by apply IH|].
    unfold live in Hcr. cbn in Hcr.
    rewrite !elem_of_app, list_elem_of_singleton in Hcr.
    destruct Hcr as [[Hin| ->]|Hin].
    + apply IH. unfold live. rewrite elem_of_app. by left.
    + apply on_post_enqueued in Hpost
        as (m & dmp & (_ & _ & Hb & _) & -> & _).
      by apply submission_ok.
    + apply IH. unfold live. rewrite elem_of_app. by right.
  - apply IH. unfold live in *. cbn in Hcr. rewrite Hq.
    rewrite !elem_of_app, list_elem_of_singleton in Hcr.
    rewrite elem_of_app, elem_of_cons. tauto.
  - destruct (settle_live_before σ h1 c h2 Hh) as [Hc Hbase].
    unfold live in Hcr. cbn in Hcr.
    apply settle_live_after in Hcr as [Hr|Hin]; [|by apply IH, Hbase].
    destruct (settle_payload c ok cr Hr) as (H1 & H2 & H3).
    apply (report_ok_payload c cr H1 H2 H3). by apply IH.
Qed.

End Accounting.

Lemma reports_accounted_witness :
  terminals (log Demo.publishing) ++ (ident <$> live Demo.publishing)
    ≡ₚ seq 0 1.
Proof.
  exact (proj1 (reports_accounted (E := Demo.firefox_env) default_config
                  Demo.publishing demo_reach_publishing)).
Defined.

Lemma saved_at_most_once_witness :
  Returned STATE_SAVE 0 ∉ [Called STATE_SAVE 0] ++ [Called STATE_PUBLISH 0].
Proof.
  exact (proj1 (proj2 (saved_at_most_once (E := Demo.firefox_env)
                         default_config Demo.publishing
                         demo_reach_publishing)
                  [Called STATE_SAVE 0] [Called STATE_PUBLISH 0] 0 eq_refl)).
Defined.

Lemma live_reports_ok_witness :
  finish_ok (set_state Demo.firefox_report STATE_PUBLISH) = true.
Proof.
  refine (proj1 (proj2 (live_reports_ok (E := Demo.firefox_env)
                          default_config Demo.publishing
                          (set_state Demo.firefox_report STATE_PUBLISH)
                          demo_reach_publishing _))).
  apply list_elem_of_singleton. reflexivity.
Defined.

(** * Further properties of the pool and the heartbeat functions *)

Section PoolProperties.
Context `{E : Env}.
Variable config : Config.

Lemma pool_size_pos : 0 < pool_size config.
Proof. unfold pool_size. lia. Qed.

(** [hb_run_crashmover] touches only the pool, adds at most one worker,
    and none beyond the size of the pool. *)
Lemma hb_run_crashmover_pool σ :
  base (hb_run_crashmover config σ) = base σ
  /\ workers σ <= workers (hb_run_crashmover config σ) <= S (workers σ)
  /\ (workers σ <= pool_size config ->
      workers (hb_run_crashmover config σ) <= pool_size config).
Proof.
  unfold hb_run_crashmover, free_count.
  destruct (crashmover_queue (res (base σ))); [by repeat split; lia|].
  destruct (0 <? pool_size config - workers σ)%nat eqn:Hfree.
  - apply Nat.ltb_lt in Hfree. cbn. repeat split; lia.
  - repeat split; lia.
Qed.

Lemma pstep_bounds σ σ' :
  pstep config σ σ' ->
  length (held (base σ)) <= workers σ <= pool_size config ->
  length (held (base σ')) <= workers σ' <= pool_size config.
Proof.
  intros Hstep [Hheld Hpool].
  destruct Hstep as [σ t now req resp res' Hpost|σ|σ c rest Hq Hlt
                    |σ h1 c h2 ok Hh|σ Hq Hlt].
  - cbn zeta. destruct (enqueued _ _); [|by cbn].
    match goal with |- context [hb_run_crashmover config ?s] =>
      destruct (hb_run_crashmover_pool s) as (-> & Hw & Hp) end.
    cbn in *. lia.
  - destruct (hb_run_crashmover_pool σ) as (-> & Hw & Hp). lia.
  - cbn. rewrite length_app. cbn. lia.
  - cbn. rewrite Hh in Hheld. rewrite length_app in *. cbn in *. lia.
  - cbn. lia.
Qed.

Lemma pstep_base σ σ' :
  pstep config σ σ' ->
  length (held (base σ)) <= workers σ <= pool_size config ->
  base σ' = base σ \/ step config (base σ) (base σ').
Proof.
  intros Hstep [Hheld Hpool].
  destruct Hstep as [σ t now req resp res' Hpost|σ|σ c rest Hq Hlt
                    |σ h1 c h2 ok Hh|σ Hq Hlt].
  - right. cbn zeta.
    assert (Hbase : base (if enqueued (res (base σ)) res'
                          then hb_run_crashmover config
                                 {| base := {| res := res';
                                               held := held (base σ);
                                               log := log (base σ) |};
                                    workers := workers σ |}
                          else {| base := {| res := res';
                                             held := held (base σ);
                                             log := log (base σ) |};
                                  workers := workers σ |})
                    = {| res := res'; held := held (base σ);
                         log := log (base σ) |}).
    { destruct (enqueued _ _); [|reflexivity].
      apply hb_run_crashmover_pool. }
    rewrite Hbase. by eapply step_post.
  - left. apply hb_run_crashmover_pool.
  - right. apply step_pop; [exact Hq|]. unfold pool_size in Hpool. lia.
  - right. by apply step_settle.
  - by left.
Qed.

Lemma pool_invariant σ :
  preachable config σ ->
  length (held (base σ)) <= workers σ <= pool_size config
  /\ reachable config (base σ).
Proof.
  revert σ.
  apply (rtc_ind_r
           (fun σ => length (held (base σ)) <= workers σ <= pool_size config
                     /\ reachable config (base σ)) pooled_init).
  - split; [cbn; pose proof pool_size_pos; lia | apply rtc_refl].
  - intros σ σ' _ Hstep [Hb Hr]. split; [by apply (pstep_bounds σ σ')|].
    destruct (pstep_base σ σ' Hstep Hb) as [-> | Hs]; [exact Hr|].
    by eapply rtc_r.
Qed.

(** X16. The pool is never over its size: in every state that handler,
    heartbeat and workers can reach, the workers that hold a report are
    among the greenlets of the pool, and these are at most
    [concurrent_crashmovers]; a further call of [hb_run_crashmover] keeps
    it so, adds at most one greenlet and leaves queue and reports as they
    are. *)
Theorem pool_never_overfull σ :
  preachable config σ ->
  length (held (base σ)) <= workers σ
  /\ workers σ <= Pos.to_nat (concurrent_crashmovers config)
  /\ workers (hb_run_crashmover config σ)
     <= Pos.to_nat (concurrent_crashmovers config)
  /\ workers (hb_run_crashmover config σ) <= S (workers σ)
  /\ base (hb_run_crashmover config σ) = base σ.
Proof.
  intros [[Hh Hp] _]%pool_invariant.
  destruct (hb_run_crashmover_pool σ) as (Hbase & Hw & Hpool).
  unfold pool_size in *. repeat split; try lia. exact Hbase.
Qed.

(** X17. With the pool and the heartbeat, the handler and the workers do
    what they do without them: the queue, the held reports and the log of
    a state reached with spawns and exits are those of a state reached by
    posts, pops and settles alone, with at most [concurrent_crashmovers]
    reports held. *)
Theorem pool_refines_system σ :
  preachable config σ ->
  reachable config (base σ)
  /\ length (held (base σ)) <= Pos.to_nat (concurrent_crashmovers config).
Proof.
  intros [[Hh Hp] Hr]%pool_invariant. split; [exact Hr|].
  unfold pool_size in Hp. lia.
Qed.

(** X18. When [has_work_to_do] returns False, nothing is left: the queue
    is empty, no worker holds a report, the gauge of
    [hb_report_health_stats] is 0, and every report that the handler
    built was finished or dropped, each once. *)
Theorem no_work_left_means_done σ :
  preachable config σ ->
  has_work_to_do σ = false ->
  live (base σ) = []
  /\ work_queue_size σ = 0
  /\ workers σ = 0
  /\ terminals (log (base σ)) ≡ₚ seq 0 (allocated (res (base σ))).
Proof.
  intros [[Hh Hp] Hr]%pool_invariant Hwork.
  unfold has_work_to_do in Hwork. apply negb_false_iff, Nat.eqb_eq in Hwork.
  assert (Hq : crashmover_queue (res (base σ)) = [])
    by (apply length_zero_iff_nil; lia).
  assert (Hheld : held (base σ) = []) by (apply length_zero_iff_nil; lia).
  assert (Hlive : live (base σ) = []) by (unfold live; by rewrite Hq, Hheld).
  split; [exact Hlive|]. split; [unfold work_queue_size; lia|].
  split; [lia|].
  apply reachable_accounted in Hr. rewrite Hlive in Hr. cbn in Hr.
  by rewrite app_nil_r in Hr.
Qed.

End PoolProperties.

Lemma demo_preach_posted :
  @preachable Demo.firefox_env default_config
    {| base := Demo.posted; workers := 1 |}.
Proof.
  destruct (demo_post_firefox 0%float 0%Z) as (resp & Hpost).
  eapply rtc_l; [|apply rtc_refl].
  exact (pstep_post (E := Demo.firefox_env) default_config pooled_init
           0%float 0%Z (Demo.post (Demo.b "body")) resp _ Hpost).
Qed.

Lemma demo_preach_done :
  @preachable Demo.firefox_env default_config
    {| base := {| res := {| crashmover_queue := []; allocated := 1 |};
                  held := [];
                  log := [Called STATE_SAVE 0; Returned STATE_SAVE 0;
                          Called STATE_PUBLISH 0; Returned STATE_PUBLISH 0;
                          Finished 0] |};
       workers := 0 |}.
Proof.
  eapply rtc_r; [eapply rtc_r; [eapply rtc_r; [eapply rtc_r; [eapply rtc_r;
    [apply demo_preach_posted|]|]|]|]|].
  - refine (pstep_pop (E := Demo.firefox_env) default_config
              {| base := Demo.posted; workers := 1 |}
              Demo.firefox_report [] eq_refl _).
    cbn. lia.
  - exact (pstep_settle (E := Demo.firefox_env) default_config
             {| base := {| res := {| crashmover_queue := [];
                                     allocated := 1 |};
                           held := [Demo.firefox_report];
                           log := [Called STATE_SAVE 0] |};
                workers := 1 |}
             [] Demo.firefox_report [] true eq_refl).
  - refine (pstep_pop (E := Demo.firefox_env) default_config
              {| base := {| res := {| crashmover_queue :=
                               [set_state Demo.firefox_report STATE_PUBLISH];
                                      allocated := 1 |};
                            held := [];
                            log := [Called STATE_SAVE 0;
                                    Returned STATE_SAVE 0] |};
                 workers := 1 |}
              (set_state Demo.firefox_report STATE_PUBLISH) [] eq_refl _).
    cbn. lia.
  - exact (pstep_settle (E := Demo.firefox_env) default_config
             {| base := Demo.publishing; workers := 1 |}
             [] (set_state Demo.firefox_report STATE_PUBLISH) [] true
             eq_refl).
  - refine (pstep_exit (E := Demo.firefox_env) default_config
              {| base := {| res := {| crashmover_queue := [];
                                      allocated := 1 |};
                            held := [];
                            log := [Called STATE_SAVE 0;
                                    Returned STATE_SAVE 0;
                                    Called STATE_PUBLISH 0;
                                    Returned STATE_PUBLISH 0;
                                    Finished 0] |};
                 workers := 1 |} eq_refl _).
    cbn. lia.
Qed.

Lemma pool_never_overfull_witness :
  workers (@hb_run_crashmover default_config
             {| base := Demo.posted; workers := 1 |}) <= 2.
Proof.
  exact (proj1 (proj2 (proj2 (proj2
           (pool_never_overfull (E := Demo.firefox_env) default_config
              {| base := Demo.posted; workers := 1 |}
              demo_preach_posted))))).
Defined.

Lemma pool_refines_system_witness :
  @reachable Demo.firefox_env default_config Demo.posted.
Proof.
  exact (proj1 (pool_refines_system (E := Demo.firefox_env) default_config
                  {| base := Demo.posted; workers := 1 |}
                  demo_preach_posted)).
Defined.

Lemma no_work_left_means_done_witness :
  terminals [Called STATE_SAVE 0; Returned STATE_SAVE 0;
             Called STATE_PUBLISH 0; Returned STATE_PUBLISH 0; Finished 0]
    ≡ₚ seq 0 1.
Proof.
  exact (proj2 (proj2 (proj2
           (no_work_left_means_done (E := Demo.firefox_env) default_config
              _ demo_preach_done eq_refl)))).
Defined.

(** * Further properties of the handler of [app.py] *)

Section AppHandler.
Context `{X : App.Extras}.
Variable config : Config.

Lemma app_payload_ok_init : app_payload_ok [] (∅, ∅).
Proof.
  unfold app_payload_ok. cbn [fst snd].
  split; [apply map_Forall_empty|]. split; [apply lookup_empty|].
  split; [by rewrite decide_True|].
  split; [intros k v Hk | intros k v _ Hk]; by rewrite lookup_empty in Hk.
Qed.

Lemma app_payload_ok_more seen kv acc :
  app_payload_ok seen acc -> app_payload_ok (seen ++ [kv]) acc.
Proof.
  intros (Hb & Hd & Hs & Hdm & Hraw). repeat split; try done.
  - intros k v Hk. apply elem_of_app. left. by apply Hdm.
  - intros k v Hne Hk. destruct (Hraw k v Hne Hk) as (s & -> & Hin).
    exists s. split; [done|]. apply elem_of_app. by left.
Qed.

(** A pass of the loop does not raise and keeps the payload as
    described. *)
Lemma walk_item_ok seen acc kv :
  app_payload_ok seen acc ->
  exists acc', App.walk_item acc kv = inr acc'
               /\ app_payload_ok (seen ++ [kv]) acc'.
Proof.
  intros Hok. pose proof (app_payload_ok_more seen kv acc Hok) as Hmore.
  destruct acc as [raw dmp], kv as [key val]. unfold App.walk_item.
  destruct (String.eqb key "dump_checksums") eqn:Hkey; [by eexists|].
  apply String.eqb_neq in Hkey.
  destruct val as [|b|z|f|s|data|l|m]; try (by eexists).
  - (* a text item *)
    eexists. split; [reflexivity|].
    destruct Hmore as (Hb & Hd & Hs & Hdm & Hraw).
    unfold app_payload_ok. cbn [fst snd] in *.
    split; [exact Hb|]. split; [exact Hd|].
    split; [by rewrite lookup_insert_ne|]. split; [exact Hdm|].
    intros k v Hne Hk. destruct (decide (k = key)) as [->|Hkk].
    + rewrite lookup_insert_eq in Hk. injection Hk as <-.
      exists s. split; [reflexivity|]. apply elem_of_app. right.
      by apply list_elem_of_singleton.
    + rewrite lookup_insert_ne in Hk by done. by apply Hraw.
  - (* a dump *)
    destruct Hmore as (Hb & Hd & Hs & Hdm & Hraw). cbn [fst snd] in *.
    assert (Hsums : default (VDict ∅) (raw !! "dump_checksums")
                    = VDict (md5_value <$> dmp)).
    { rewrite Hs. destruct (decide (dmp = ∅)) as [->|]; [|reflexivity].
      by rewrite fmap_empty. }
    unfold App.add_checksum. rewrite Hsums. eexists. split; [reflexivity|].
    unfold app_payload_ok. cbn [fst snd].
    split; [by apply map_Forall_insert_2|].
    split; [by rewrite lookup_insert_ne|].
    split.
    { rewrite lookup_insert_eq, decide_False by apply insert_non_empty.
      by rewrite fmap_insert. }
    split.
    + intros k v Hk. destruct (decide (k = key)) as [->|Hkk].
      * rewrite lookup_insert_eq in Hk. injection Hk as <-.
        apply elem_of_app. right. by apply list_elem_of_singleton.
      * rewrite lookup_insert_ne in Hk by done. by apply Hdm.
    + intros k v Hne Hk. rewrite lookup_insert_ne in Hk by done.
      by apply Hraw.
Qed.

Lemma walk_items_ok items : forall seen acc,
  app_payload_ok seen acc ->
  exists acc', App.walk_items acc items = inr acc'
               /\ app_payload_ok (seen ++ items) acc'.
Proof.
  induction items as [|kv rest IH]; intros seen acc Hok.
  - exists acc. by rewrite app_nil_r.
  - destruct (walk_item_ok seen acc kv Hok) as (acc1 & Hw & Hok1).
    destruct (IH (seen ++ [kv]) acc1 Hok1) as (acc' & Hrest & Hok').
    exists acc'. cbn [App.walk_items]. rewrite Hw.
    split; [exact Hrest|]. by rewrite <- (assoc_L (++)) in Hok'.
Qed.

(** X19. The loop of [extract_payload] in [app.py] does not raise,
    whatever the form holds. Its dumps are byte-string values of the form
    under their names; [dump_checksums] is absent when there is no dump
    and otherwise maps each dump name to the MD5 hex digest of the dump,
    never to what the client sent under that name; every other entry of
    the raw crash is a text value of the form passed through
    [de_null]. *)
Theorem app_payload_checksums (items : list (string * pyval)) :
  exists raw dmp,
    App.walk_items (∅, ∅) items = inr (raw, dmp)
    /\ dumps_are_bytes dmp
    /\ dmp !! "dump_checksums" = None
    /\ raw !! "dump_checksums" =
       (if decide (dmp = ∅) then None
        else Some (VDict (md5_value <$> dmp)))
    /\ (forall k v, dmp !! k = Some v -> (k, v) ∈ items)
    /\ (forall k v, k <> "dump_checksums" -> raw !! k = Some v ->
          exists s, v = VStr (App.de_null s) /\ (k, VStr s) ∈ items).
Proof.
  destruct (walk_items_ok items [] (∅, ∅) app_payload_ok_init)
    as ([raw dmp] & Hw & Hok).
  exists raw, dmp. split; [exact Hw|]. exact Hok.
Qed.

(** The ways in which [on_post] of [app.py] ends. *)
Lemma app_on_post_cases now timestamp req :
  (exists e, App.extract_payload req = inl e
             /\ App.on_post config now timestamp req = inl e)
  \/ (exists raw0 dmp raw cid,
        App.extract_payload req = inr (raw0, dmp)
        /\ cid = default (VStr (App.create_new_ooid now)) (raw0 !! "uuid")
        /\ raw !! "uuid" = Some cid
        /\ raw !! "type_tag" =
           Some (VStr (strip_dash (dump_id_prefix config)))
        /\ raw !! "timestamp" = Some (VFloat timestamp)
        /\ raw !! "submitted_timestamp" = Some (VStr (isoformat now))
        /\ (forall k, k <> "uuid" -> k <> "type_tag" -> k <> "timestamp" ->
                      k <> "submitted_timestamp" -> raw !! k = raw0 !! k)
        /\ App.on_post config now timestamp req =
           (_ ← App.save_raw_crash raw dmp cid;
            ret {| status := HTTP_200; resp_content_type := "text/plain";
                   body := "CrashID=" +:+ dump_id_prefix config
                           +:+ format_s cid +:+ newline |})).
Proof.
  unfold App.on_post.
  destruct (App.extract_payload req) as [e|[raw0 dmp]]; [left; by eexists|].
  right. cbn [mbind result_mbind bind].
  set (raw1 := <["timestamp" := VFloat timestamp]>
                 (<["submitted_timestamp" := VStr (isoformat now)]> raw0)).
  assert (Hu : raw1 !! "uuid" = raw0 !! "uuid")
    by (unfold raw1; by rewrite !lookup_insert_ne).
  assert (Ht : raw1 !! "timestamp" = Some (VFloat timestamp))
    by apply lookup_insert_eq.
  assert (Hs : raw1 !! "submitted_timestamp" = Some (VStr (isoformat now))).
  { unfold raw1. rewrite lookup_insert_ne by done. apply lookup_insert_eq. }
  assert (Hk : forall k, k <> "timestamp" -> k <> "submitted_timestamp" ->
                         raw1 !! k = raw0 !! k).
  { intros k H1 H2. unfold raw1. by rewrite !lookup_insert_ne. }
  clearbody raw1.
  destruct (raw1 !! "uuid") as [cid|] eqn:Hcid.
  - exists raw0, dmp, (<["type_tag" :=
                          VStr (strip_dash (dump_id_prefix config))]> raw1),
      cid.
    split; [reflexivity|]. split; [by rewrite <- Hu|].
    split; [by rewrite lookup_insert_ne|].
    split; [apply lookup_insert_eq|].
    split; [by rewrite lookup_insert_ne|].
    split; [by rewrite lookup_insert_ne|].
    split; [|reflexivity].
    intros k _ H2 H3 H4. rewrite lookup_insert_ne by done. by apply Hk.
  - exists raw0, dmp,
      (<["type_tag" := VStr (strip_dash (dump_id_prefix config))]>
         (<["uuid" := VStr (App.create_new_ooid now)]> raw1)),
      (VStr (App.create_new_ooid now)).
    split; [reflexivity|]. split; [by rewrite <- Hu|].
    split; [rewrite lookup_insert_ne by done; apply lookup_insert_eq|].
    split; [apply lookup_insert_eq|].
    split; [by rewrite !lookup_insert_ne|].
    split; [by rewrite !lookup_insert_ne|].
    split; [|reflexivity].
    intros k H1 H2 H3 H4. rewrite !lookup_insert_ne by done. by apply Hk.
Qed.

(** X20. [on_post] of [app.py] answers only after the storage has taken
    the crash: when it returns, [save_raw_crash] has returned for a raw
    crash whose uuid is the crash id of the call, with the type tag and
    the two timestamps set and every other entry as parsed, and the answer
    is 200 with that crash id in the body. The crash id is the uuid of
    the payload when it has one, whatever it is, and a new one
    otherwise. *)
Theorem app_on_post_saves_first now timestamp req resp :
  App.on_post config now timestamp req = inr resp ->
  exists raw0 dmp raw cid,
    App.extract_payload req = inr (raw0, dmp)
    /\ App.save_raw_crash raw dmp cid = inr tt
    /\ cid = default (VStr (App.create_new_ooid now)) (raw0 !! "uuid")
    /\ raw !! "uuid" = Some cid
    /\ raw !! "type_tag" = Some (VStr (strip_dash (dump_id_prefix config)))
    /\ raw !! "timestamp" = Some (VFloat timestamp)
    /\ raw !! "submitted_timestamp" = Some (VStr (isoformat now))
    /\ (forall k, k <> "uuid" -> k <> "type_tag" -> k <> "timestamp" ->
                  k <> "submitted_timestamp" -> raw !! k = raw0 !! k)
    /\ status resp = HTTP_200
    /\ resp_content_type resp = "text/plain"
    /\ body resp = "CrashID=" +:+ dump_id_prefix config +:+ format_s cid
                   +:+ newline.
Proof.
  intros Hpost.
  destruct (app_on_post_cases now timestamp req)
    as [(e & _ & He)|(raw0 & dmp & raw & cid & Hext & Hcid & Hu & Htag & Ht
                      & Hs & Hk & Heq)]; [congruence|].
  rewrite Heq in Hpost.
  destruct (App.save_raw_crash raw dmp cid) as [e|[]] eqn:Hsave;
    [discriminate|].
  cbn in Hpost. injection Hpost as <-.
  exists raw0, dmp, raw, cid. by repeat split.
Qed.

(** X21. [on_post] of [app.py] raises in two cases only: parsing the
    payload raised, or the storage raised on the crash; the exception is
    then the one of the handler, no answer is built, and the crash is not
    tried again. *)
Theorem app_on_post_raises now timestamp req e :
  App.on_post config now timestamp req = inl e <->
  App.extract_payload req = inl e
  \/ exists raw0 dmp raw,
       App.extract_payload req = inr (raw0, dmp)
       /\ (forall k, k <> "uuid" -> k <> "type_tag" -> k <> "timestamp" ->
                     k <> "submitted_timestamp" -> raw !! k = raw0 !! k)
       /\ raw !! "uuid" =
          Some (default (VStr (App.create_new_ooid now)) (raw0 !! "uuid"))
       /\ raw !! "type_tag" =
          Some (VStr (strip_dash (dump_id_prefix config)))
       /\ raw !! "timestamp" = Some (VFloat timestamp)
       /\ raw !! "submitted_timestamp" = Some (VStr (isoformat now))
       /\ App.save_raw_crash raw dmp
            (default (VStr (App.create_new_ooid now)) (raw0 !! "uuid"))
          = inl e.
Proof.
  destruct (app_on_post_cases now timestamp req)
    as [(e' & Hext & He)|(raw0 & dmp & raw & cid & Hext & -> & Hu & Htag & Ht
                          & Hs & Hk & Heq)].
  - rewrite He, Hext. split; [intros [= ->]; by left|].
    intros [[= ->]|(? & ? & ? & [=] & _)]. reflexivity.
  - rewrite Heq, Hext. split.
    + intros Hraise. right. exists raw0, dmp, raw.
      destruct (App.save_raw_crash raw dmp _) as [e'|[]] eqn:Hsave;
        [|discriminate].
      cbn in Hraise. injection Hraise as ->. by repeat split.
    + intros [[=]|(raw0' & dmp' & raw' & [= <- <-] & Hk' & Hu' & Htag' & Ht'
                    & Hs' & Hsave)].
      assert (Hraw : raw' = raw).
      { apply map_eq. intros k.
        destruct (decide (k = "uuid")) as [->|H1]; [congruence|].
        destruct (decide (k = "type_tag")) as [->|H2]; [congruence|].
        destruct (decide (k = "timestamp")) as [->|H3]; [congruence|].
        destruct (decide (k = "submitted_timestamp")) as [->|H4];
          [congruence|].
        by rewrite Hk, Hk'. }
      subst raw'. by rewrite Hsave.
Qed.

End AppHandler.

Lemma app_on_post_saves_first_witness :
  exists raw dmp cid,
    @App.save_raw_crash _ Demo.app_extras raw dmp cid = inr tt
    /\ raw !! "uuid" = Some cid.
Proof.
  destruct (app_on_post_saves_first (X := Demo.app_extras) default_config
              0%Z 0%float (Demo.post (Demo.b "body")) _ app_post_accepted)
    as (raw0 & dmp & raw & cid & _ & Hsave & _ & Hu & _).
  by exists raw, dmp, cid.
Defined.
